(** * EIP-712 typed-data signer: a shallow embedding of [EIP712Signer]

    The development follows the TypeScript class [EIP712Signer]
    (type registry, dependency resolution, canonical type signature,
    recursive data encoding, payload validation, signing facade) and
    proves properties of that code.

    Modelling conventions.
    - A JavaScript string is a [string]; its characters stand for code
      units, so [String.length] is [.length] (names are ASCII).
    - [this.structs] is a [gmap string EIP712Struct]: the code only ever
      reads it by key.  It is a plain object, so a read by key also
      finds the members inherited from [Object.prototype]
      ([structs_read]); the same holds for the records of a message
      ([own]).
    - A thrown [Error] is an [Err e] in the [outcome] monad; each
      [throw] site of the class has its own constructor of [error].
    - keccak-256, the ABI coder and the elliptic-curve signer are
      capabilities of the environment: section variables. *)

From Stdlib Require Import ZArith NArith Ascii String Strings.Byte List Lia DecimalString.
From stdpp Require Import gmap strings list fin_maps sorting.

#[local] Set Warnings "-clear-no-such-hyp,-level-tolerance".


(** ** JavaScript string primitives used by the class *)

Module JsString.
Local Open Scope Z_scope.

(** [s.substring(k)] for [0 <= k]. *)
Fixpoint drop (k : nat) (s : string) : string :=
  match k, s with
  | O, _ => s
  | S k', String _ s' => drop k' s'
  | S _, EmptyString => EmptyString
  end.

(** [s.substring(0, k)]. *)
Fixpoint take (k : nat) (s : string) : string :=
  match k, s with
  | S k', String c s' => String c (take k' s')
  | _, _ => EmptyString
  end.

(** Backwards scan of [String.prototype.lastIndexOf]: try position
    [k], then [k - 1], ... down to [0]; [-1] when nothing matches. *)
Fixpoint lastIndexOf_down (needle s : string) (k : nat) : Z :=
  if String.prefix needle (drop k s) then Z.of_nat k
  else match k with
       | O => -1
       | S k' => lastIndexOf_down needle s k'
       end.

Definition lastIndexOf (s needle : string) : Z :=
  if (String.length s <? String.length needle)%nat then -1
  else lastIndexOf_down needle s (String.length s - String.length needle).

(** [s.slice(0, e)]: a negative [e] counts from the end. *)
Definition slice0 (s : string) (e : Z) : string :=
  let len := Z.of_nat (String.length s) in
  let e' := if e <? 0 then Z.max (len + e) 0 else Z.min e len in
  take (Z.to_nat e') s.

(** [s.slice(2)]. *)
Definition slice2 (s : string) : string := drop 2 s.

(** [type.lastIndexOf('[]') === type.length - 2] *)
Definition ends_by_brackets (type : string) : bool :=
  lastIndexOf type "[]" =? Z.of_nat (String.length type) - 2.

(** [type.slice(0, type.lastIndexOf('[]'))] *)
Definition extract_type (type : string) : string :=
  slice0 type (lastIndexOf type "[]").

End JsString.
Import JsString.

(** ** Data model *)

(** Field in a user defined type. *)
Record EIP712StructField := Field { fname : string; ftype : string }.

(** User defined types are just the array of their fields. *)
Abbreviation EIP712Struct := (list EIP712StructField).

Definition EIP712DomainType : EIP712Struct :=
  [ Field "name" "string";
    Field "version" "string";
    Field "chainId" "uint256";
    Field "verifyingContract" "address" ].

(** The [throw] sites of the class, plus the runtime [TypeError] of
    JavaScript and a failure of an external capability. *)
Inductive error :=
| DuplicateType (name : string)
| MissingField (type field : string)
| InvalidPayloadShape_count
| InvalidPayloadShape_missing (req : string)
| TypeCountMismatch
| UnknownType (type : string)
| FieldMismatch_unknown (type field : string)
| FieldMismatch_type (type got expected : string)
| MissingDomainField (field : string)
| UnknownPrimaryType (type : string)
| TypeError
| CapabilityError
| NotModelled.

Inductive outcome (A : Type) :=
| Ok (a : A)
| Err (e : error).
Arguments Ok {A} a.
Arguments Err {A} e.

#[global] Instance outcome_ret : MRet outcome := fun A a => Ok a.
#[global] Instance outcome_bind : MBind outcome := fun A B k r =>
  match r with
  | Ok a => k a
  | Err e => Err e
  end.

Section MapM.
Context {A B : Type} (f : A → outcome B).

(** [xs.map(f)] where [f] may throw: the first throw aborts. *)
Fixpoint mapM (xs : list A) : outcome (list B) :=
  match xs with
  | [] => Ok []
  | x :: xs' => y ← f x; ys ← mapM xs'; Ok (y :: ys)
  end.
End MapM.

(** ** Bytes and their hexadecimal rendering *)

Module Hex.

(** One lowercase digit, as [Buffer.toString('hex')] prints it. *)
Definition digit (n : N) : ascii :=
  match n with
  | 0 => "0" | 1 => "1" | 2 => "2" | 3 => "3" | 4 => "4" | 5 => "5"
  | 6 => "6" | 7 => "7" | 8 => "8" | 9 => "9" | 10 => "a" | 11 => "b"
  | 12 => "c" | 13 => "d" | 14 => "e" | _ => "f"
  end%N%char.

(** Value of a digit; [Buffer.from(s, 'hex')] takes both cases. *)
Definition digit_value (c : ascii) : option N :=
  let n := N_of_ascii c in
  if ((48 <=? n) && (n <=? 57))%N then Some (n - 48)%N
  else if ((97 <=? n) && (n <=? 102))%N then Some (n - 87)%N
  else if ((65 <=? n) && (n <=? 70))%N then Some (n - 55)%N
  else None.

Definition byte_of_N (n : N) : byte := default Byte.x00 (Byte.of_N n).

(** [Buffer.toString('hex')] *)
Fixpoint to_hex (bs : list byte) : string :=
  match bs with
  | [] => EmptyString
  | b :: bs' =>
      let n := Byte.to_N b in
      String (digit (n / 16)) (String (digit (n mod 16)) (to_hex bs'))
  end.

(** [Buffer.from(s, 'hex')]: pairs of digits, up to the first pair
    that is not hexadecimal. *)
Fixpoint from_hex (s : string) : list byte :=
  match s with
  | String a (String b s') =>
      match digit_value a, digit_value b with
      | Some x, Some y => byte_of_N (16 * x + y) :: from_hex s'
      | _, _ => []
      end
  | _ => []
  end.

(** Is [s] made of hexadecimal digits only? *)
Fixpoint is_hex_digits (s : string) : bool :=
  match s with
  | EmptyString => true
  | String a s' =>
      match digit_value a with
      | Some _ => is_hex_digits s'
      | None => false
      end
  end.

(** The library's [hexlify]: a data hex string. *)
Definition hexlify (bs : list byte) : string := "0x" +:+ to_hex bs.

(** [Buffer.from(h.slice(2), 'hex')] *)
Definition buffer_of_hex (h : string) : list byte := from_hex (slice2 h).

(** [Buffer.from(s)] and [Buffer.from(s, 'utf8')]. *)
Definition utf8 (s : string) : list byte := list_byte_of_string s.

End Hex.
Import Hex.

(** ** JavaScript values *)

(** The values a message can hold.  [VNum] is an integer-valued
    number, [VBN] a [bn.js] instance, [VObj] an object literal with
    its own properties in order, [VInherited key] the member [key] of
    [Object.prototype]: a function, the prototype itself for
    [__proto__]. *)
#[warnings="-register-all"]
Inductive any :=
| VUndefined
| VNull
| VBool (b : bool)
| VNum (n : Z)
| VBN (n : Z)
| VStr (s : string)
| VArr (elems : list any)
| VObj (props : list (string * any))
| VInherited (key : string).

(** The names every plain object inherits from [Object.prototype]. *)
Definition Object_prototype : list string :=
  [ "constructor"; "__defineGetter__"; "__defineSetter__"; "hasOwnProperty";
    "__lookupGetter__"; "__lookupSetter__"; "isPrototypeOf";
    "propertyIsEnumerable"; "toString"; "valueOf"; "__proto__";
    "toLocaleString" ].

Definition inherited (key : string) : bool :=
  bool_decide (key ∈ Object_prototype).

Definition decimal (n : Z) : string := NilZero.string_of_int (Z.to_int n).

(** [value.toString()] for a value whose [typeof] is ['object'];
    [null.toString()] is a [TypeError].  Array elements are printed
    as [Array.prototype.join] prints them. *)
Fixpoint toString_elem (v : any) : string :=
  match v with
  | VUndefined | VNull => ""
  | VBool true => "true"
  | VBool false => "false"
  | VNum n | VBN n => decimal n
  | VStr s => s
  | VArr elems => String.concat "," (map toString_elem elems)
  | VObj _ => "[object Object]"
  | VInherited key =>
      if String.eqb key "__proto__" then "[object Object]"
      else "function " +:+
           (if String.eqb key "constructor" then "Object" else key) +:+
           "() { [native code] }"
  end.

Definition typeof_object (v : any) : bool :=
  match v with
  | VNull | VBN _ | VArr _ | VObj _ => true
  | VInherited key => String.eqb key "__proto__"
  | _ => false
  end.

Definition toString (v : any) : outcome string :=
  match v with
  | VNull | VUndefined => Err TypeError
  | _ => Ok (toString_elem v)
  end.

Section PropertyRead.
Context {A : Type}.
Variable found : any → A.
Variable missing : A.
Variable key : string.

(** Read an own property of an object literal and continue with
    [found]; [missing] when there is no such key. *)
Fixpoint lookup_with (props : list (string * any)) : A :=
  match props with
  | [] => missing
  | (k, v) :: rest => if String.eqb k key then found v else lookup_with rest
  end.
End PropertyRead.

(** [payload[key]] followed by [found] on an own property, by
    [inherit] on a member inherited from [Object.prototype], and by
    [missing] on [undefined]; reading a property of [null] or
    [undefined] is a [TypeError].  Reads on the other values (strings,
    numbers, arrays, [BN] instances, functions) go through prototypes
    of their own and are not modelled. *)
Definition read_with {A} (payload : any) (key : string)
    (found : any → outcome A) (inherit missing : outcome A) : outcome A :=
  match payload with
  | VUndefined | VNull => Err TypeError
  | VObj props =>
      lookup_with
        (λ v, match v with VUndefined => missing | _ => found v end)
        (if inherited key then inherit else missing) key props
  | _ => Err NotModelled
  end.

(** [payload[key]] as a value. *)
Definition get (payload : any) (key : string) : outcome any :=
  read_with payload key Ok (Ok (VInherited key)) (Ok VUndefined).

(** ** Arbitrary-precision integers ([bn.js]) and number printing *)

Module BN.
Local Open Scope Z_scope.

(** The number that big-endian bytes denote. *)
Definition of_bytes_N (bs : list byte) : N :=
  fold_left (λ acc b, acc * 256 + Byte.to_N b)%N bs 0%N.

(** [new BN(buffer)] *)
Definition of_bytes (bs : list byte) : Z := Z.of_N (of_bytes_N bs).

(** [notn(width)], for a number of at most [width] bits. *)
Definition notn (width : Z) (x : Z) : Z := Z.lxor x (Z.ones width).

(** [fromTwos(width)] *)
Definition fromTwos (width : Z) (x : Z) : Z :=
  if Z.testbit x (width - 1) then - (notn width x + 1) else x.

(** [toTwos(width)] *)
Definition toTwos (width : Z) (x : Z) : Z :=
  if x <? 0 then notn width (Z.abs x) + 1 else x.

(** Big-endian bytes of [n] in front of [acc]; [fuel] is at least
    the number of bytes. *)
Fixpoint bytes_loop (fuel : nat) (n : N) (acc : list byte) : list byte :=
  match fuel with
  | O => acc
  | S fuel' =>
      if (n =? 0)%N then acc
      else bytes_loop fuel' (n / 256)%N (byte_of_N (n mod 256)%N :: acc)
  end.

(** [toArray()]: the shortest big-endian form, one zero byte for [0]. *)
Definition toArray (x : Z) : list byte :=
  let n := Z.abs_N x in
  if (n =? 0)%N then [Byte.x00]
  else bytes_loop (N.to_nat (N.size n)) n [].

(** Hexadecimal digits of [n] in front of [acc]. *)
Fixpoint digits16_loop (fuel : nat) (n : N) (acc : string) : string :=
  match fuel with
  | O => acc
  | S fuel' =>
      if (n =? 0)%N then acc
      else digits16_loop fuel' (n / 16)%N (String (digit (n mod 16)%N) acc)
  end.

(** [Number.prototype.toString(16)] on an integer. *)
Definition toString16 (x : Z) : string :=
  let n := Z.abs_N x in
  let body := if (n =? 0)%N then "0"
              else digits16_loop (N.to_nat (N.size n)) n "" in
  if x <? 0 then "-" +:+ body else body.

End BN.

(** ** The signer *)

(** Interface of the complete payload required for signing.  A key
    of the object may be absent ([None]); [other_keys] are the own
    keys besides the four of the interface. *)
Record EIP712Payload := {
  types : option (list (string * EIP712Struct));
  primaryType : option string;
  message : option any;
  domain : option any;
  other_keys : list string
}.

Definition own_key {A} (field : option A) (key : string) : list string :=
  match field with
  | Some _ => [key]
  | None => []
  end.

(** [Object.keys(payload)] *)
Definition Object_keys (payload : EIP712Payload) : list string :=
  own_key payload.(types) "types" ++
  own_key payload.(primaryType) "primaryType" ++
  own_key payload.(message) "message" ++
  own_key payload.(domain) "domain" ++
  payload.(other_keys).

Record EIP712Signature := {
  hex : string;
  v : Z;
  s : string;
  r : string
}.

(** A raw private key or an external signer. *)
Inductive SignerKey :=
| PrivateKey (privateKey : string)
| ExternalSigner (signer : string → outcome EIP712Signature).

(** Byte32 zero value *)
Definition B32Z : string :=
  "0x0000000000000000000000000000000000000000000000000000000000000000".

(** The state of an instance: all its types, and its domain. *)
Record EIP712Signer := {
  structs : gmap string EIP712Struct;
  this_domain : any
}.

(** What [this.structs[name]] reads: a registered struct, a member
    inherited from [Object.prototype], or [undefined]. *)
Inductive member :=
| Undefined
| Struct (fields : EIP712Struct)
| Inherited.

Definition structs_read (this : EIP712Signer) (name : string) : member :=
  match this.(structs) !! name with
  | Some fields => Struct fields
  | None => if inherited name then Inherited else Undefined
  end.

(** [this.structs[name]] as a condition: every value but [undefined]
    is truthy. *)
Definition truthy (m : member) : bool :=
  match m with
  | Undefined => false
  | _ => true
  end.

(** *** Dependency resolution *)

Section Dependencies.

Variable this : EIP712Signer.

(** The [for (const field of this.structs[type])] loop of
    [_getDependenciesOf]; [visit] is the recursive call. *)
Fixpoint dependencies_loop
    (visit : string → gset string → option (outcome (list string * gset string)))
    (fields : list EIP712StructField) (result : list string) (met : gset string)
  : option (outcome (list string * gset string)) :=
  match fields with
  | [] => Some (Ok (result, met))
  | field :: rest =>
      match visit (ftype field) met with
      | None => None
      | Some (Err e) => Some (Err e)
      | Some (Ok (r, met')) => dependencies_loop visit rest (result ++ r) met'
      end
  end.

(** [_getDependenciesOf(type, met)].  The code mutates [met] in
    place and shares it between the recursive calls, so the model
    returns the final [met] next to the result.  [fuel] bounds the
    recursion depth; [None] is "out of fuel".  A name inherited from
    [Object.prototype] is not [undefined]: it is pushed, and the
    [for...of] over the function it names is a [TypeError]. *)
Fixpoint getDependenciesOf_fuel (fuel : nat) (type : string) (met : gset string)
  : option (outcome (list string * gset string)) :=
  match fuel with
  | O => None
  | S fuel' =>
      if ends_by_brackets type then
        getDependenciesOf_fuel fuel' (extract_type type) met
      (* If type already found or is not a struct type, stop *)
      else if bool_decide (type ∈ met) then Some (Ok ([], met))
      else match structs_read this type with
           | Undefined => Some (Ok ([], met))
           | Struct fields =>
               dependencies_loop (getDependenciesOf_fuel fuel')
                                 fields [type] ({[type]} ∪ met)
           | Inherited => Some (Err TypeError)
           end
  end.

(** Longest declared field type of the registry. *)
Definition max_type_length : nat :=
  max_list (flat_map (λ kv : string * EIP712Struct,
                        map (λ f, String.length (ftype f)) kv.2)
                     (map_to_list this.(structs))).

(** Registered names not yet in [met]. *)
Definition unmet (met : gset string) : nat := size (dom this.(structs) ∖ met).

(** Fuel that always suffices: every descent into a struct adds a
    name to [met], every other step shortens the type string. *)
Definition dependencies_fuel (type : string) (met : gset string) : nat :=
  S (String.length type + unmet met * (max_type_length + 2)).

(** [_getDependenciesOf(type, met)] with the final state of [met]. *)
Definition getDependenciesOf_met (type : string) (met : gset string)
  : outcome (list string * gset string) :=
  default (Ok ([], met))
    (getDependenciesOf_fuel (dependencies_fuel type met) type met).

(** [_getDependenciesOf(type)], [met] defaulting to [{}]. *)
Definition _getDependenciesOf (type : string) : outcome (list string) :=
  out ← getDependenciesOf_met type ∅; Ok out.1.

End Dependencies.

(** The name the walk stops at: [[]] suffixes (and the one character
    of a one-character type) stripped for as long as the test of the
    source says so. *)
Fixpoint strip_all (fuel : nat) (type : string) : string :=
  match fuel with
  | O => type
  | S fuel' =>
      if ends_by_brackets type then strip_all fuel' (extract_type type) else type
  end.

Definition element_type (type : string) : string :=
  strip_all (String.length type) type.

(** Does [type] resolve to a member name of [Object.prototype] that
    no schema registers? *)
Definition resolves_inherited (this : EIP712Signer) (type : string) : bool :=
  match structs_read this (element_type type) with
  | Inherited => true
  | _ => false
  end.

(** No field of a registered struct has such a type. *)
Definition inherited_free (this : EIP712Signer) : bool :=
  forallb (λ kv : string * EIP712Struct,
             forallb (λ field, negb (resolves_inherited this (ftype field))) kv.2)
          (map_to_list this.(structs)).


(** *** Type signature, data encoding, validation, signing *)

Section Signer.

Variable this : EIP712Signer.

(** Capabilities of the environment: the keccak-256 hash on bytes,
    the ABI coder (which may reject its input), the elliptic-curve
    signer for a private key and a digest, giving [(r, s, v)] with
    [r] and [s] as data hex strings, and public-key recovery. *)
Variable keccak : list byte → list byte.
Variable abi_encode : list string → list any → outcome (list byte).
Variable signDigest : string → list byte → outcome (string * string * Z).
Variable recoverAddress : list byte → string → outcome string.

(** [utils.keccak256] on a [Buffer]. *)
Definition keccak256 (data : list byte) : string := hexlify (keccak data).

(** The library's reading of a hex string: the prefix [0x], then
    hex digits, an odd number of them padded with a [0] in front;
    anything else is rejected. *)
Definition arrayify (data : string) : outcome (list byte) :=
  match data with
  | String "0" (String "x" digits) =>
      if is_hex_digits digits then
        Ok (from_hex (if Nat.odd (String.length digits)
                      then String "0" digits else digits))
      else Err CapabilityError
  | _ => Err CapabilityError
  end.

(** [utils.keccak256] on a data hex string. *)
Definition keccak256_hex (data : string) : outcome string :=
  bytes ← arrayify data; Ok (keccak256 bytes).

(** [utils.keccak256(value)] on a message value: a hex string is
    read by [arrayify], [undefined], [null], booleans and numbers are
    rejected; the array-like and object forms are not modelled. *)
Definition keccak256_any (value : any) : outcome string :=
  match value with
  | VStr data => keccak256_hex data
  | VUndefined | VNull | VBool _ | VNum _ => Err CapabilityError
  | _ => Err NotModelled
  end.

(** [Buffer.from(value, 'utf8')] on a message value: a string gives
    its bytes, [undefined], [null], booleans and numbers are a
    [TypeError]; the array-like and object forms are not modelled. *)
Definition buffer_of_utf8 (value : any) : outcome (list byte) :=
  match value with
  | VStr str => Ok (utf8 str)
  | VUndefined | VNull | VBool _ | VNum _ => Err TypeError
  | _ => Err NotModelled
  end.

(** [new utils.AbiCoder().encode(types, values)] *)
Definition abie_encode (types : list string) (values : list any) : outcome string :=
  bytes ← abi_encode types values; Ok (hexlify bytes).

(** One block [t(<type> <name>,...)] of a type signature. *)
Definition type_block (t : string) (fields : EIP712Struct) : string :=
  t +:+ "(" +:+
  String.concat "," (map (λ struct, ftype struct +:+ " " +:+ fname struct) fields)
  +:+ ")".

(** The [for (const t of dependencies)] loop of [_encodeType];
    [this.structs[t].map] is a [TypeError] when [this.structs[t]] is
    [undefined] or an inherited member, which has no [map]. *)
Fixpoint encodeType_loop (dependencies : list string) (result : string)
  : outcome string :=
  match dependencies with
  | [] => Ok result
  | t :: rest =>
      match structs_read this t with
      | Struct fields => encodeType_loop rest (result +:+ type_block t fields)
      | _ => Err TypeError
      end
  end.

Definition _encodeType (type : string) : outcome string :=
  found ← _getDependenciesOf this type;
  let dependencies :=
    merge_sort String.le (filter (λ dep, dep ≠ type) found) in
  let dependencies := type :: dependencies in
  encodeType_loop dependencies "".

Definition _hashType (type : string) : outcome string :=
  signature ← _encodeType type; Ok (keccak256 (utf8 signature)).

(** [_encodeData] and [_hashData], with the field encoder they call
    back into as a parameter. *)
Section EncodeData.

(** The field encoder on an own property of the record, and on the
    member [key] of [Object.prototype], by field type and key. *)
Variable encodeField : string → any → outcome (string * any).
Variable encodeMember : string → string → outcome (string * any).
Variable name : string.
Variable payload : any.

(** The [for (const field of this.structs[name])] loop. *)
Fixpoint encodeData_loop (fields : list EIP712StructField)
    (encodedTypes : list string) (encodedData : list any)
  : outcome (list string * list any) :=
  match fields with
  | [] => Ok (encodedTypes, encodedData)
  | field :: rest =>
      field_res ← read_with payload (fname field)
                    (encodeField (ftype field))
                    (encodeMember (ftype field) (fname field))
                    (Err (MissingField name (fname field)));
      encodeData_loop rest (encodedTypes ++ [field_res.1])
                           (encodedData ++ [field_res.2])
  end.

Definition encodeData_with : outcome string :=
  hashType ← _hashType name;
  match structs_read this name with
  | Struct fields =>
      encoded ← encodeData_loop fields ["bytes32"] [VStr hashType];
      abie_encode encoded.1 encoded.2
  | _ => Err TypeError
  end.

Definition hashData_with : outcome string :=
  encoded ← encodeData_with; keccak256_hex encoded.

End EncodeData.

(** The body of [_encodeDataTypeField], with its recursive calls as
    parameters. *)
Definition encodeField_body
    (encodeField : string → any → outcome (string * any))
    (encodeMember : string → string → outcome (string * any))
    (type : string) (value : any) : outcome (string * any) :=
  (* If it's a structure type *)
  if truthy (structs_read this type) then
    match value with
    | VNull => Ok ("bytes32", VStr B32Z)
    | _ => hash ← hashData_with encodeField encodeMember type value;
           Ok ("bytes32", VStr hash)
    end
  else if String.eqb type "bytes" then
    hash ← keccak256_any value; Ok ("bytes32", VStr hash)
  else if String.eqb type "string" then
    bytes ← buffer_of_utf8 value; Ok ("bytes32", VStr (keccak256 bytes))
  else
    value' ← (if String.eqb type "uint256" && typeof_object value
              then str ← toString value; Ok (VStr str)
              else Ok value);
    (* If ends by [], it's an array.  The type is not 'uint256' in
       this branch, so [value.map] is on the value as it arrived. *)
    if ends_by_brackets type then
      let extracted_type := extract_type type in
      match value with
      | VArr elems =>
          encoded_array ← mapM (encodeField extracted_type) elems;
          encoded ← abie_encode (map fst encoded_array) (map snd encoded_array);
          hash ← keccak256_hex encoded;
          Ok ("bytes32", VStr hash)
      | _ => Err TypeError
      end
    else Ok (type, value').

(** [_encodeDataTypeField] on a member of [Object.prototype]: such a
    value has no fields of its own in the model, so the encoder does
    not call back into itself. *)
Definition encodeInherited (type key : string) : outcome (string * any) :=
  encodeField_body (λ _ _, Err NotModelled) (λ _ _, Err NotModelled)
                   type (VInherited key).

Fixpoint _encodeDataTypeField (type : string) (value : any) {struct value}
  : outcome (string * any) :=
  encodeField_body _encodeDataTypeField encodeInherited type value.

Definition _encodeData (name : string) (payload : any) : outcome string :=
  encodeData_with _encodeDataTypeField encodeInherited name payload.

Definition _hashData (type : string) (data : any) : outcome string :=
  hashData_with _encodeDataTypeField encodeInherited type data.

(** *** Payload validation *)

(** Required for checks *)
Definition REQUIRED_FIELDS : list string :=
  ["domain"; "types"; "message"; "primaryType"].

(** [payload.types[type]] *)
Fixpoint types_get (payload_types : list (string * EIP712Struct)) (type : string)
  : option EIP712Struct :=
  match payload_types with
  | [] => None
  | (k, struct) :: rest =>
      if String.eqb k type then Some struct else types_get rest type
  end.

(** [registered.findIndex(eq_field => eq_field.name === name)], as
    the field found ([None] for [-1]). *)
Fixpoint find_field (registered : EIP712Struct) (name : string)
  : option EIP712StructField :=
  match registered with
  | [] => None
  | eq_field :: rest =>
      if String.eqb (fname eq_field) name then Some eq_field
      else find_field rest name
  end.

(** The [for (const field of current_type)] loop of [_verifyTypes]. *)
Fixpoint verifyFields (type : string) (registered_current_type : EIP712Struct)
    (current_type : EIP712Struct) : outcome unit :=
  match current_type with
  | [] => Ok ()
  | field :: rest =>
      match find_field registered_current_type (fname field) with
      | None => Err (FieldMismatch_unknown type (fname field))
      | Some eq_field =>
          if negb (String.eqb (ftype field) (ftype eq_field))
          then Err (FieldMismatch_type type (ftype field) (ftype eq_field))
          else verifyFields type registered_current_type rest
      end
  end.

(** The [for (const type of Object.keys(payload.types))] loop. *)
Fixpoint verifyTypes_loop (payload_types : list (string * EIP712Struct))
    (keys : list string) : outcome unit :=
  match keys with
  | [] => Ok ()
  | type :: rest =>
      match structs_read this type with
      | Undefined => Err (UnknownType type)
      | Struct registered_current_type =>
          match types_get payload_types type with
          | None => Err TypeError
          | Some current_type =>
              _ ← verifyFields type registered_current_type current_type;
              verifyTypes_loop payload_types rest
          end
      | Inherited =>
          (* an inherited member has no [findIndex] *)
          match types_get payload_types type with
          | Some [] => verifyTypes_loop payload_types rest
          | _ => Err TypeError
          end
      end
  end.

(** The keys of [required_types]. *)
Definition required_types (primary_type_dependencies : list string) : gset string :=
  fold_left (λ required dep, required ∪ {[dep]})
            primary_type_dependencies {["EIP712Domain"]}.

Definition _verifyTypes (payload : EIP712Payload) : outcome unit :=
  match payload.(primaryType), payload.(types) with
  | Some primary, Some payload_types =>
      primary_type_dependencies ← _getDependenciesOf this primary;
      let required := required_types primary_type_dependencies in
      if negb (Nat.eqb (length (map fst payload_types)) (size required))
      then Err TypeCountMismatch
      else verifyTypes_loop payload_types (map fst payload_types)
  | _, _ => Err TypeError
  end.

Fixpoint verifyDomain_loop (payload_domain : any) (fields : EIP712Struct)
  : outcome unit :=
  match fields with
  | [] => Ok ()
  | field :: rest =>
      value ← get payload_domain (fname field);
      match value with
      | VUndefined => Err (MissingDomainField (fname field))
      | _ => verifyDomain_loop payload_domain rest
      end
  end.

Definition _verifyDomain (payload : EIP712Payload) : outcome unit :=
  match this.(structs) !! "EIP712Domain" with
  | None => Err TypeError
  | Some fields => verifyDomain_loop (default VUndefined payload.(domain)) fields
  end.

(** An absent [primaryType] reads as [undefined], the key
    ['undefined'] of [this.structs]. *)
Definition _verifyPrimaryType (payload : EIP712Payload) : outcome unit :=
  let primary := default "undefined" payload.(primaryType) in
  if truthy (structs_read this primary) then Ok ()
  else Err (UnknownPrimaryType primary).

Fixpoint verifyRequired (keys : list string) (required : list string)
  : outcome unit :=
  match required with
  | [] => Ok ()
  | req :: rest =>
      if negb (bool_decide (req ∈ keys)) then Err (InvalidPayloadShape_missing req)
      else verifyRequired keys rest
  end.

Definition _verifyMainPayloadField (payload : EIP712Payload) : outcome unit :=
  if negb (Nat.eqb (length (Object_keys payload)) (length REQUIRED_FIELDS))
  then Err InvalidPayloadShape_count
  else verifyRequired (Object_keys payload) REQUIRED_FIELDS.

(** *** Public interface *)

Definition encode (payload : EIP712Payload) (verify : bool) : outcome string :=
  _ ← _verifyMainPayloadField payload;
  _ ← (if verify then
         _ ← _verifyTypes payload;
         _ ← _verifyDomain payload;
         _verifyPrimaryType payload
       else Ok ());
  (* Magic Number *)
  let result := [from_hex "1901"] in
  domain_hash ← _hashData "EIP712Domain" (default VUndefined payload.(domain));
  let result := result ++ [buffer_of_hex domain_hash] in
  match payload.(primaryType) with
  | None => Err TypeError
  | Some primary =>
      result ← (if negb (String.eqb primary "EIP712Domain") then
                  message_hash ← _hashData primary (default VUndefined payload.(message));
                  Ok (result ++ [buffer_of_hex message_hash])
                else Ok result);
      Ok ("0x" +:+ to_hex (concat result))
  end.

Definition verifyPayload (payload : EIP712Payload) : outcome unit :=
  _ ← _verifyMainPayloadField payload;
  _ ← _verifyTypes payload;
  _ ← _verifyDomain payload;
  _ ← _verifyPrimaryType payload;
  _ ← encode payload false;
  Ok ().

(** Interprets a data hex string as a signed 256-bit integer. *)
Definition _fromSigned (num : string) : Z :=
  BN.fromTwos 256 (BN.of_bytes (buffer_of_hex num)).

(** Converts a number to its unsigned 256-bit form, as bytes. *)
Definition _toUnsigned (num : Z) : list byte :=
  BN.toArray (BN.toTwos 256 num).

Fixpoint padWithZeroes_loop (missing : nat) (myString : string) : string :=
  match missing with
  | O => myString
  | S missing' => padWithZeroes_loop missing' (String "0" myString)
  end.

(** The [while (myString.length < length)] loop runs
    [length - toPad.length] times. *)
Definition _padWithZeroes (toPad : string) (length : nat) : string :=
  padWithZeroes_loop (length - String.length toPad) toPad.

Definition sign (privateKey : SignerKey) (payload : EIP712Payload) (verify : bool)
  : outcome EIP712Signature :=
  encoded_payload ← encode payload verify;
  match privateKey with
  | PrivateKey sk =>
      let hashed_payload := keccak256 (buffer_of_hex encoded_payload) in
      signature ← signDigest sk (buffer_of_hex hashed_payload);
      let rSig := _fromSigned signature.1.1 in
      let sSig := _fromSigned signature.1.2 in
      let vSig := signature.2 in
      let rStr := _padWithZeroes (to_hex (_toUnsigned rSig)) 64 in
      let sStr := _padWithZeroes (to_hex (_toUnsigned sSig)) 64 in
      let vStr := BN.toString16 vSig in
      Ok {| hex := "0x" +:+ rStr +:+ sStr +:+ vStr;
            v := vSig; r := rStr; s := sStr |}
  | ExternalSigner signer => signer encoded_payload
  end.

Definition verify (payload : EIP712Payload) (signature : string) (verify : bool)
  : outcome string :=
  encoded_payload ← encode payload verify;
  let hashed_payload := keccak256 (buffer_of_hex encoded_payload) in
  recoverAddress (buffer_of_hex hashed_payload) signature.

End Signer.

(** *** Construction *)

Definition _addType (name : string) (struct : EIP712Struct) (this : EIP712Signer)
  : outcome EIP712Signer :=
  match structs_read this name with
  | Undefined => Ok {| structs := <[name := struct]> this.(structs);
                       this_domain := this.(this_domain) |}
  | _ => Err (DuplicateType name)
  end.

Definition _setDomain (domain : any) (this : EIP712Signer) : EIP712Signer :=
  {| structs := this.(structs); this_domain := domain |}.

(** The field initialisers of the class. *)
Definition initial : EIP712Signer :=
  {| structs := {[ "EIP712Domain" := EIP712DomainType ]};
     this_domain := VObj [("name", VNull); ("version", VNull);
                          ("verifyingContract", VNull); ("chainId", VNull)] |}.

Fixpoint addTypes (types : list (string * EIP712Struct)) (this : EIP712Signer)
  : outcome EIP712Signer :=
  match types with
  | [] => Ok this
  | type :: rest => this' ← _addType type.1 type.2 this; addTypes rest this'
  end.

Definition constructor (domain : any) (types : list (string * EIP712Struct))
  : outcome EIP712Signer :=
  addTypes types (_setDomain domain initial).

(** [types[key] = struct] on an object literal: a new key goes last,
    a present key keeps its place. *)
Fixpoint types_set (key : string) (struct : EIP712Struct)
    (types : list (string * EIP712Struct)) : list (string * EIP712Struct) :=
  match types with
  | [] => [(key, struct)]
  | (k, old) :: rest =>
      if String.eqb k key then (k, struct) :: rest
      else (k, old) :: types_set key struct rest
  end.

(** Helper that generates a complete payload, ready for signature. *)
Definition generatePayload (this : EIP712Signer) (data : any) (primaryType : string)
  : outcome EIP712Payload :=
  dependencies ← _getDependenciesOf this primaryType;
  let types :=
    fold_left (λ types dep, types_set dep (default [] (this.(structs) !! dep)) types)
              dependencies [] in
  let types :=
    types_set "EIP712Domain" (default [] (this.(structs) !! "EIP712Domain")) types in
  Ok {| domain := Some this.(this_domain);
        primaryType := Some primaryType;
        types := Some types;
        message := Some data;
        other_keys := [] |}.

(** ** Fixtures

    The registry of the repository's tests ([EtherMail]), a registry
    with self-referential and mutually recursive types, and stand-ins
    for the capabilities, to run the definitions on concrete inputs. *)

Module Fixture.

Definition UselessType : EIP712Struct := [Field "useless" "bool"].

Definition Person : EIP712Struct :=
  [ Field "name" "string"; Field "wallet" "address";
    Field "usernames" "bytes32[]"; Field "points" "bytes";
    Field "useless_one" "UselessType"; Field "useless_two" "UselessType";
    Field "integer_value" "uint256" ].

Definition Mail : EIP712Struct :=
  [ Field "from" "Person"; Field "to" "Person"; Field "contents" "string" ].

Definition domain : any :=
  VObj [ ("name", VStr "Ether Mail"); ("version", VStr "1");
         ("chainId", VNum 1);
         ("verifyingContract", VStr "0xe4937b3fead67f09f5f15b0a1991a588f7be54ca") ].

Definition types : list (string * EIP712Struct) :=
  [ ("Mail", Mail); ("Person", Person); ("UselessType", UselessType) ].

(** [new EtherMail()] *)
Definition EtherMail : EIP712Signer :=
  {| structs := <["UselessType" := UselessType]>
                  (<["Person" := Person]>
                     (<["Mail" := Mail]> initial.(structs)));
     this_domain := domain |}.

(** [Node] refers to itself and, through an array, to [Edge], which
    refers back to [Node]. *)
Definition Node : EIP712Struct :=
  [ Field "next" "Node"; Field "edges" "Edge[][]"; Field "weight" "uint256" ].
Definition Edge : EIP712Struct := [ Field "target" "Node" ].

Definition Cyclic : EIP712Signer :=
  {| structs := <["Edge" := Edge]> (<["Node" := Node]> initial.(structs));
     this_domain := domain |}.

(** A struct with a field whose type is a member name of
    [Object.prototype]. *)
Definition Holder : EIP712Signer :=
  {| structs := <["Holder" := [Field "f" "toString"]]> initial.(structs);
     this_domain := domain |}.

(** Stand-ins for the capabilities: a 32-byte "hash" that keeps the
    length of its input in its last byte, and a "coder" that lays
    out the type names. *)
Definition keccak (data : list byte) : list byte :=
  repeat Byte.x01 31 ++ [byte_of_N (N.of_nat (length data) mod 256)].

Definition abi_encode (types : list string) (values : list any)
  : outcome (list byte) :=
  Ok (flat_map utf8 types).

Definition signDigest (privateKey : string) (digest : list byte)
  : outcome (string * string * Z) :=
  Ok (hexlify (repeat Byte.x00 31 ++ [Byte.x2a]), hexlify digest, 27%Z).

Definition recoverAddress (digest : list byte) (signature : string)
  : outcome string :=
  Ok (hexlify (firstn 20 digest)).

End Fixture.

(** ** Properties of the string primitives *)

Module JsStringFacts.

Lemma drop_length k s : String.length (drop k s) = String.length s - k.
Proof.
  revert s. induction k as [|k IH]; intros [|c s]; simpl; auto with lia.
Qed.

Lemma take_length k s : String.length (take k s) = min k (String.length s).
Proof.
  revert s. induction k as [|k IH]; intros [|c s]; simpl; auto with lia.
Qed.

Lemma string_length_app (a b : string) :
  String.length (a +:+ b) = String.length a + String.length b.
Proof. induction a; simpl; auto with lia. Qed.

Lemma drop_app_length (a b : string) : drop (String.length a) (a +:+ b) = b.
Proof. induction a; simpl; auto. Qed.

Lemma take_app_length (a b : string) : take (String.length a) (a +:+ b) = a.
Proof. induction a; simpl; [by destruct b | congruence]. Qed.

Lemma lastIndexOf_down_le needle s k :
  (-1 ≤ lastIndexOf_down needle s k ≤ Z.of_nat k)%Z.
Proof.
  induction k as [|k IH]; cbn [lastIndexOf_down];
    destruct (String.prefix _ _); lia.
Qed.

(** The scan stops at [k] exactly when the needle is found there. *)
Lemma lastIndexOf_down_eq needle s k :
  lastIndexOf_down needle s k = Z.of_nat k ↔
  String.prefix needle (drop k s) = true.
Proof.
  destruct k as [|k]; cbn [lastIndexOf_down].
  - destruct (String.prefix _ _); split; (done || lia).
  - destruct (String.prefix needle (drop (S k) s)) eqn:E; [done|].
    pose proof (lastIndexOf_down_le needle s k). split; (done || lia).
Qed.

(** What the test [type.lastIndexOf('[]') === type.length - 2]
    accepts: a type ending by [[]], and also any one-character
    type, for which both sides are [-1]. *)
Lemma ends_by_brackets_spec type :
  ends_by_brackets type = true ↔
  String.length type = 1 ∨
  (2 ≤ String.length type ∧
   String.prefix "[]" (drop (String.length type - 2) type) = true).
Proof.
  unfold ends_by_brackets, lastIndexOf. simpl String.length.
  destruct (Nat.ltb_spec (String.length type) 2) as [Hlt|Hge].
  - rewrite Z.eqb_eq. split; [|intros [?|[? _]]]; lia.
  - rewrite Z.eqb_eq.
    replace (Z.of_nat (String.length type) - 2)%Z
      with (Z.of_nat (String.length type - 2)) by lia.
    rewrite lastIndexOf_down_eq. split; [auto|intros [?|[_ ?]]]; (done || lia).
Qed.

Lemma ends_by_brackets_app type : ends_by_brackets (type +:+ "[]") = true.
Proof.
  apply ends_by_brackets_spec. right. rewrite string_length_app. simpl. split; [lia|].
  replace (String.length type + 2 - 2) with (String.length type) by lia.
  by rewrite drop_app_length.
Qed.

Lemma lastIndexOf_brackets type :
  ends_by_brackets type = true →
  lastIndexOf type "[]" = (Z.of_nat (String.length type) - 2)%Z.
Proof. unfold ends_by_brackets. by rewrite Z.eqb_eq. Qed.

(** Stripping removes the last two characters (the only one of a
    one-character type). *)
Lemma extract_type_take type :
  ends_by_brackets type = true →
  extract_type type = take (String.length type - 2) type.
Proof.
  intros H. unfold extract_type. rewrite (lastIndexOf_brackets _ H).
  unfold slice0. f_equal.
  destruct (Z.ltb_spec (Z.of_nat (String.length type) - 2) 0); lia.
Qed.

Lemma extract_type_app type : extract_type (type +:+ "[]") = type.
Proof.
  rewrite extract_type_take by apply ends_by_brackets_app.
  rewrite string_length_app. simpl.
  replace (String.length type + 2 - 2) with (String.length type) by lia.
  apply take_app_length.
Qed.

Lemma extract_type_shorter type :
  ends_by_brackets type = true →
  String.length (extract_type type) < String.length type.
Proof.
  intros H. rewrite (extract_type_take _ H), take_length.
  apply ends_by_brackets_spec in H. lia.
Qed.

End JsStringFacts.
Import JsStringFacts.

Lemma strip_all_enough (fuel1 fuel2 : nat) (type : string) :
  String.length type ≤ fuel1 → String.length type ≤ fuel2 →
  strip_all fuel1 type = strip_all fuel2 type.
Proof.
  revert fuel2 type. induction fuel1 as [|fuel1 IH]; intros fuel2 type H1 H2.
  - destruct type; [|cbn in H1; lia]. by destruct fuel2.
  - cbn [strip_all]. destruct (ends_by_brackets type) eqn:Harr.
    + pose proof (extract_type_shorter _ Harr).
      destruct fuel2 as [|fuel2]; [lia|]. cbn [strip_all]. rewrite Harr.
      apply IH; lia.
    + destruct fuel2; cbn [strip_all]; by rewrite ?Harr.
Qed.

Lemma element_type_unfold (type : string) :
  element_type type
  = if ends_by_brackets type then element_type (extract_type type) else type.
Proof.
  unfold element_type. destruct (ends_by_brackets type) eqn:Harr.
  - pose proof (extract_type_shorter _ Harr).
    destruct (String.length type) as [|n] eqn:Hlen; [lia|].
    cbn [strip_all]. rewrite Harr. apply strip_all_enough; lia.
  - destruct (String.length type); cbn [strip_all]; by rewrite ?Harr.
Qed.


(** ** Reading the registry *)

Section RegistryFacts.

Variable this : EIP712Signer.

Lemma structs_read_Struct name fields :
  structs_read this name = Struct fields ↔ this.(structs) !! name = Some fields.
Proof.
  unfold structs_read. destruct (this.(structs) !! name) as [fields'|].
  - split; intros [= ->]; done.
  - destruct (inherited name); split; done.
Qed.

Lemma structs_read_Undefined name :
  structs_read this name = Undefined ↔
  this.(structs) !! name = None ∧ inherited name = false.
Proof.
  unfold structs_read. destruct (this.(structs) !! name) as [fields'|].
  - split; [done|]. by intros [? _].
  - destruct (inherited name); split; try done. by intros [_ ?].
Qed.

Lemma structs_read_Inherited name :
  structs_read this name = Inherited ↔
  this.(structs) !! name = None ∧ inherited name = true.
Proof.
  unfold structs_read. destruct (this.(structs) !! name) as [fields'|].
  - split; [done|]. by intros [? _].
  - destruct (inherited name); split; try done. by intros [_ ?].
Qed.

Lemma truthy_Struct name :
  is_Some (this.(structs) !! name) → truthy (structs_read this name) = true.
Proof. intros [fields Hs]. apply structs_read_Struct in Hs. by rewrite Hs. Qed.

Lemma truthy_false name :
  truthy (structs_read this name) = false ↔
  this.(structs) !! name = None ∧ inherited name = false.
Proof.
  rewrite <- structs_read_Undefined.
  destruct (structs_read this name); split; done.
Qed.

End RegistryFacts.

(** No member name of [Object.prototype] is one character long or
    ends with brackets. *)
Lemma inherited_brackets (name : string) :
  inherited name = true → ends_by_brackets name = false.
Proof.
  unfold inherited, Object_prototype. intros H%bool_decide_eq_true.
  repeat (apply elem_of_cons in H as [->|H]; [vm_compute; reflexivity|]).
  by apply elem_of_nil in H.
Qed.

(** ** Dependency resolution: termination and shape of the result *)

Section DependenciesFacts.

Variable this : EIP712Signer.

Local Abbreviation visit := (getDependenciesOf_fuel this).

Lemma unmet_mono (met met' : gset string) :
  met ⊆ met' → unmet this met' ≤ unmet this met.
Proof. intros H. apply subseteq_size. set_solver. Qed.

Lemma unmet_insert type (met : gset string) :
  type ∉ met → is_Some (this.(structs) !! type) →
  unmet this ({[type]} ∪ met) < unmet this met.
Proof.
  intros Hm Hs. apply subset_size. apply elem_of_dom in Hs. set_solver.
Qed.

Lemma ftype_length_le type fields field :
  this.(structs) !! type = Some fields → field ∈ fields →
  String.length (ftype field) ≤ max_type_length this.
Proof.
  intros Hs Hf. apply max_list_elem_of_le, list_elem_of_In, in_flat_map.
  exists (type, fields). split.
  - by apply list_elem_of_In, elem_of_map_to_list.
  - apply in_map_iff. exists field. split; [done|]. by apply list_elem_of_In.
Qed.

(** What one visit yields when it returns: fresh registered names,
    each once, all added to [met]. *)
Definition visit_post (met : gset string) (out : list string * gset string) : Prop :=
  NoDup out.1 ∧
  (∀ x, x ∈ out.1 → x ∉ met ∧ is_Some (this.(structs) !! x)) ∧
  out.2 = met ∪ list_to_set out.1.

Lemma dependencies_loop_post fuel fields :
  (∀ type met out, visit fuel type met = Some (Ok out) → visit_post met out) →
  ∀ result met0 met out,
    dependencies_loop (visit fuel) fields result met = Some (Ok out) →
    NoDup result → (∀ x, x ∈ result → x ∉ met0 ∧ is_Some (this.(structs) !! x)) →
    met = met0 ∪ list_to_set result →
    visit_post met0 out.
Proof.
  intros IH. induction fields as [|field rest IHf]; intros result met0 met out; simpl.
  - intros [= <-] ? ? ->. done.
  - destruct (visit fuel (ftype field) met) as [[[r met']|e]|] eqn:E; [|done|done].
    intros Hloop Hnd Hres ->. apply IH in E as (Hnd' & Hr & Hmet'). simpl in *.
    apply (IHf _ _ _ _ Hloop).
    + apply NoDup_app. split_and!; [done| |done].
      intros x Hx Hx'. apply Hr in Hx' as [Hx' _]. set_solver.
    + intros x [Hx|Hx]%elem_of_app; [by apply Hres|].
      apply Hr in Hx as [Hx ?]. set_solver.
    + rewrite Hmet', list_to_set_app_L. set_solver.
Qed.

Lemma getDependenciesOf_fuel_post fuel type met out :
  visit fuel type met = Some (Ok out) → visit_post met out.
Proof.
  revert type met out. induction fuel as [|fuel IH]; intros type met out; [done|].
  cbn [getDependenciesOf_fuel]. destruct (ends_by_brackets type); [apply IH|].
  case_bool_decide as Hmet.
  { intros [= <-]. split_and!; simpl; [constructor|set_solver|set_solver]. }
  destruct (structs_read this type) as [|fields|] eqn:Hs; [|intros Hloop|done].
  { intros [= <-]. split_and!; simpl; [constructor|set_solver|set_solver]. }
  apply structs_read_Struct in Hs.
  eapply (dependencies_loop_post fuel fields IH) in Hloop; [done| | |].
  - apply NoDup_singleton.
  - intros x Hx. apply list_elem_of_singleton in Hx. subst x.
    split; [done|]. by rewrite Hs.
  - set_solver.
Qed.

(** The only exception of the walk is the [TypeError] of iterating
    over an inherited member. *)
Lemma getDependenciesOf_fuel_Err fuel type met e :
  visit fuel type met = Some (Err e) → e = TypeError.
Proof.
  revert type met. induction fuel as [|fuel IH]; intros type met; [done|].
  cbn [getDependenciesOf_fuel]. destruct (ends_by_brackets type); [apply IH|].
  case_bool_decide as Hmet; [done|].
  destruct (structs_read this type) as [|fields|]; [done| |by intros [= <-]].
  generalize [type] ({[type]} ∪ met).
  induction fields as [|field rest IHf]; intros result met1; [done|].
  cbn [dependencies_loop].
  destruct (visit fuel (ftype field) met1) as [[[r met']|e']|] eqn:E; [|by intros [= <-]; eapply IH|done].
  apply IHf.
Qed.

(** More fuel does not change a result. *)
Lemma getDependenciesOf_fuel_S fuel type met out :
  visit fuel type met = Some out → visit (S fuel) type met = Some out.
Proof.
  revert type met out. induction fuel as [|fuel IH]; intros type met out; [done|].
  intros H. cbn [getDependenciesOf_fuel] in *.
  destruct (ends_by_brackets type); [by apply IH|].
  case_bool_decide; [done|].
  destruct (structs_read this type) as [|fields|]; [done| |done].
  revert H. generalize [type] ({[type]} ∪ met).
  induction fields as [|field rest IHf]; intros result met1; [done|].
  cbn [dependencies_loop].
  destruct (visit fuel (ftype field) met1) as [[[r met']|e]|] eqn:E; [| |done].
  - rewrite (IH _ _ _ E). apply IHf.
  - by rewrite (IH _ _ _ E).
Qed.

Lemma getDependenciesOf_fuel_mono fuel fuel' type met out :
  fuel ≤ fuel' → visit fuel type met = Some out → visit fuel' type met = Some out.
Proof.
  induction 1 as [|fuel' _ IH]; [done|].
  intros H. by apply getDependenciesOf_fuel_S, IH.
Qed.

(** The fuel of [dependencies_fuel] is enough: the walk terminates. *)
Lemma getDependenciesOf_fuel_enough fuel type met :
  dependencies_fuel this type met ≤ fuel → is_Some (visit fuel type met).
Proof.
  unfold dependencies_fuel. revert type met.
  induction fuel as [|fuel IH]; intros type met Hfuel; [lia|].
  cbn [getDependenciesOf_fuel].
  destruct (ends_by_brackets type) eqn:Harr.
  { apply IH. apply extract_type_shorter in Harr. lia. }
  case_bool_decide as Hmet; [done|].
  destruct (structs_read this type) as [|fields|] eqn:Hs; [done| |done].
  apply structs_read_Struct in Hs.
  pose proof (unmet_insert type met Hmet (mk_is_Some _ _ Hs)) as Hlt.
  assert (Hsub : ∀ field, field ∈ fields →
            String.length (ftype field) ≤ max_type_length this)
    by (intros; by eapply ftype_length_le).
  clear Hs. revert Hlt Hsub. generalize [type] ({[type]} ∪ met).
  induction fields as [|field rest IHf]; intros result met1 Hlt Hsub; [done|].
  cbn [dependencies_loop].
  destruct (IH (ftype field) met1) as [[[r met']|e] E].
  { specialize (Hsub field (list_elem_of_here _ _)). nia. }
  2:{ by rewrite E. }
  rewrite E. apply IHf.
  - apply getDependenciesOf_fuel_post in E as (_ & _ & E). simpl in E.
    assert (unmet this met' ≤ unmet this met1) by (apply unmet_mono; set_solver).
    lia.
  - intros f Hf. apply Hsub. by right.
Qed.

(** [_getDependenciesOf] is the result of the walk, for any fuel
    that is enough. *)
Lemma getDependenciesOf_met_fuel fuel type met :
  dependencies_fuel this type met ≤ fuel →
  visit fuel type met = Some (getDependenciesOf_met this type met).
Proof.
  intros Hfuel. unfold getDependenciesOf_met.
  destruct (getDependenciesOf_fuel_enough _ type met (Nat.le_refl _)) as [out E].
  rewrite E. simpl. by eapply getDependenciesOf_fuel_mono.
Qed.

Lemma getDependenciesOf_met_post type met out :
  getDependenciesOf_met this type met = Ok out → visit_post met out.
Proof.
  intros H. eapply getDependenciesOf_fuel_post.
  rewrite getDependenciesOf_met_fuel; [by rewrite H|done].
Qed.

Lemma getDependenciesOf_met_Err type met e :
  getDependenciesOf_met this type met = Err e → e = TypeError.
Proof.
  intros H. eapply getDependenciesOf_fuel_Err.
  rewrite getDependenciesOf_met_fuel; [by rewrite H|done].
Qed.

(** The recursion equation of the source, without fuel. *)
Lemma getDependenciesOf_met_unfold type met :
  getDependenciesOf_met this type met =
  if ends_by_brackets type then getDependenciesOf_met this (extract_type type) met
  else if bool_decide (type ∈ met) then Ok ([], met)
  else match structs_read this type with
       | Undefined => Ok ([], met)
       | Struct fields =>
           default (Ok ([], met))
             (dependencies_loop
                (λ t m, Some (getDependenciesOf_met this t m))
                fields [type] ({[type]} ∪ met))
       | Inherited => Err TypeError
       end.
Proof.
  pose (fuel := dependencies_fuel this type met
                + dependencies_fuel this (extract_type type) met
                + (String.length type + S (size (dom this.(structs)))
                     * (max_type_length this + 2))).
  pose proof (getDependenciesOf_met_fuel (S fuel) type met ltac:(lia)) as E.
  cbn [getDependenciesOf_fuel] in E.
  destruct (ends_by_brackets type).
  { rewrite getDependenciesOf_met_fuel in E by lia. by injection E. }
  case_bool_decide; [by injection E|].
  destruct (structs_read this type) as [|fields|] eqn:Hs;
    [by injection E| |by injection E].
  apply structs_read_Struct in Hs.
  assert (Hsub : ∀ field, field ∈ fields →
            String.length (ftype field) ≤ max_type_length this)
    by (intros; by eapply ftype_length_le).
  enough (Hloop : ∀ result met1,
            dependencies_loop (visit fuel) fields result met1 =
            dependencies_loop (λ t m, Some (getDependenciesOf_met this t m))
                              fields result met1)
    by (by rewrite <- Hloop, E).
  clear E Hs. induction fields as [|field rest IHf]; intros result met1; [done|].
  cbn [dependencies_loop].
  rewrite getDependenciesOf_met_fuel.
  - destruct (getDependenciesOf_met this (ftype field) met1) as [[r met']|e]; [|done].
    apply IHf. intros f Hf. apply Hsub. by right.
  - specialize (Hsub field (list_elem_of_here _ _)).
    assert (unmet this met1 ≤ size (dom this.(structs)))
      by (apply subseteq_size; set_solver).
    unfold dependencies_fuel, fuel. nia.
Qed.

(** *** When the walk returns *)

Lemma inherited_free_field name fields field :
  inherited_free this = true →
  this.(structs) !! name = Some fields → field ∈ fields →
  resolves_inherited this (ftype field) = false.
Proof.
  unfold inherited_free. rewrite forallb_forall. intros Hall Hs Hf.
  specialize (Hall (name, fields)). rewrite forallb_forall in Hall.
  apply negb_true_iff, Hall.
  - by apply list_elem_of_In, elem_of_map_to_list.
  - by apply list_elem_of_In.
Qed.

Lemma getDependenciesOf_fuel_returns fuel type met res :
  inherited_free this = true → resolves_inherited this type = false →
  visit fuel type met = Some res → ∃ out, res = Ok out.
Proof.
  intros Hfree. revert type met res.
  induction fuel as [|fuel IH]; intros type met res Htype; [done|].
  cbn [getDependenciesOf_fuel]. unfold resolves_inherited in Htype.
  rewrite element_type_unfold in Htype.
  destruct (ends_by_brackets type); [by apply IH|].
  case_bool_decide as Hmet; [intros [= <-]; eauto|].
  destruct (structs_read this type) as [|fields|] eqn:Hs;
    [intros [= <-]; eauto| |done].
  apply structs_read_Struct in Hs.
  assert (Hsub : ∀ field, field ∈ fields →
            resolves_inherited this (ftype field) = false)
    by (intros; by eapply inherited_free_field).
  clear Hs. revert Hsub. generalize [type] ({[type]} ∪ met).
  induction fields as [|field rest IHf]; intros result met1 Hsub.
  { intros [= <-]. eauto. }
  cbn [dependencies_loop].
  destruct (visit fuel (ftype field) met1) as [[[r met']|e]|] eqn:E; [| |done].
  - apply IHf. intros f Hf. apply Hsub. by right.
  - apply IH in E as [out [=]]. apply Hsub. left.
Qed.

Lemma getDependenciesOf_returns type :
  inherited_free this = true → resolves_inherited this type = false →
  ∃ found, _getDependenciesOf this type = Ok found.
Proof.
  intros Hfree Htype. unfold _getDependenciesOf.
  destruct (getDependenciesOf_fuel_returns _ type ∅ _ Hfree Htype
              (getDependenciesOf_met_fuel _ type ∅ (Nat.le_refl _)))
    as [out ->].
  by exists out.1.
Qed.

Lemma getDependenciesOf_Ok type found :
  _getDependenciesOf this type = Ok found →
  ∃ met, getDependenciesOf_met this type ∅ = Ok (found, met).
Proof.
  unfold _getDependenciesOf.
  destruct (getDependenciesOf_met this type ∅) as [[found' met]|e]; [|done].
  intros [= <-]. by exists met.
Qed.

Lemma getDependenciesOf_TypeError type e :
  _getDependenciesOf this type = Err e → e = TypeError.
Proof.
  unfold _getDependenciesOf.
  destruct (getDependenciesOf_met this type ∅) as [out|e'] eqn:E; [done|].
  intros [= <-]. by eapply getDependenciesOf_met_Err.
Qed.

End DependenciesFacts.

(** ** Hexadecimal rendering: round trips *)

Section HexFacts.

Lemma digit_value_digit (b : byte) :
  let n := Byte.to_N b in
  digit_value (digit (n / 16)) = Some (n / 16)%N ∧
  digit_value (digit (n mod 16)) = Some (n mod 16)%N ∧
  byte_of_N (16 * (n / 16) + n mod 16) = b.
Proof. destruct b; vm_compute; done. Qed.

Lemma from_hex_to_hex bs : from_hex (to_hex bs) = bs.
Proof.
  induction bs as [|b bs IH]; [done|]. cbn [to_hex from_hex].
  destruct (digit_value_digit b) as (-> & -> & ->). by rewrite IH.
Qed.

Lemma is_hex_digits_to_hex bs : is_hex_digits (to_hex bs) = true.
Proof.
  induction bs as [|b bs IH]; [done|]. cbn [to_hex is_hex_digits].
  by destruct (digit_value_digit b) as (-> & -> & _).
Qed.

Lemma to_hex_length bs : String.length (to_hex bs) = 2 * length bs.
Proof. induction bs as [|b bs IH]; simpl; lia. Qed.

Lemma to_hex_app bs1 bs2 : to_hex (bs1 ++ bs2) = to_hex bs1 +:+ to_hex bs2.
Proof. induction bs1 as [|b bs1 IH]; simpl; [done|by rewrite IH]. Qed.

Lemma buffer_of_hex_hexlify bs : buffer_of_hex (hexlify bs) = bs.
Proof. apply from_hex_to_hex. Qed.

Lemma arrayify_hexlify bs : arrayify (hexlify bs) = Ok bs.
Proof.
  change (arrayify (hexlify bs))
    with (if is_hex_digits (to_hex bs) then
            Ok (from_hex (if Nat.odd (String.length (to_hex bs))
                          then String "0" (to_hex bs) else to_hex bs))
          else Err CapabilityError).
  rewrite is_hex_digits_to_hex, to_hex_length.
  replace (Nat.odd (2 * length bs)) with false.
  - by rewrite from_hex_to_hex.
  - symmetry. rewrite <- Nat.negb_even, Nat.even_mul. done.
Qed.

Lemma hexlify_inj bs1 bs2 : hexlify bs1 = hexlify bs2 → bs1 = bs2.
Proof.
  intros H. by rewrite <- (buffer_of_hex_hexlify bs1), H, buffer_of_hex_hexlify.
Qed.

Lemma keccak256_hex_hexlify keccak bs :
  keccak256_hex keccak (hexlify bs) = Ok (keccak256 keccak bs).
Proof. unfold keccak256_hex. by rewrite arrayify_hexlify. Qed.

End HexFacts.

(** ** The dependency walk: termination *)

(** X18.  [_getDependenciesOf(type, met)] terminates for every type
    name and every registry, self-referential and mutually recursive
    schemas included: with the fuel of [dependencies_fuel] or more the
    walk ends, always the same way, in a list or in an exception,
    which is a [TypeError].  One [[]] suffix is stripped per step
    before the element type is resolved; a name already in [met] is
    not descended into again; a name that is neither registered nor
    inherited from [Object.prototype] contributes nothing; an
    inherited name that is not registered is a [TypeError]; and a
    returned list holds each name at most once. *)
Theorem getDependenciesOf_terminates (this : EIP712Signer) (type : string)
    (met : gset string) :
  (∀ fuel, dependencies_fuel this type met ≤ fuel →
     getDependenciesOf_fuel this fuel type met
     = Some (getDependenciesOf_met this type met)) ∧
  (∀ e, getDependenciesOf_met this type met = Err e → e = TypeError) ∧
  getDependenciesOf_met this (type +:+ "[]") met
  = getDependenciesOf_met this type met ∧
  (ends_by_brackets type = false → type ∈ met →
     getDependenciesOf_met this type met = Ok ([], met)) ∧
  (ends_by_brackets type = false →
   this.(structs) !! type = None → inherited type = false →
     getDependenciesOf_met this type met = Ok ([], met)) ∧
  (type ∉ met → this.(structs) !! type = None → inherited type = true →
     getDependenciesOf_met this type met = Err TypeError) ∧
  (∀ out, getDependenciesOf_met this type met = Ok out → NoDup out.1).
Proof.
  split_and!.
  - intros fuel. apply getDependenciesOf_met_fuel.
  - intros e. apply getDependenciesOf_met_Err.
  - rewrite (getDependenciesOf_met_unfold this (type +:+ "[]")).
    by rewrite ends_by_brackets_app, extract_type_app.
  - intros Harr Hmet. rewrite getDependenciesOf_met_unfold, Harr.
    by rewrite bool_decide_eq_true_2.
  - intros Harr Hs Hin. rewrite getDependenciesOf_met_unfold, Harr.
    case_bool_decide; [done|].
    by rewrite (proj2 (structs_read_Undefined this type)).
  - intros Hmet Hs Hin. rewrite getDependenciesOf_met_unfold.
    rewrite (inherited_brackets _ Hin), bool_decide_eq_false_2 by done.
    by rewrite (proj2 (structs_read_Inherited this type)).
  - intros out H. by apply getDependenciesOf_met_post in H as [? _].
Qed.

(** A one-character type passes the test
    [type.lastIndexOf('[]') === type.length - 2], both sides being
    [-1], and is stripped to the empty string: the walk treats it as
    an array of a type that is not registered. *)
Example getDependenciesOf_one_character :
  let this := {| structs := <["A" := [Field "b" "B"]]>
                              (<["B" := [Field "x" "uint256"]]> initial.(structs));
                 this_domain := VNull |} in
  ends_by_brackets "A" = true ∧ extract_type "A" = "" ∧
  _getDependenciesOf this "A" = Ok [] ∧
  _getDependenciesOf this "AB" = Ok [] ∧
  _encodeType this "A" = Ok "A(B b)".
Proof. vm_compute. done. Qed.

(** The walk on the cyclic registry of the fixtures, from an array of
    arrays of [Node]. *)
Lemma getDependenciesOf_terminates_witness :
  getDependenciesOf_met Fixture.Cyclic "Node[][]" ∅
  = Ok (["Node"; "Edge"], {["Node"; "Edge"]}) ∧
  getDependenciesOf_met Fixture.Cyclic "Node" {["Node"]} = Ok ([], {["Node"]}) ∧
  getDependenciesOf_met Fixture.Cyclic "uint256" ∅ = Ok ([], ∅) ∧
  getDependenciesOf_met Fixture.Cyclic "valueOf" ∅ = Err TypeError ∧
  NoDup ["Node"; "Edge"].
Proof.
  pose proof (getDependenciesOf_terminates Fixture.Cyclic "Node" {["Node"]})
    as (_ & _ & _ & Hmet & _ & _ & _).
  pose proof (getDependenciesOf_terminates Fixture.Cyclic "uint256" ∅)
    as (_ & _ & _ & _ & Hnot & _ & _).
  pose proof (getDependenciesOf_terminates Fixture.Cyclic "valueOf" ∅)
    as (_ & _ & _ & _ & _ & Hin & _).
  pose proof (getDependenciesOf_terminates Fixture.Cyclic "Node[][]" ∅)
    as (_ & _ & _ & _ & _ & _ & Hnodup).
  assert (Hwalk : getDependenciesOf_met Fixture.Cyclic "Node[][]" ∅
                  = Ok (["Node"; "Edge"], {["Node"; "Edge"]}))
    by (vm_compute; reflexivity).
  split_and!.
  - exact Hwalk.
  - apply Hmet; [reflexivity | set_solver].
  - apply Hnot; reflexivity.
  - apply Hin; [set_solver | reflexivity | reflexivity].
  - exact (Hnodup _ Hwalk).
Defined.

(** ** The canonical type signature *)

(** A field as a type signature lists it: [<type> <name>]. *)
Definition signature_field (field : EIP712StructField) : string :=
  ftype field +:+ " " +:+ fname field.

(** The fields of a schema in the order it declares them, with a
    comma between two neighbours. *)
Fixpoint signature_fields (fields : EIP712Struct) : string :=
  match fields with
  | [] => ""
  | [field] => signature_field field
  | field :: rest => signature_field field +:+ "," +:+ signature_fields rest
  end.

(** The block [t(<type> <name>,...)] of a type [t] with the schema
    [fields]. *)
Definition signature_block (t : string) (fields : EIP712Struct) : string :=
  t +:+ "(" +:+ signature_fields fields +:+ ")".

Section TypeSignature.

Variable this : EIP712Signer.

Lemma string_app_nil_r (a : string) : a +:+ "" = a.
Proof.
  induction a as [|c a IH]; [done|].
  change (String c a +:+ "") with (String c (a +:+ "")). by rewrite IH.
Qed.

Lemma string_app_assoc (a b c : string) : (a +:+ b) +:+ c = a +:+ (b +:+ c).
Proof.
  induction a as [|x a IH]; [done|].
  change (String x (a +:+ b) +:+ c = String x (a +:+ (b +:+ c))).
  change (String x (a +:+ b) +:+ c) with (String x ((a +:+ b) +:+ c)).
  by rewrite IH.
Qed.

Lemma concat_nosep_cons (x : string) (xs : list string) :
  String.concat "" (x :: xs) = x +:+ String.concat "" xs.
Proof. destruct xs; cbn; [by rewrite string_app_nil_r|done]. Qed.

(** The template of the code builds the block of the
    specification. *)
Lemma type_block_signature (t : string) (fields : EIP712Struct) :
  type_block t fields = signature_block t fields.
Proof.
  unfold type_block, signature_block. do 3 f_equal.
  induction fields as [|field [|field' rest] IH]; [done|done|].
  change (signature_fields (field :: field' :: rest))
    with (signature_field field +:+ "," +:+ signature_fields (field' :: rest)).
  rewrite <- IH. reflexivity.
Qed.

(** The block of [t] in the registry. *)
Definition block_of (t : string) : string :=
  signature_block t (default [] (this.(structs) !! t)).

(** The type signature as the specification words it: one block per
    type of [order], with no separator. *)
Definition signature_of (order : list string) : string :=
  String.concat "" (map block_of order).

(** On registered names the loop of [_encodeType] appends the blocks
    in order. *)
Lemma encodeType_loop_blocks (order : list string) (result : string) :
  Forall (λ t, is_Some (this.(structs) !! t)) order →
  encodeType_loop this order result = Ok (result +:+ signature_of order).
Proof.
  intros Hreg. revert result.
  induction Hreg as [|t order [fields Ht] _ IH]; intros result.
  - cbn. by rewrite string_app_nil_r.
  - cbn [encodeType_loop].
    rewrite (proj2 (structs_read_Struct this t fields) Ht), IH.
    unfold signature_of.
    cbn [map]. rewrite concat_nosep_cons, string_app_assoc.
    unfold block_of at 2. by rewrite Ht, type_block_signature.
Qed.

(** Everything the walk returns is a registered name. *)
Lemma getDependenciesOf_registered (type t : string) (found : list string) :
  _getDependenciesOf this type = Ok found →
  t ∈ found → is_Some (this.(structs) !! t).
Proof.
  intros [met H]%getDependenciesOf_Ok Ht.
  by apply (getDependenciesOf_met_post this type ∅ _ H).
Qed.

Lemma getDependenciesOf_NoDup (type : string) (found : list string) :
  _getDependenciesOf this type = Ok found → NoDup found.
Proof.
  intros [met H]%getDependenciesOf_Ok.
  apply (getDependenciesOf_met_post this type ∅ _ H).
Qed.

(** [_encodeType] on a registered name, from what the walk
    returns. *)
Lemma encodeType_found (typeName : string) (found : list string) :
  is_Some (this.(structs) !! typeName) →
  _getDependenciesOf this typeName = Ok found →
  _encodeType this typeName
  = Ok (signature_of
          (typeName :: merge_sort String.le (filter (λ dep, dep ≠ typeName) found))).
Proof.
  intros Hreg Hfound. unfold _encodeType. rewrite Hfound.
  unfold mbind, outcome_bind.
  rewrite encodeType_loop_blocks; [done|].
  constructor; [done|]. apply Forall_forall. intros t Ht.
  rewrite merge_sort_Permutation in Ht.
  apply list_elem_of_filter in Ht as [_ Ht].
  by eapply getDependenciesOf_registered.
Qed.

End TypeSignature.

(** ** Claim C2 *)

(** C2.  The type signature of a registered struct is to be the
    concatenation of the blocks of the struct and of its dependencies,
    and a field type that no schema registers is to contribute
    nothing.  The signer [Holder], built by the constructor from the
    one schema [Holder(toString f)], has [Holder] registered and
    [toString] not; there the dependency walk finds
    [this.structs['toString']] in [Object.prototype], and
    [_encodeType('Holder')] and [_hashType('Holder')] end in a
    [TypeError] where the one block [Holder(toString f)] is due; with
    the field type [uint256] in the place of [toString] the same
    schema has its block. *)
Theorem encodeType_inherited_field_type :
  constructor Fixture.domain [("Holder", [Field "f" "toString"])]
  = Ok Fixture.Holder ∧
  is_Some (Fixture.Holder.(structs) !! "Holder") ∧
  Fixture.Holder.(structs) !! "toString" = None ∧
  signature_of Fixture.Holder ["Holder"] = "Holder(toString f)" ∧
  _encodeType Fixture.Holder "Holder" = Err TypeError ∧
  _hashType Fixture.Holder Fixture.keccak "Holder" = Err TypeError ∧
  (signer ← constructor Fixture.domain [("Holder", [Field "f" "uint256"])];
   _encodeType signer "Holder") = Ok "Holder(uint256 f)".
Proof.
  split_and!.
  - vm_compute. reflexivity.
  - vm_compute. eauto.
  - vm_compute. reflexivity.
  - vm_compute. reflexivity.
  - vm_compute. reflexivity.
  - vm_compute. reflexivity.
  - vm_compute. reflexivity.
Qed.

(** X19.  For a registered [typeName] whose dependency walk returns
    [found], [_encodeType] returns the blocks [t(<type> <name>,...)]
    of the types of an order [typeName :: deps] concatenated with no
    separator, each block listing the fields of [t] as the schema
    declares them, where [deps] is [found] without [typeName], sorted
    ascending in the lexicographic order; [_hashType] is the
    keccak-256 of the UTF-8 bytes of that string.  When the walk ends
    in an exception, both end in a [TypeError].  The walk returns when
    neither [typeName] nor a field type of the registry resolves to an
    unregistered member name of [Object.prototype]. *)
Theorem encodeType_signature (this : EIP712Signer)
    (keccak : list byte → list byte) (typeName : string) :
  is_Some (this.(structs) !! typeName) →
  (∀ found, _getDependenciesOf this typeName = Ok found →
     ∃ deps : list string,
       deps ≡ₚ filter (λ dep, dep ≠ typeName) found ∧
       StronglySorted String.le deps ∧
       Forall (λ t, is_Some (this.(structs) !! t)) deps ∧
       _encodeType this typeName = Ok (signature_of this (typeName :: deps)) ∧
       _hashType this keccak typeName
       = Ok (hexlify (keccak (utf8 (signature_of this (typeName :: deps)))))) ∧
  (∀ e, _getDependenciesOf this typeName = Err e →
     _encodeType this typeName = Err TypeError ∧
     _hashType this keccak typeName = Err TypeError) ∧
  (inherited_free this = true → resolves_inherited this typeName = false →
     ∃ found, _getDependenciesOf this typeName = Ok found).
Proof.
  intros Hreg. split_and!.
  - intros found Hfound.
    set (deps := merge_sort String.le (filter (λ dep, dep ≠ typeName) found)).
    assert (Hperm : deps ≡ₚ filter (λ dep, dep ≠ typeName) found)
      by apply merge_sort_Permutation.
    assert (Henc : _encodeType this typeName
                   = Ok (signature_of this (typeName :: deps)))
      by (by apply encodeType_found).
    exists deps. split_and!; [done| | |done|].
    + apply StronglySorted_merge_sort; apply _.
    + apply Forall_forall. intros t Ht. rewrite Hperm in Ht.
      apply list_elem_of_filter in Ht as [_ Ht].
      by eapply getDependenciesOf_registered.
    + unfold _hashType. by rewrite Henc.
  - intros e He. pose proof (getDependenciesOf_TypeError _ _ _ He) as ->.
    unfold _hashType, _encodeType. by rewrite He.
  - apply getDependenciesOf_returns.
Qed.

(** The signature of [Mail] in the registry of the tests. *)
Lemma encodeType_signature_witness :
  ∃ deps : list string,
    deps ≡ₚ filter (λ dep, dep ≠ "Mail") ["Mail"; "Person"; "UselessType"] ∧
    StronglySorted String.le deps ∧
    Forall (λ t, is_Some (Fixture.EtherMail.(structs) !! t)) deps ∧
    _encodeType Fixture.EtherMail "Mail"
    = Ok (signature_of Fixture.EtherMail ("Mail" :: deps)) ∧
    _hashType Fixture.EtherMail Fixture.keccak "Mail"
    = Ok (hexlify (Fixture.keccak
                     (utf8 (signature_of Fixture.EtherMail ("Mail" :: deps))))).
Proof.
  assert (Hreg : is_Some (Fixture.EtherMail.(structs) !! "Mail"))
    by (vm_compute; eauto).
  destruct (encodeType_signature Fixture.EtherMail Fixture.keccak "Mail" Hreg)
    as (Hfound & _ & _).
  apply Hfound. vm_compute. reflexivity.
Defined.

(** The signature the tests compare with the reference
    implementation. *)
Example encodeType_Mail :
  _encodeType Fixture.EtherMail "Mail"
  = Ok ("Mail(Person from,Person to,string contents)" +:+
        "Person(string name,address wallet,bytes32[] usernames,bytes points," +:+
        "UselessType useless_one,UselessType useless_two,uint256 integer_value)" +:+
        "UselessType(bool useless)").
Proof. vm_compute. reflexivity. Qed.

(** ** Construction and registration order *)

Section Construction.

Lemma structs_read_insert_ne (this : EIP712Signer) (k k' : string) struct domain :
  k ≠ k' →
  structs_read {| structs := <[k := struct]> this.(structs); this_domain := domain |} k'
  = structs_read this k'.
Proof. intros Hne. unfold structs_read. cbn. by rewrite lookup_insert_ne. Qed.

Lemma addTypes_ok (types : list (string * EIP712Struct)) (this : EIP712Signer) :
  NoDup types.*1 → (∀ k, k ∈ types.*1 → structs_read this k = Undefined) →
  addTypes types this
  = Ok {| structs := list_to_map types ∪ this.(structs);
          this_domain := this.(this_domain) |}.
Proof.
  revert this. induction types as [|[k struct] types IH]; intros this Hnd Hfresh.
  - cbn. rewrite (left_id_L ∅ (∪)). by destruct this.
  - apply NoDup_cons in Hnd as [Hk Hnd]. cbn [addTypes]. unfold _addType.
    cbn [fst snd fmap list_fmap] in *.
    rewrite (Hfresh k) by left. cbn. rewrite IH; cbn; [|done|].
    + f_equal. f_equal. rewrite <- insert_union_r, insert_union_l; [done|].
      by apply not_elem_of_list_to_map_1.
    + intros k' Hk'. rewrite structs_read_insert_ne by (by intros ->).
      apply Hfresh. by right.
Qed.

Lemma addTypes_inv (types : list (string * EIP712Struct)) (this this' : EIP712Signer) :
  addTypes types this = Ok this' →
  NoDup types.*1 ∧ (∀ k, k ∈ types.*1 → structs_read this k = Undefined).
Proof.
  revert this. induction types as [|[k struct] types IH]; intros this.
  - intros _. split; [constructor|]. by intros k ?%elem_of_nil.
  - cbn [addTypes]. unfold _addType. cbn [fst snd].
    destruct (structs_read this k) eqn:Hk; [|done|done]. cbn.
    intros [Hnd Hfresh]%IH. split.
    + cbn. apply NoDup_cons. split; [|done]. intros Hin.
      apply Hfresh in Hin. apply structs_read_Undefined in Hin as [Hin _].
      cbn in Hin. by rewrite lookup_insert_eq in Hin.
    + cbn. intros k' [->|Hin]%elem_of_cons; [done|].
      specialize (Hfresh k' Hin). destruct (decide (k = k')) as [->|Hne].
      * apply structs_read_Undefined in Hfresh as [Hfresh _].
        cbn in Hfresh. by rewrite lookup_insert_eq in Hfresh.
      * by rewrite structs_read_insert_ne in Hfresh.
Qed.

Lemma constructor_Permutation (domain : any)
    (types1 types2 : list (string * EIP712Struct)) (signer : EIP712Signer) :
  types1 ≡ₚ types2 →
  constructor domain types1 = Ok signer → constructor domain types2 = Ok signer.
Proof.
  unfold constructor. intros Hperm H1.
  pose proof (addTypes_inv _ _ _ H1) as [Hnd Hfresh].
  rewrite addTypes_ok in H1 by done. rewrite addTypes_ok.
  - rewrite <- H1. f_equal. f_equal. f_equal. symmetry.
    by apply list_to_map_proper.
  - by rewrite <- Hperm.
  - intros k Hk. apply Hfresh. by rewrite Hperm.
Qed.

End Construction.

(** ** Claim C8 *)

(** C8.  Two instances constructed from the same domain and the same
    (name, schema) pairs, supplied in any order, give the same type
    signature (and type hash) for every type name: when the
    construction succeeds for one order it succeeds for the other,
    and [_encodeType] agrees on both. *)
Theorem encodeType_registration_order (domain : any)
    (types1 types2 : list (string * EIP712Struct)) (signer1 : EIP712Signer) :
  types1 ≡ₚ types2 →
  constructor domain types1 = Ok signer1 →
  ∃ signer2,
    constructor domain types2 = Ok signer2 ∧
    ∀ (keccak : list byte → list byte) (typeName : string),
      _encodeType signer2 typeName = _encodeType signer1 typeName ∧
      _hashType signer2 keccak typeName = _hashType signer1 keccak typeName.
Proof.
  intros Hperm H1. exists signer1. split; [|done].
  by eapply constructor_Permutation.
Qed.

(** The registry of the tests, registered in two different orders. *)
Lemma encodeType_registration_order_witness :
  ∃ signer2,
    constructor Fixture.domain (rev Fixture.types) = Ok signer2 ∧
    ∀ (keccak : list byte → list byte) (typeName : string),
      _encodeType signer2 typeName = _encodeType Fixture.EtherMail typeName ∧
      _hashType signer2 keccak typeName
      = _hashType Fixture.EtherMail keccak typeName.
Proof.
  apply (encodeType_registration_order Fixture.domain Fixture.types).
  - apply Permutation_rev.
  - reflexivity.
Defined.

(** ** The data encoder *)

(** [record[key]] on an object literal, as the record answers it: an
    own property, else the member of that name inherited from
    [Object.prototype], else [undefined]. *)
Definition own (props : list (string * any)) (key : string) : any :=
  lookup_with (λ v, v) (if inherited key then VInherited key else VUndefined)
              key props.

(** A value is set when it is not strictly [undefined]; [null] is set. *)
Definition is_set (value : any) : bool :=
  match value with
  | VUndefined => false
  | _ => true
  end.

Section EncoderFacts.

Variable this : EIP712Signer.
Variable keccak : list byte → list byte.
Variable abi_encode : list string → list any → outcome (list byte).

Local Abbreviation encodeField := (_encodeDataTypeField this keccak abi_encode).

Lemma read_with_own {A} (props : list (string * any)) (key : string)
    (found : any → outcome A) (inherit missing : outcome A) :
  inherit = found (VInherited key) →
  read_with (VObj props) key found inherit missing
  = if is_set (own props key) then found (own props key) else missing.
Proof.
  intros ->. unfold read_with, own.
  induction props as [|[k v] props IH].
  - cbn [lookup_with]. by destruct (inherited key).
  - cbn [lookup_with]. destruct (String.eqb k key); [by destruct v|done].
Qed.

(** On a member of [Object.prototype] the encoder does not call back
    into itself. *)
Lemma encodeField_body_inherited F M F' M' (type key : string) :
  encodeField_body this keccak abi_encode F M type (VInherited key)
  = encodeField_body this keccak abi_encode F' M' type (VInherited key).
Proof.
  unfold encodeField_body, hashData_with, encodeData_with.
  destruct (truthy (structs_read this type)); [|done].
  destruct (_hashType this keccak type) as [hashType|]; [|done].
  cbn [mbind outcome_bind].
  destruct (structs_read this type) as [|[|field rest]|]; done.
Qed.

Lemma encodeInherited_eq (type key : string) :
  encodeInherited this keccak abi_encode type key
  = encodeField type (VInherited key).
Proof. apply encodeField_body_inherited. Qed.

(** The body of [_encodeDataTypeField], as the source has it. *)
Lemma encodeDataTypeField_unfold (type : string) (value : any) :
  encodeField type value =
  if truthy (structs_read this type) then
    match value with
    | VNull => Ok ("bytes32", VStr B32Z)
    | _ => hash ← _hashData this keccak abi_encode type value;
           Ok ("bytes32", VStr hash)
    end
  else if String.eqb type "bytes" then
    hash ← keccak256_any keccak value; Ok ("bytes32", VStr hash)
  else if String.eqb type "string" then
    bytes ← buffer_of_utf8 value; Ok ("bytes32", VStr (keccak256 keccak bytes))
  else
    value' ← (if String.eqb type "uint256" && typeof_object value
              then str ← toString value; Ok (VStr str)
              else Ok value);
    if ends_by_brackets type then
      match value with
      | VArr elems =>
          encoded_array ← mapM (encodeField (extract_type type)) elems;
          encoded ← abie_encode abi_encode (map fst encoded_array)
                                           (map snd encoded_array);
          hash ← keccak256_hex keccak encoded;
          Ok ("bytes32", VStr hash)
      | _ => Err TypeError
      end
    else Ok (type, value').
Proof. destruct value; reflexivity. Qed.

(** The loop of [_encodeData] visits the fields in schema order and
    stops at the first throw. *)
Lemma encodeData_loop_mapM (F : string → any → outcome (string * any))
    (M : string → string → outcome (string * any))
    (name : string) (payload : any) (fields : EIP712Struct)
    (encodedTypes : list string) (encodedData : list any) :
  encodeData_loop F M name payload fields encodedTypes encodedData
  = pairs ← mapM (λ field, read_with payload (fname field) (F (ftype field))
                             (M (ftype field) (fname field))
                             (Err (MissingField name (fname field)))) fields;
    Ok (encodedTypes ++ map fst pairs, encodedData ++ map snd pairs).
Proof.
  revert encodedTypes encodedData.
  induction fields as [|field rest IH]; intros encodedTypes encodedData.
  - cbn. by rewrite !app_nil_r.
  - cbn [encodeData_loop mapM].
    destruct (read_with payload (fname field) _ _ _) as [[t d]|e]; [|done].
    cbn. rewrite IH. destruct (mapM _ rest) as [pairs|e]; [|done].
    cbn. by rewrite <- !app_assoc.
Qed.

Lemma mapM_app {A B} (f : A → outcome B) (xs ys : list A) :
  mapM f (xs ++ ys) = xs' ← mapM f xs; ys' ← mapM f ys; Ok (xs' ++ ys').
Proof.
  induction xs as [|x xs IH]; cbn.
  - by destruct (mapM f ys).
  - destruct (f x); [|done]. cbn. rewrite IH.
    destruct (mapM f xs); [|done]. cbn. by destruct (mapM f ys).
Qed.

Lemma mapM_ext_Forall {A B} (f g : A → outcome B) (xs : list A) :
  Forall (λ x, f x = g x) xs → mapM f xs = mapM g xs.
Proof. induction 1 as [|x xs Hx _ IH]; cbn; [done|]. by rewrite Hx, IH. Qed.

(** A struct hash is the rendering of a keccak output. *)
Lemma hashData_is_keccak (type : string) (data : any) (hash : string) :
  _hashData this keccak abi_encode type data = Ok hash →
  ∃ bytes, hash = hexlify (keccak bytes).
Proof.
  unfold _hashData, hashData_with.
  destruct (encodeData_with _ _ _ _ _ _ _) as [encoded|]; [|done]. cbn.
  unfold keccak256_hex. destruct (arrayify encoded) as [bytes|]; [|done].
  intros [= <-]. by exists bytes.
Qed.

End EncoderFacts.

Lemma B32Z_zero : B32Z = hexlify (repeat Byte.x00 32).
Proof. reflexivity. Qed.

(** ** Claim C4 *)

(** C4.  For a registered struct type, a [null] value encodes to the
    fixed word [0x] followed by sixty-four zeros, the rendering of
    thirty-two zero bytes: a constant and not a hash; any other value
    encodes to [_hashData(type, value)]; and as long as keccak never
    outputs thirty-two zero bytes, a value that is not [null] never
    encodes to the all-zero word. *)
Theorem encodeField_struct_null (this : EIP712Signer)
    (keccak : list byte → list byte)
    (abi_encode : list string → list any → outcome (list byte))
    (type : string) :
  is_Some (this.(structs) !! type) →
  _encodeDataTypeField this keccak abi_encode type VNull
  = Ok ("bytes32",
        VStr "0x0000000000000000000000000000000000000000000000000000000000000000") ∧
  buffer_of_hex "0x0000000000000000000000000000000000000000000000000000000000000000"
  = repeat Byte.x00 32 ∧
  (∀ value, value ≠ VNull →
     _encodeDataTypeField this keccak abi_encode type value
     = hash ← _hashData this keccak abi_encode type value;
       Ok ("bytes32", VStr hash)) ∧
  ((∀ data, keccak data ≠ repeat Byte.x00 32) →
   ∀ value word, value ≠ VNull →
     _encodeDataTypeField this keccak abi_encode type value = Ok word →
     word ≠ ("bytes32",
             VStr "0x0000000000000000000000000000000000000000000000000000000000000000")).
Proof.
  intros Hreg. apply truthy_Struct in Hreg.
  assert (Hnot_null : ∀ value, value ≠ VNull →
            _encodeDataTypeField this keccak abi_encode type value
            = hash ← _hashData this keccak abi_encode type value;
              Ok ("bytes32", VStr hash)).
  { intros value Hvalue. rewrite encodeDataTypeField_unfold, Hreg.
    by destruct value. }
  split_and!; [|reflexivity|done|].
  - by rewrite encodeDataTypeField_unfold, Hreg.
  - intros Hkeccak value word Hvalue. rewrite (Hnot_null _ Hvalue).
    destruct (_hashData _ _ _ _ _) as [hash|] eqn:Hhash; [|done].
    apply hashData_is_keccak in Hhash as [bytes ->].
    intros [= <-] Hword.
    assert (Hzero : hexlify (keccak bytes) = hexlify (repeat Byte.x00 32))
      by exact (f_equal (λ w : string * any,
                          match w.2 with VStr h => h | _ => "" end) Hword).
    by apply hexlify_inj, Hkeccak in Hzero.
Qed.

(** The two [useless_two] values of the tests: [null] and a present
    record. *)
Lemma encodeField_struct_null_witness :
  _encodeDataTypeField Fixture.EtherMail Fixture.keccak Fixture.abi_encode
    "UselessType" VNull
  = Ok ("bytes32",
        VStr "0x0000000000000000000000000000000000000000000000000000000000000000") ∧
  _encodeDataTypeField Fixture.EtherMail Fixture.keccak Fixture.abi_encode
    "UselessType" (VObj [("useless", VBool false)])
  ≠ Ok ("bytes32",
        VStr "0x0000000000000000000000000000000000000000000000000000000000000000").
Proof.
  destruct (encodeField_struct_null Fixture.EtherMail Fixture.keccak
              Fixture.abi_encode "UselessType") as (Hnull & _ & _ & Hpresent).
  { vm_compute. eauto. }
  split; [exact Hnull|].
  intros Heq. eapply Hpresent; [| |exact Heq|reflexivity].
  - intros data. discriminate.
  - discriminate.
Defined.

(** ** Claim C7 *)

(** C7, as the code has it.  When ["uint256"] is not a registered
    struct name, a [BN] equal to [n] is turned into the decimal string
    of [n] before it reaches the ABI coder, and a native integer [n]
    is passed on unchanged as the number [n]. *)
Theorem encodeField_uint256 (this : EIP712Signer)
    (keccak : list byte → list byte)
    (abi_encode : list string → list any → outcome (list byte)) (n : Z) :
  this.(structs) !! "uint256" = None →
  _encodeDataTypeField this keccak abi_encode "uint256" (VBN n)
  = Ok ("uint256", VStr (decimal n)) ∧
  _encodeDataTypeField this keccak abi_encode "uint256" (VNum n)
  = Ok ("uint256", VNum n).
Proof.
  intros Hreg. rewrite !encodeDataTypeField_unfold.
  rewrite (proj2 (truthy_false this "uint256")) by done.
  done.
Qed.

Lemma encodeField_uint256_witness :
  _encodeDataTypeField Fixture.EtherMail Fixture.keccak Fixture.abi_encode
    "uint256" (VBN 12) = Ok ("uint256", VStr "12") ∧
  _encodeDataTypeField Fixture.EtherMail Fixture.keccak Fixture.abi_encode
    "uint256" (VNum 12) = Ok ("uint256", VNum 12).
Proof.
  apply (encodeField_uint256 Fixture.EtherMail Fixture.keccak
           Fixture.abi_encode 12).
  reflexivity.
Defined.

(** The two [integer_value] forms of the tests do not give the same
    output of [_encodeDataTypeField]: one is a string, the other a
    number. *)
Lemma encodeField_uint256_not_normalized :
  _encodeDataTypeField Fixture.EtherMail Fixture.keccak Fixture.abi_encode
    "uint256" (VNum 12)
  ≠ _encodeDataTypeField Fixture.EtherMail Fixture.keccak Fixture.abi_encode
      "uint256" (VBN 12).
Proof. vm_compute. discriminate. Qed.

(** ** Claim C5 *)

Section EncodeDataFacts.

Variable this : EIP712Signer.
Variable keccak : list byte → list byte.
Variable abi_encode : list string → list any → outcome (list byte).

(** The type hash of a registered type exists when its dependency
    walk returns. *)
Lemma hashType_registered (type : string) (found : list string) :
  is_Some (this.(structs) !! type) →
  _getDependenciesOf this type = Ok found →
  ∃ hashType, _hashType this keccak type = Ok hashType.
Proof.
  intros Hreg Hfound. unfold _hashType.
  rewrite (encodeType_found this type found Hreg Hfound). by eexists.
Qed.

Lemma mapM_all_Ok {A B} (f : A → outcome B) (xs : list A) :
  Forall (λ x, ∃ y, f x = Ok y) xs → ∃ ys, mapM f xs = Ok ys.
Proof.
  induction 1 as [|x xs [y Hy] _ [ys IH]]; cbn; [by eexists|].
  rewrite Hy, IH. by eexists.
Qed.

(** [_encodeData] on an object literal, in terms of what the record
    answers for each field name. *)
Lemma encodeData_record (name : string) (fields : EIP712Struct)
    (props : list (string * any)) (hashType : string) :
  this.(structs) !! name = Some fields →
  _hashType this keccak name = Ok hashType →
  _encodeData this keccak abi_encode name (VObj props)
  = pairs ← mapM (λ field,
                    if is_set (own props (fname field))
                    then _encodeDataTypeField this keccak abi_encode
                           (ftype field) (own props (fname field))
                    else Err (MissingField name (fname field))) fields;
    abie_encode abi_encode ("bytes32" :: map fst pairs)
                           (VStr hashType :: map snd pairs).
Proof.
  intros Hs Hh. unfold _encodeData, encodeData_with. rewrite Hh. cbn.
  rewrite (proj2 (structs_read_Struct this name fields) Hs), encodeData_loop_mapM.
  rewrite (mapM_ext_Forall _
             (λ field, if is_set (own props (fname field))
                       then _encodeDataTypeField this keccak abi_encode
                              (ftype field) (own props (fname field))
                       else Err (MissingField name (fname field))) fields).
  - by destruct (mapM _ fields).
  - apply Forall_forall. intros field _. apply read_with_own.
    apply encodeInherited_eq.
Qed.

End EncodeDataFacts.

(** C5, as the code has it.  For a registered [typeName] whose type
    hash exists and an object literal [record], a field being unset
    when [record[field]] is strictly [undefined]: [_encodeData] raises
    [MissingField] for [typeName] and [field] when [field] is the
    first declared field that is unset and the declared fields before
    it are set and encode; an explicit [null] counts as set, and for a
    field of struct type it encodes to the all-zero word; when no
    declared field is unset the result is the ABI encoding of
    [(bytes32, hashType(typeName))] followed by the encoded fields in
    schema order, or the first error of a field encoding, which can be
    the [MissingField] of a nested record. *)
Theorem encodeData_missing_field (this : EIP712Signer)
    (keccak : list byte → list byte)
    (abi_encode : list string → list any → outcome (list byte))
    (typeName : string) (fields : EIP712Struct) (props : list (string * any))
    (hashType : string) :
  this.(structs) !! typeName = Some fields →
  _hashType this keccak typeName = Ok hashType →
  (∀ pre field post,
     fields = pre ++ field :: post →
     Forall (λ g, is_set (own props (fname g)) = true ∧
                  ∃ pair, _encodeDataTypeField this keccak abi_encode
                            (ftype g) (own props (fname g)) = Ok pair) pre →
     own props (fname field) = VUndefined →
     _encodeData this keccak abi_encode typeName (VObj props)
     = Err (MissingField typeName (fname field))) ∧
  (∀ field, field ∈ fields → own props (fname field) = VNull →
     is_set (own props (fname field)) = true ∧
     (is_Some (this.(structs) !! ftype field) →
      _encodeDataTypeField this keccak abi_encode
        (ftype field) (own props (fname field))
      = Ok ("bytes32",
            VStr "0x0000000000000000000000000000000000000000000000000000000000000000"))) ∧
  (Forall (λ g, is_set (own props (fname g)) = true) fields →
   _encodeData this keccak abi_encode typeName (VObj props)
   = pairs ← mapM (λ g, _encodeDataTypeField this keccak abi_encode
                          (ftype g) (own props (fname g))) fields;
     abie_encode abi_encode ("bytes32" :: map fst pairs)
                            (VStr hashType :: map snd pairs)).
Proof.
  intros Hs Hh.
  pose proof (encodeData_record this keccak abi_encode typeName fields props
                hashType Hs Hh) as Hrec.
  split_and!.
  - intros pre field post -> Hpre Hunset. rewrite Hrec, mapM_app.
    destruct (mapM_all_Ok
                (λ field, if is_set (own props (fname field))
                          then _encodeDataTypeField this keccak abi_encode
                                 (ftype field) (own props (fname field))
                          else Err (MissingField typeName (fname field))) pre)
      as [pairs ->].
    { eapply Forall_impl; [exact Hpre|]. by intros g [-> ?]. }
    cbn. by rewrite Hunset.
  - intros field _ Hnull. rewrite Hnull. split; [done|]. intros Hreg.
    rewrite encodeDataTypeField_unfold. by rewrite truthy_Struct.
  - intros Hset. rewrite Hrec. erewrite mapM_ext_Forall; [done|].
    eapply Forall_impl; [exact Hset|]. by intros g ->.
Qed.

(** The [from] record of the tests, whose [useless_two] is [null]. *)
Definition Fixture_from : list (string * any) :=
  [ ("name", VStr "lol");
    ("wallet", VStr "0xe4937b3fead67f09f5f15b0a1991a588f7be54ca");
    ("usernames", VArr []);
    ("points", VStr "0x1243");
    ("useless_one", VObj [("useless", VBool true)]);
    ("useless_two", VNull);
    ("integer_value", VBN 12) ].

(** The type hash of [Person] under the stand-in hash. *)
Definition Fixture_hashType : string :=
  keccak256 Fixture.keccak
    (utf8 ("Person(string name,address wallet,bytes32[] usernames,bytes points," +:+
           "UselessType useless_one,UselessType useless_two,uint256 integer_value)" +:+
           "UselessType(bool useless)")).

(** On [Person]: the [from] record of the tests encodes, its
    [useless_two] being [null]; without [wallet] the call raises
    [MissingField] for [wallet]. *)
Lemma encodeData_missing_field_witness :
  (∃ encoded, _encodeData Fixture.EtherMail Fixture.keccak Fixture.abi_encode
                "Person" (VObj Fixture_from) = Ok encoded) ∧
  _encodeData Fixture.EtherMail Fixture.keccak Fixture.abi_encode
    "Person" (VObj [("name", VStr "lol"); ("points", VStr "0x1243")])
  = Err (MissingField "Person" "wallet").
Proof.
  split.
  - destruct (encodeData_missing_field Fixture.EtherMail Fixture.keccak
                Fixture.abi_encode "Person" Fixture.Person Fixture_from
                Fixture_hashType)
      as (_ & _ & Hall); [reflexivity|vm_compute; reflexivity|].
    rewrite Hall.
    + vm_compute. eauto.
    + repeat constructor.
  - destruct (encodeData_missing_field Fixture.EtherMail Fixture.keccak
                Fixture.abi_encode "Person" Fixture.Person
                [("name", VStr "lol"); ("points", VStr "0x1243")]
                Fixture_hashType)
      as (Hfirst & _ & _); [reflexivity|vm_compute; reflexivity|].
    apply (Hfirst [Field "name" "string"] (Field "wallet" "address")
             (skipn 2 Fixture.Person)); [reflexivity| |reflexivity].
    constructor; [|constructor]. split; [reflexivity|]. vm_compute. eauto.
Defined.

(** A [Mail] record in which every declared field of [Mail] is set,
    and whose [from] is a [Person] record without fields: the call
    raises [MissingField], for [Person]. *)
Lemma encodeData_missing_field_nested :
  let props := [ ("from", VObj []); ("to", VObj Fixture_from);
                 ("contents", VStr "Hello lele") ] in
  Forall (λ field, is_set (own props (fname field)) = true) Fixture.Mail ∧
  _encodeData Fixture.EtherMail Fixture.keccak Fixture.abi_encode
    "Mail" (VObj props)
  = Err (MissingField "Person" "name").
Proof. split; [repeat constructor|]. vm_compute. reflexivity. Qed.

(** ** Payload validation *)

(** A claimed field agrees with the registered schema: the first
    registered field of that name has the same declared type. *)
Definition field_agrees (registered : EIP712Struct) (field : EIP712StructField)
  : Prop :=
  ∃ eq_field, find_field registered (fname field) = Some eq_field ∧
              ftype field = ftype eq_field.

Section ValidationFacts.

Variable this : EIP712Signer.

(** The check of one key of [payload.types]. *)
Definition check_type (payload_types : list (string * EIP712Struct))
    (type : string) : outcome unit :=
  match structs_read this type with
  | Undefined => Err (UnknownType type)
  | Struct registered_current_type =>
      match types_get payload_types type with
      | None => Err TypeError
      | Some current_type => verifyFields type registered_current_type current_type
      end
  | Inherited =>
      match types_get payload_types type with
      | Some [] => Ok ()
      | _ => Err TypeError
      end
  end.

Lemma verifyFields_agree type registered current_type :
  Forall (field_agrees registered) current_type →
  verifyFields type registered current_type = Ok ().
Proof.
  induction 1 as [|field rest (eq_field & Hfind & Htype) _ IH]; [done|].
  cbn [verifyFields]. rewrite Hfind, Htype.
  by rewrite String.eqb_refl.
Qed.

Lemma verifyFields_app type registered agreed rest :
  Forall (field_agrees registered) agreed →
  verifyFields type registered (agreed ++ rest)
  = verifyFields type registered rest.
Proof.
  induction 1 as [|field agreed (eq_field & Hfind & Htype) _ IH]; [done|].
  cbn [app verifyFields]. rewrite Hfind, Htype.
  by rewrite String.eqb_refl.
Qed.

Lemma verifyFields_Ok type registered current_type :
  verifyFields type registered current_type = Ok () →
  Forall (field_agrees registered) current_type.
Proof.
  induction current_type as [|field rest IH]; [constructor|].
  cbn [verifyFields].
  destruct (find_field registered (fname field)) as [eq_field|] eqn:Hfind; [|done].
  destruct (String.eqb (ftype field) (ftype eq_field)) eqn:Htype; [|done].
  cbn. intros Hrest. constructor; [|by apply IH].
  exists eq_field. by apply String.eqb_eq in Htype.
Qed.

Lemma verifyTypes_loop_check payload_types keys :
  verifyTypes_loop this payload_types keys
  = match keys with
    | [] => Ok ()
    | type :: rest => _ ← check_type payload_types type;
                      verifyTypes_loop this payload_types rest
    end.
Proof.
  destruct keys as [|type rest]; [done|]. cbn [verifyTypes_loop].
  unfold check_type. destruct (structs_read this type); [done| |].
  - by destruct (types_get payload_types type).
  - by destruct (types_get payload_types type) as [[|]|].
Qed.

(** The keys before the first failing one are skipped. *)
Lemma verifyTypes_loop_app payload_types passed rest :
  Forall (λ type, check_type payload_types type = Ok ()) passed →
  verifyTypes_loop this payload_types (passed ++ rest)
  = verifyTypes_loop this payload_types rest.
Proof.
  induction 1 as [|type passed Hcheck _ IH]; [done|].
  cbn [app]. rewrite verifyTypes_loop_check. by rewrite Hcheck.
Qed.

Lemma verifyTypes_loop_Ok payload_types keys :
  verifyTypes_loop this payload_types keys = Ok () ↔
  Forall (λ type, check_type payload_types type = Ok ()) keys.
Proof.
  induction keys as [|type rest IH].
  - split; [constructor|done].
  - rewrite verifyTypes_loop_check, Forall_cons.
    destruct (check_type payload_types type) as [[]|e]; cbn.
    + rewrite IH. naive_solver.
    + naive_solver.
Qed.

(** The shape check accepts exactly the key lists that are the four
    required keys in some order. *)
Lemma verifyRequired_Ok keys required :
  verifyRequired keys required = Ok () ↔ ∀ req, req ∈ required → req ∈ keys.
Proof.
  induction required as [|req rest IH]; cbn [verifyRequired].
  - split; [by intros _ ? ?%elem_of_nil|done].
  - case_bool_decide as Hin; cbn.
    + rewrite IH. split.
      * intros H k [->|?]%elem_of_cons; auto.
      * intros H k ?. apply H. by right.
    + split; [done|]. intros H. destruct Hin. apply H. by left.
Qed.

Lemma verifyRequired_Err keys required e :
  verifyRequired keys required = Err e →
  ∃ req, e = InvalidPayloadShape_missing req.
Proof.
  induction required as [|req rest IH]; cbn [verifyRequired]; [done|].
  case_bool_decide; cbn; [done|]. intros [= <-]. by eexists.
Qed.

(** The shape check passes only when the keys are the four required
    keys, in some order. *)
Lemma verifyMainPayloadField_Ok payload :
  _verifyMainPayloadField payload = Ok () →
  REQUIRED_FIELDS ≡ₚ Object_keys payload.
Proof.
  unfold _verifyMainPayloadField.
  destruct (Nat.eqb_spec (length (Object_keys payload)) (length REQUIRED_FIELDS))
    as [Hlen|Hlen]; cbn [negb]; [|done].
  rewrite verifyRequired_Ok. intros Hsub.
  apply submseteq_length_Permutation; [|by rewrite Hlen].
  apply NoDup_submseteq; [|done].
  unfold REQUIRED_FIELDS. repeat (apply NoDup_cons; split; [set_solver|]).
  constructor.
Qed.

(** Both [throw]s of [_verifyMainPayloadField] report the shape. *)
Definition is_InvalidPayloadShape (e : error) : Prop :=
  e = InvalidPayloadShape_count ∨ ∃ req, e = InvalidPayloadShape_missing req.

Lemma verifyMainPayloadField_Err payload e :
  _verifyMainPayloadField payload = Err e → is_InvalidPayloadShape e.
Proof.
  unfold _verifyMainPayloadField.
  destruct (negb _); [intros [= <-]; by left|].
  intros H. right. by eapply verifyRequired_Err.
Qed.

End ValidationFacts.

(** ** Claim C10 *)

(** C10.  When the top-level keys of the payload are not exactly the
    four keys [domain], [types], [message], [primaryType], [encode]
    raises the error of the shape check, whether [verify] is set or
    not; [sign] and [verify], which start by calling [encode], raise
    the same error. *)
Theorem encode_shape_check_unconditional (this : EIP712Signer)
    (keccak : list byte → list byte)
    (abi_encode : list string → list any → outcome (list byte))
    (signDigest : string → list byte → outcome (string * string * Z))
    (recoverAddress : list byte → string → outcome string)
    (payload : EIP712Payload) (verify_payload : bool)
    (privateKey : SignerKey) (signature : string) :
  ¬ (∀ key, key ∈ Object_keys payload ↔ key ∈ REQUIRED_FIELDS) →
  ∃ e, is_InvalidPayloadShape e ∧
       encode this keccak abi_encode payload verify_payload = Err e ∧
       sign this keccak abi_encode signDigest privateKey payload verify_payload
       = Err e ∧
       verify this keccak abi_encode recoverAddress payload signature
         verify_payload = Err e.
Proof.
  intros Hkeys.
  destruct (_verifyMainPayloadField payload) as [[]|e] eqn:Hshape.
  - destruct Hkeys. intros key.
    by rewrite (verifyMainPayloadField_Ok _ Hshape).
  - exists e. split; [by eapply verifyMainPayloadField_Err|].
    assert (Hencode : ∀ verify_payload,
              encode this keccak abi_encode payload verify_payload = Err e)
      by (intros ?; unfold encode; by rewrite Hshape).
    unfold sign, verify. by rewrite !Hencode.
Qed.

(** The payload of the tests, for [Mail]. *)
Definition Fixture_message : any :=
  VObj [ ("from", VObj Fixture_from); ("to", VObj Fixture_from);
         ("contents", VStr "Hello lele") ].

Definition Fixture_types : list (string * EIP712Struct) :=
  Fixture.types ++ [("EIP712Domain", EIP712DomainType)].

Definition Fixture_payload : EIP712Payload :=
  {| types := Some Fixture_types;
     primaryType := Some "Mail";
     message := Some Fixture_message;
     domain := Some Fixture.domain;
     other_keys := [] |}.

(** The payload of the tests without its [message] key. *)
Lemma encode_shape_check_unconditional_witness :
  let payload :=
    {| types := Some Fixture_types; primaryType := Some "Mail";
       message := None; domain := Some Fixture.domain; other_keys := [] |} in
  ∃ e, is_InvalidPayloadShape e ∧
       encode Fixture.EtherMail Fixture.keccak Fixture.abi_encode payload false
       = Err e ∧
       sign Fixture.EtherMail Fixture.keccak Fixture.abi_encode
         Fixture.signDigest (PrivateKey "0x01") payload false = Err e ∧
       verify Fixture.EtherMail Fixture.keccak Fixture.abi_encode
         Fixture.recoverAddress payload "0x" false = Err e.
Proof.
  intros payload.
  apply (encode_shape_check_unconditional Fixture.EtherMail Fixture.keccak
           Fixture.abi_encode Fixture.signDigest Fixture.recoverAddress
           payload false (PrivateKey "0x01") "0x").
  intros Hkeys.
  assert (Hin : "message" ∈ Object_keys payload)
    by (apply Hkeys; unfold REQUIRED_FIELDS; set_solver).
  cbn in Hin. set_solver.
Defined.

Example encode_shape_extra_key :
  encode Fixture.EtherMail Fixture.keccak Fixture.abi_encode
    {| types := Some Fixture_types; primaryType := Some "Mail";
       message := Some Fixture_message; domain := Some Fixture.domain;
       other_keys := ["extra"] |} false
  = Err InvalidPayloadShape_count.
Proof. reflexivity. Qed.

(** ** Claim C6 *)

Lemma elem_of_required_types (dependencies : list string) (x : string) :
  x ∈ required_types dependencies ↔ x = "EIP712Domain" ∨ x ∈ dependencies.
Proof.
  unfold required_types.
  assert (H : ∀ init : gset string,
            x ∈ fold_left (λ required dep, required ∪ {[dep]}) dependencies init
            ↔ x ∈ init ∨ x ∈ dependencies).
  { induction dependencies as [|dep rest IH]; intros init; cbn [fold_left].
    - set_solver.
    - rewrite IH. set_solver. }
  rewrite H. set_solver.
Qed.

(** C6, as the code has it.  When the dependency walk of
    [primaryType] returns [found], with [required] the set
    [{EIP712Domain}] together with [found]: [_verifyTypes] raises
    [TypeCountMismatch] when the number of keys of [payload.types] is
    not the size of [required].  Otherwise the keys are checked one
    after the other, in key order, and the first key that fails
    decides: [UnknownType] when it is neither a registered name nor a
    member name of [Object.prototype], [FieldMismatch] when it is
    registered and its first claimed field that does not agree has no
    field of that name in the registered schema, or one with another
    declared type.  When every key is registered and every claimed
    field agrees, the payload is accepted: fields may be left out, and
    only the number of keys is compared with [required]. *)
Theorem verifyTypes_first_failure (this : EIP712Signer) (payload : EIP712Payload)
    (primary : string) (payload_types : list (string * EIP712Struct))
    (found : list string) :
  payload.(primaryType) = Some primary →
  payload.(types) = Some payload_types →
  _getDependenciesOf this primary = Ok found →
  let keys := map fst payload_types in
  let required := required_types found in
  (∀ x, x ∈ required ↔ x = "EIP712Domain" ∨ x ∈ found) ∧
  (length keys ≠ size required →
   _verifyTypes this payload = Err TypeCountMismatch) ∧
  (length keys = size required →
   (∀ passed type rest,
      keys = passed ++ type :: rest →
      Forall (λ k, check_type this payload_types k = Ok ()) passed →
      (this.(structs) !! type = None → inherited type = false →
       _verifyTypes this payload = Err (UnknownType type)) ∧
      (∀ registered current_type agreed field others,
         this.(structs) !! type = Some registered →
         types_get payload_types type = Some current_type →
         current_type = agreed ++ field :: others →
         Forall (field_agrees registered) agreed →
         (find_field registered (fname field) = None →
          _verifyTypes this payload
          = Err (FieldMismatch_unknown type (fname field))) ∧
         (∀ eq_field,
            find_field registered (fname field) = Some eq_field →
            ftype field ≠ ftype eq_field →
            _verifyTypes this payload
            = Err (FieldMismatch_type type (ftype field) (ftype eq_field))))) ∧
   (Forall (λ type, ∃ registered current_type,
              this.(structs) !! type = Some registered ∧
              types_get payload_types type = Some current_type ∧
              Forall (field_agrees registered) current_type) keys →
    _verifyTypes this payload = Ok ())).
Proof.
  intros Hprimary Htypes Hfound keys required.
  split; [apply elem_of_required_types|].
  unfold _verifyTypes. rewrite Hprimary, Htypes, Hfound.
  cbn [mbind outcome_bind]. fold keys required.
  split.
  { intros Hlen. by apply Nat.eqb_neq in Hlen as ->. }
  intros Hlen. rewrite Hlen, Nat.eqb_refl. cbn [negb]. split.
  - intros passed type rest -> Hpassed.
    rewrite (verifyTypes_loop_app this _ _ _ Hpassed), verifyTypes_loop_check.
    unfold check_type. split.
    + intros Hnone Hin.
      by rewrite (proj2 (structs_read_Undefined this type)).
    + intros registered current_type agreed field others Hreg -> -> Hagreed.
      rewrite (proj2 (structs_read_Struct this type registered) Hreg).
      rewrite (verifyFields_app _ _ _ _ Hagreed). cbn [verifyFields]. split.
      * by intros ->.
      * intros eq_field -> Hdiff.
        by apply String.eqb_neq in Hdiff as ->.
  - intros Hall. apply verifyTypes_loop_Ok.
    eapply Forall_impl; [exact Hall|].
    intros type (registered & current_type & Hreg & Hget & Hagree).
    unfold check_type.
    rewrite (proj2 (structs_read_Struct this type registered) Hreg), Hget.
    by apply verifyFields_agree.
Qed.

(** For the primary type [UselessType] two keys are required,
    [EIP712Domain] and [UselessType]; a payload that names [Mail],
    without fields, and [Person], with one of its fields, is
    accepted. *)
Lemma verifyTypes_first_failure_witness :
  _verifyTypes Fixture.EtherMail
    {| types := Some [("Mail", []); ("Person", [Field "wallet" "address"])];
       primaryType := Some "UselessType";
       message := Some VNull; domain := Some Fixture.domain;
       other_keys := [] |}
  = Ok ().
Proof.
  eapply (verifyTypes_first_failure Fixture.EtherMail _ "UselessType"
            [("Mail", []); ("Person", [Field "wallet" "address"])]
            ["UselessType"]);
    [reflexivity|reflexivity|vm_compute; reflexivity|vm_compute; reflexivity|].
  repeat constructor.
  - exists Fixture.Mail, []. repeat split. constructor.
  - exists Fixture.Person, [Field "wallet" "address"]. repeat split.
    repeat constructor. by exists (Field "wallet" "address").
Defined.

(** The first key is registered and claims a field with another type,
    the second key is not registered: the error is the
    [FieldMismatch] of the first key. *)
Lemma verifyTypes_mismatch_before_unknown :
  let payload :=
    {| types := Some [("EIP712Domain", [Field "name" "uint256"]);
                      ("Letter", [])];
       primaryType := Some "UselessType";
       message := Some VNull; domain := Some Fixture.domain;
       other_keys := [] |} in
  _getDependenciesOf Fixture.EtherMail "UselessType" = Ok ["UselessType"] ∧
  length (map fst (default [] payload.(types)))
  = size (required_types ["UselessType"]) ∧
  Fixture.EtherMail.(structs) !! "Letter" = None ∧
  inherited "Letter" = false ∧
  _verifyTypes Fixture.EtherMail payload
  = Err (FieldMismatch_type "EIP712Domain" "uint256" "string").
Proof. vm_compute. done. Qed.

(** ** Signature components: from the signer's words to padded text *)

Section BNFacts.

Local Open Scope N_scope.

Lemma of_bytes_N_snoc bs b :
  BN.of_bytes_N (bs ++ [b]) = BN.of_bytes_N bs * 256 + Byte.to_N b.
Proof. unfold BN.of_bytes_N. by rewrite fold_left_app. Qed.

Lemma of_bytes_N_zero bs : BN.of_bytes_N (Byte.x00 :: bs) = BN.of_bytes_N bs.
Proof. reflexivity. Qed.

Lemma to_N_lt b : Byte.to_N b < 256.
Proof. pose proof (Byte.to_N_bounded b). lia. Qed.

Lemma byte_of_to_N b : byte_of_N (Byte.to_N b) = b.
Proof. unfold byte_of_N. by rewrite Byte.of_to_N. Qed.

Lemma of_bytes_N_lt bs : BN.of_bytes_N bs < 256 ^ N.of_nat (length bs).
Proof.
  induction bs as [|b bs IH] using rev_ind; [done|].
  rewrite of_bytes_N_snoc, length_app, Nat.add_1_r, Nat2N.inj_succ, N.pow_succ_r'.
  pose proof (to_N_lt b). lia.
Qed.

(** Bytes whose first byte is not zero: the shortest form. *)
Definition shortest (bs : list byte) : Prop :=
  match bs with
  | [] => True
  | b :: _ => b ≠ Byte.x00
  end.

Lemma shortest_snoc bs b : shortest (bs ++ [b]) → shortest bs.
Proof. by destruct bs. Qed.

Lemma of_bytes_N_pos bs : shortest bs → bs ≠ [] → 0 < BN.of_bytes_N bs.
Proof.
  induction bs as [|b bs IH] using rev_ind; [done|]. intros Hs _.
  rewrite of_bytes_N_snoc. destruct bs as [|b0 bs].
  - cbn in *. destruct b; (done || by destruct Hs).
  - specialize (IH (shortest_snoc _ _ Hs) ltac:(done)). lia.
Qed.

Lemma bytes_loop_of_bytes bs : ∀ fuel acc,
  shortest bs → BN.of_bytes_N bs < 2 ^ N.of_nat fuel →
  BN.bytes_loop fuel (BN.of_bytes_N bs) acc = bs ++ acc.
Proof.
  induction bs as [|b bs IH] using rev_ind; intros fuel acc Hs Hfuel.
  - by destruct fuel.
  - pose proof (of_bytes_N_pos _ Hs ltac:(by destruct bs)) as Hpos.
    pose proof (to_N_lt b) as Hb.
    destruct fuel as [|fuel]; [cbn in Hfuel; lia|].
    cbn [BN.bytes_loop].
    destruct (N.eqb_spec (BN.of_bytes_N (bs ++ [b])) 0) as [Hz|_]; [lia|].
    rewrite of_bytes_N_snoc in *.
    replace ((BN.of_bytes_N bs * 256 + Byte.to_N b) / 256)
      with (BN.of_bytes_N bs)
      by (apply N.div_unique with (Byte.to_N b); lia).
    replace ((BN.of_bytes_N bs * 256 + Byte.to_N b) mod 256)
      with (Byte.to_N b)
      by (apply N.mod_unique with (BN.of_bytes_N bs); lia).
    rewrite byte_of_to_N, IH, <- app_assoc; [done|by eapply shortest_snoc|].
    rewrite Nat2N.inj_succ, N.pow_succ_r' in Hfuel. lia.
Qed.

(** Leading zero bytes removed. *)
Fixpoint strip_zeros (bs : list byte) : list byte :=
  match bs with
  | Byte.x00 :: bs' => strip_zeros bs'
  | _ => bs
  end.

Lemma strip_zeros_shortest bs : shortest (strip_zeros bs).
Proof. induction bs as [|b bs IH]; [done|]. destruct b; done. Qed.

Lemma of_bytes_N_strip bs : BN.of_bytes_N (strip_zeros bs) = BN.of_bytes_N bs.
Proof.
  induction bs as [|b bs IH]; [done|].
  destruct b; done.
Qed.

Lemma strip_zeros_split bs :
  ∃ k, bs = repeat Byte.x00 k ++ strip_zeros bs.
Proof.
  induction bs as [|b bs [k IH]]; [by exists 0%nat|].
  destruct b; try (by exists 0%nat).
  exists (S k). cbn [strip_zeros repeat app]. by rewrite <- IH.
Qed.

(** [toArray] of the number some bytes denote: those bytes without
    their leading zeros, or one zero byte. *)
Lemma toArray_of_bytes bs :
  BN.toArray (BN.of_bytes bs)
  = match strip_zeros bs with
    | [] => [Byte.x00]
    | _ => strip_zeros bs
    end.
Proof.
  unfold BN.toArray, BN.of_bytes. rewrite Zabs2N.id.
  rewrite <- (of_bytes_N_strip bs).
  pose proof (strip_zeros_shortest bs) as Hs.
  destruct (strip_zeros bs) as [|b bs'] eqn:E; [done|].
  pose proof (of_bytes_N_pos _ Hs ltac:(done)) as Hpos.
  destruct (N.eqb_spec (BN.of_bytes_N (b :: bs')) 0) as [Hz|_]; [lia|].
  rewrite bytes_loop_of_bytes, app_nil_r; [done|done|].
  rewrite N2Nat.id. apply N.size_gt.
Qed.

End BNFacts.

Section TwosComplement.

Local Open Scope Z_scope.

Lemma testbit_above (a n i : Z) :
  0 ≤ a < 2 ^ n → n ≤ i → Z.testbit a i = false.
Proof.
  intros [Ha Hlt] Hi. destruct (Z.eq_dec a 0) as [->|Hne].
  - apply Z.bits_0.
  - apply Z.bits_above_log2; [done|].
    assert (Z.log2 a < n) by (apply Z.log2_lt_pow2; lia). lia.
Qed.

(** On a number of at most [width] bits, [notn] is the complement to
    [2 ^ width - 1]. *)
Lemma notn_complement (width a : Z) :
  0 ≤ width → 0 ≤ a < 2 ^ width → BN.notn width a = 2 ^ width - 1 - a.
Proof.
  intros Hw Ha. unfold BN.notn.
  assert (Hland : Z.land a (Z.lxor a (Z.ones width)) = 0).
  { apply Z.bits_inj'. intros i Hi.
    rewrite Z.land_spec, Z.lxor_spec, Z.bits_0.
    destruct (Z.testbit a i) eqn:Hbit; [|done].
    destruct (Z.lt_ge_cases i width) as [Hlt|Hge].
    - by rewrite Z.ones_spec_low by lia.
    - by rewrite (testbit_above a width i) in Hbit. }
  apply Z.add_nocarry_lxor in Hland.
  rewrite <- Z.lxor_assoc, Z.lxor_nilpotent, Z.lxor_0_l in Hland.
  rewrite Z.ones_equiv in *. lia.
Qed.

(** Reading a 256-bit number as signed and writing it back as
    unsigned gives the number again. *)
Lemma toTwos_fromTwos (x : Z) :
  0 ≤ x < 2 ^ 256 → BN.toTwos 256 (BN.fromTwos 256 x) = x.
Proof.
  intros Hx. unfold BN.fromTwos.
  destruct (Z.testbit x (256 - 1)) eqn:Hbit.
  - assert (x ≠ 0) by (intros ->; by rewrite Z.bits_0 in Hbit).
    rewrite notn_complement by lia. unfold BN.toTwos.
    destruct (Z.ltb_spec (- (2 ^ 256 - 1 - x + 1)) 0); [|lia].
    rewrite notn_complement by lia. lia.
  - unfold BN.toTwos. destruct (Z.ltb_spec x 0); [lia|done].
Qed.

End TwosComplement.

Section Padding.

Lemma padWithZeroes_loop_cons (n : nat) (myString : string) :
  padWithZeroes_loop n (String "0" myString)
  = String "0" (padWithZeroes_loop n myString).
Proof.
  revert myString. induction n as [|n IH]; intros myString; [done|].
  cbn [padWithZeroes_loop]. by rewrite IH.
Qed.

Lemma to_hex_leading_zeros (k : nat) (bs : list byte) :
  to_hex (repeat Byte.x00 k ++ bs) = padWithZeroes_loop (2 * k) (to_hex bs).
Proof.
  induction k as [|k IH]; [done|].
  replace (2 * S k) with (S (S (2 * k))) by lia.
  cbn [repeat app to_hex padWithZeroes_loop].
  rewrite !padWithZeroes_loop_cons, <- IH. done.
Qed.

(** A 32-byte word, read as a number and written back through
    [_fromSigned], [_toUnsigned] and [_padWithZeroes], is its own
    64 hexadecimal digits. *)
Lemma padded_component (word : list byte) :
  length word = 32 →
  _padWithZeroes (to_hex (_toUnsigned (_fromSigned (hexlify word)))) 64
  = to_hex word.
Proof.
  intros Hlen. unfold _fromSigned, _toUnsigned.
  rewrite buffer_of_hex_hexlify, toTwos_fromTwos.
  2:{ unfold BN.of_bytes. pose proof (of_bytes_N_lt word) as Hlt.
      rewrite Hlen in Hlt. change (256 ^ N.of_nat 32)%N
        with (Z.to_N (2 ^ 256)) in Hlt. lia. }
  rewrite toArray_of_bytes.
  destruct (strip_zeros_split word) as [k Hsplit].
  destruct (strip_zeros word) as [|b rest] eqn:Hstrip.
  - rewrite app_nil_r in Hsplit. subst word.
    rewrite repeat_length in Hlen. by subst k.
  - rewrite Hsplit, to_hex_leading_zeros.
    unfold _padWithZeroes. f_equal. rewrite to_hex_length.
    rewrite Hsplit, length_app, repeat_length in Hlen. cbn [length] in *. lia.
Qed.

(** A recovery id below sixteen prints as one digit: no padding. *)
Lemma toString16_digit (v : Z) :
  (0 ≤ v < 16)%Z → BN.toString16 v = String (digit (Z.to_N v)) "".
Proof.
  intros Hv.
  assert (Hcases : v ∈ (Z.of_nat <$> seq 0 16)).
  { apply list_elem_of_fmap. exists (Z.to_nat v). split; [lia|].
    apply elem_of_seq. lia. }
  cbn in Hcases. set_unfold in Hcases.
  repeat (destruct Hcases as [->|Hcases]; [reflexivity|]). done.
Qed.

End Padding.

(** ** Claim C1 *)

(** A payload with exactly the four keys of the interface. *)
Definition four_keys (payload_types : list (string * EIP712Struct))
    (primary : string) (payload_message payload_domain : any) : EIP712Payload :=
  {| types := Some payload_types;
     primaryType := Some primary;
     message := Some payload_message;
     domain := Some payload_domain;
     other_keys := [] |}.

Lemma verifyMainPayloadField_four_keys payload_types primary payload_message
    payload_domain :
  _verifyMainPayloadField
    (four_keys payload_types primary payload_message payload_domain) = Ok ().
Proof. reflexivity. Qed.

(** C1, as the code has it.  For a payload whose top-level keys are
    exactly the four keys of the interface, [encode(payload, false)]
    is the hexadecimal rendering, after ["0x"], of the bytes [0x19],
    [0x01], then the struct hash of [payload.domain] for
    [EIP712Domain], then, unless [primaryType] is [EIP712Domain], the
    struct hash of [payload.message] for [primaryType]; an error of a
    struct hash is the error of [encode].  With a 32-byte keccak the
    rendered bytes are 34 when [primaryType] is [EIP712Domain] and 66
    otherwise. *)
Theorem encode_preimage (this : EIP712Signer)
    (keccak : list byte → list byte)
    (abi_encode : list string → list any → outcome (list byte))
    (payload_types : list (string * EIP712Struct)) (primary : string)
    (payload_message payload_domain : any) :
  (∀ data, length (keccak data) = 32) →
  let payload := four_keys payload_types primary payload_message payload_domain in
  encode this keccak abi_encode payload false
  = (domain_hash ← _hashData this keccak abi_encode "EIP712Domain" payload_domain;
     message_hashes ←
       (if String.eqb primary "EIP712Domain" then Ok []
        else message_hash ← _hashData this keccak abi_encode primary payload_message;
             Ok [buffer_of_hex message_hash]);
     Ok (hexlify ([Byte.x19; Byte.x01] ++ buffer_of_hex domain_hash
                  ++ concat message_hashes))) ∧
  (∀ encoded, encode this keccak abi_encode payload false = Ok encoded →
     ∃ domain_hash, _hashData this keccak abi_encode "EIP712Domain" payload_domain
                    = Ok (hexlify domain_hash) ∧
     length domain_hash = 32 ∧
     if String.eqb primary "EIP712Domain"
     then encoded = hexlify ([Byte.x19; Byte.x01] ++ domain_hash) ∧
          length ([Byte.x19; Byte.x01] ++ domain_hash) = 34
     else ∃ message_hash,
            _hashData this keccak abi_encode primary payload_message
            = Ok (hexlify message_hash) ∧
            encoded = hexlify ([Byte.x19; Byte.x01] ++ domain_hash ++ message_hash) ∧
            length ([Byte.x19; Byte.x01] ++ domain_hash ++ message_hash) = 66).
Proof.
  intros Hlen payload.
  assert (Hencode :
    encode this keccak abi_encode payload false
    = (domain_hash ← _hashData this keccak abi_encode "EIP712Domain" payload_domain;
       message_hashes ←
         (if String.eqb primary "EIP712Domain" then Ok []
          else message_hash ← _hashData this keccak abi_encode primary payload_message;
               Ok [buffer_of_hex message_hash]);
       Ok (hexlify ([Byte.x19; Byte.x01] ++ buffer_of_hex domain_hash
                    ++ concat message_hashes)))).
  { unfold encode, payload. rewrite verifyMainPayloadField_four_keys.
    cbn [four_keys domain primaryType message default from_option id].
    destruct (_hashData this keccak abi_encode "EIP712Domain" payload_domain)
      as [domain_hash|]; [|done].
    destruct (String.eqb primary "EIP712Domain"); cbn [negb].
    - cbn. by rewrite app_nil_r.
    - destruct (_hashData this keccak abi_encode primary payload_message); [|done].
      cbn. by rewrite app_nil_r. }
  split; [done|]. intros encoded Hencoded. rewrite Hencode in Hencoded.
  destruct (_hashData this keccak abi_encode "EIP712Domain" payload_domain)
    as [domain_hash|] eqn:Hdomain; [|done].
  apply hashData_is_keccak in Hdomain as [domain_bytes ->].
  exists (keccak domain_bytes). split; [done|]. split; [apply Hlen|].
  cbn [mbind outcome_bind] in Hencoded.
  rewrite buffer_of_hex_hexlify in Hencoded.
  destruct (String.eqb primary "EIP712Domain").
  - cbn [mbind outcome_bind concat] in Hencoded. rewrite app_nil_r in Hencoded.
    injection Hencoded as <-. split; [done|]. cbn [app length]. by rewrite Hlen.
  - destruct (_hashData this keccak abi_encode primary payload_message)
      as [message_hash|] eqn:Hmessage; [|done].
    apply hashData_is_keccak in Hmessage as [message_bytes ->].
    cbn [mbind outcome_bind concat] in Hencoded.
    rewrite buffer_of_hex_hexlify, app_nil_r in Hencoded.
    injection Hencoded as <-. exists (keccak message_bytes).
    split_and!; [done..|].
    cbn [app length]. rewrite length_app, !Hlen. done.
Qed.

(** The payload of the tests, and the same payload with
    [EIP712Domain] as its primary type. *)
Lemma encode_preimage_witness :
  (∃ domain_hash message_hash,
     encode Fixture.EtherMail Fixture.keccak Fixture.abi_encode Fixture_payload false
     = Ok (hexlify ([Byte.x19; Byte.x01] ++ domain_hash ++ message_hash)) ∧
     length ([Byte.x19; Byte.x01] ++ domain_hash ++ message_hash) = 66) ∧
  (∃ domain_hash,
     encode Fixture.EtherMail Fixture.keccak Fixture.abi_encode
       (four_keys Fixture_types "EIP712Domain" Fixture_message Fixture.domain) false
     = Ok (hexlify ([Byte.x19; Byte.x01] ++ domain_hash)) ∧
     length ([Byte.x19; Byte.x01] ++ domain_hash) = 34).
Proof.
  split.
  - destruct (encode_preimage Fixture.EtherMail Fixture.keccak Fixture.abi_encode
                Fixture_types "Mail" Fixture_message Fixture.domain)
      as [_ Hbytes]; [reflexivity|].
    destruct (encode Fixture.EtherMail Fixture.keccak Fixture.abi_encode
                (four_keys Fixture_types "Mail" Fixture_message Fixture.domain)
                false) as [encoded|] eqn:Hencode; [|by vm_compute in Hencode].
    destruct (Hbytes encoded eq_refl)
      as (domain_hash & _ & _ & message_hash & _ & -> & Hlen).
    exists domain_hash, message_hash. split; [exact Hencode|exact Hlen].
  - destruct (encode_preimage Fixture.EtherMail Fixture.keccak Fixture.abi_encode
                Fixture_types "EIP712Domain" Fixture_message Fixture.domain)
      as [_ Hbytes]; [reflexivity|].
    destruct (encode Fixture.EtherMail Fixture.keccak Fixture.abi_encode
                (four_keys Fixture_types "EIP712Domain" Fixture_message
                   Fixture.domain) false)
      as [encoded|] eqn:Hencode; [|by vm_compute in Hencode].
    destruct (Hbytes encoded eq_refl) as (domain_hash & _ & _ & -> & Hlen).
    exists domain_hash. split; [reflexivity|exact Hlen].
Defined.

(** With a fifth key the call is rejected, although both struct
    hashes exist. *)
Lemma encode_rejects_extra_key :
  let payload :=
    {| types := Some Fixture_types; primaryType := Some "Mail";
       message := Some Fixture_message; domain := Some Fixture.domain;
       other_keys := ["extra"] |} in
  encode Fixture.EtherMail Fixture.keccak Fixture.abi_encode payload false
  = Err InvalidPayloadShape_count ∧
  (∃ domain_hash message_hash,
     _hashData Fixture.EtherMail Fixture.keccak Fixture.abi_encode
       "EIP712Domain" Fixture.domain = Ok domain_hash ∧
     _hashData Fixture.EtherMail Fixture.keccak Fixture.abi_encode
       "Mail" Fixture_message = Ok message_hash).
Proof. split; [reflexivity|]. vm_compute. eauto. Qed.

(** ** Claim C3 *)

(** C3.  For a payload that [encode] accepts, with pre-image
    [encoded_payload]: [sign] with a raw private key asks the signer
    for a signature over the keccak-256 of the pre-image bytes, and
    from the signer's 32-byte [r] and [s] and its [v] it returns [r]
    and [s] as 64 hexadecimal characters each, zeros in front kept,
    [v] in hexadecimal without padding (one character when it is
    below sixteen), and [hex] as ["0x"] followed by [r], [s] and [v];
    [sign] with an external signer hands it the pre-image itself, not
    a digest, and returns what the signer returns. *)
Theorem sign_signature (this : EIP712Signer)
    (keccak : list byte → list byte)
    (abi_encode : list string → list any → outcome (list byte))
    (signDigest : string → list byte → outcome (string * string * Z))
    (payload : EIP712Payload) (verify_payload : bool) (encoded_payload : string) :
  encode this keccak abi_encode payload verify_payload = Ok encoded_payload →
  (∀ (privateKey : string) (r_word s_word : list byte) (v_id : Z),
     length r_word = 32 → length s_word = 32 →
     signDigest privateKey (keccak (buffer_of_hex encoded_payload))
     = Ok (hexlify r_word, hexlify s_word, v_id) →
     sign this keccak abi_encode signDigest (PrivateKey privateKey)
       payload verify_payload
     = Ok {| hex := "0x" +:+ to_hex r_word +:+ to_hex s_word
                    +:+ BN.toString16 v_id;
             v := v_id; s := to_hex s_word; r := to_hex r_word |} ∧
     String.length (to_hex r_word) = 64 ∧
     String.length (to_hex s_word) = 64 ∧
     ((0 ≤ v_id < 16)%Z →
      BN.toString16 v_id = String (digit (Z.to_N v_id)) "")) ∧
  (∀ signer : string → outcome EIP712Signature,
     sign this keccak abi_encode signDigest (ExternalSigner signer)
       payload verify_payload
     = signer encoded_payload).
Proof.
  intros Hencode. split.
  - intros privateKey r_word s_word v_id Hr Hs Hsign. split_and!.
    + unfold sign. rewrite Hencode. cbn [mbind outcome_bind].
      unfold keccak256. rewrite buffer_of_hex_hexlify, Hsign.
      cbn [mbind outcome_bind fst snd].
      by rewrite !padded_component.
    + rewrite to_hex_length. lia.
    + rewrite to_hex_length. lia.
    + apply toString16_digit.
  - intros signer. unfold sign. by rewrite Hencode.
Qed.

(** The payload of the tests, signed with the stand-in signer, whose
    [r] has 31 zero bytes in front and whose [v] is 27, and with an
    external signer that echoes what it is given. *)
Lemma sign_signature_witness :
  ∃ encoded_payload,
    encode Fixture.EtherMail Fixture.keccak Fixture.abi_encode Fixture_payload false
    = Ok encoded_payload ∧
    (∃ s_text,
       sign Fixture.EtherMail Fixture.keccak Fixture.abi_encode Fixture.signDigest
         (PrivateKey "0x01") Fixture_payload false
       = Ok {| hex := "0x" +:+
                      "000000000000000000000000000000000000000000000000000000000000002a"
                      +:+ s_text +:+ "1b";
               v := 27; s := s_text;
               r := "000000000000000000000000000000000000000000000000000000000000002a" |}
       ∧ String.length s_text = 64) ∧
    sign Fixture.EtherMail Fixture.keccak Fixture.abi_encode Fixture.signDigest
      (ExternalSigner (λ given, Ok {| hex := given; v := 0; s := ""; r := "" |}))
      Fixture_payload false
    = Ok {| hex := encoded_payload; v := 0; s := ""; r := "" |}.
Proof.
  destruct (encode Fixture.EtherMail Fixture.keccak Fixture.abi_encode
              Fixture_payload false) as [encoded_payload|] eqn:Hencode;
    [|by vm_compute in Hencode].
  exists encoded_payload. split; [reflexivity|].
  destruct (sign_signature Fixture.EtherMail Fixture.keccak Fixture.abi_encode
              Fixture.signDigest Fixture_payload false encoded_payload Hencode)
    as [Hraw Hexternal].
  split.
  - destruct (Hraw "0x01" (repeat Byte.x00 31 ++ [Byte.x2a])
                (Fixture.keccak (buffer_of_hex encoded_payload)) 27%Z)
      as (Hsign & _ & Hs & _); [reflexivity..|].
    eexists. split; [exact Hsign|exact Hs].
  - apply Hexternal.
Defined.

Example toString16_recovery_ids :
  BN.toString16 27 = "1b" ∧ BN.toString16 28 = "1c" ∧ BN.toString16 1 = "1".
Proof. done. Qed.

Example padWithZeroes_test :
  _padWithZeroes "abc" 62
  = "00000000000000000000000000000000000000000000000000000000000abc".
Proof. reflexivity. Qed.

(** ** Claim C9 *)

(** C9.  A name that no schema registers is to contribute nothing and
    stop the walk, and the code tests [this.structs[type] ===
    undefined] for that.  The test misses the names [this.structs]
    inherits from [Object.prototype]: on the signer of the
    repository's tests, [_getDependenciesOf('constructor')] and
    [_getDependenciesOf('toString[]')] push the name and end in the
    [TypeError] of iterating over a function, where a name that is
    equally unregistered, [uint256], gives the empty list; the same
    happens under a registered struct one of whose fields has such a
    type.  From outside, [verifyPayload] on the payload of the tests
    with [constructor] as [primaryType] ends in that [TypeError]. *)
Theorem getDependenciesOf_inherited_name :
  Fixture.EtherMail.(structs) !! "constructor" = None ∧
  _getDependenciesOf Fixture.EtherMail "constructor" = Err TypeError ∧
  _getDependenciesOf Fixture.EtherMail "toString[]" = Err TypeError ∧
  Fixture.EtherMail.(structs) !! "uint256" = None ∧
  _getDependenciesOf Fixture.EtherMail "uint256" = Ok [] ∧
  _getDependenciesOf Fixture.Holder "Holder" = Err TypeError ∧
  verifyPayload Fixture.EtherMail Fixture.keccak Fixture.abi_encode
    (four_keys Fixture_types "constructor" Fixture_message Fixture.domain)
  = Err TypeError.
Proof.
  split_and!.
  - vm_compute. reflexivity.
  - vm_compute. reflexivity.
  - vm_compute. reflexivity.
  - vm_compute. reflexivity.
  - vm_compute. reflexivity.
  - vm_compute. reflexivity.
  - vm_compute. reflexivity.
Qed.

(** * Further properties of the class *)

(** ** Registration: [_addType] and the constructor *)

Lemma addTypes_app (pre rest : list (string * EIP712Struct)) (this : EIP712Signer) :
  addTypes (pre ++ rest) this = this' ← addTypes pre this; addTypes rest this'.
Proof.
  revert this. induction pre as [|type pre IH]; intros this; [done|].
  cbn [app addTypes]. destruct (_addType type.1 type.2 this); [|done].
  cbn. apply IH.
Qed.

Lemma structs_read_initial (domain : any) (name : string) :
  structs_read (_setDomain domain initial) name = Undefined ↔
  name ≠ "EIP712Domain" ∧ inherited name = false.
Proof.
  rewrite structs_read_Undefined. cbn [structs _setDomain initial].
  rewrite lookup_singleton_None. naive_solver.
Qed.

(** X1.  The constructor succeeds exactly when the supplied names are
    pairwise distinct and none of them is [EIP712Domain] or the name
    of a member of [Object.prototype]; the instance then holds the
    given domain, the reserved [EIP712Domain] schema and every
    supplied schema under its name. *)
Theorem constructor_succeeds_iff (domain : any)
    (types : list (string * EIP712Struct)) (signer : EIP712Signer) :
  constructor domain types = Ok signer ↔
  NoDup types.*1 ∧ "EIP712Domain" ∉ types.*1 ∧
  Forall (λ name, inherited name = false) types.*1 ∧
  signer.(this_domain) = domain ∧
  signer.(structs) !! "EIP712Domain" = Some EIP712DomainType ∧
  (∀ name struct, (name, struct) ∈ types → signer.(structs) !! name = Some struct) ∧
  (∀ name, name ≠ "EIP712Domain" → name ∉ types.*1 →
     signer.(structs) !! name = None).
Proof.
  unfold constructor. split.
  - intros Hok. pose proof (addTypes_inv _ _ _ Hok) as [Hnd Hfresh].
    rewrite addTypes_ok in Hok by done. injection Hok as <-.
    cbn [structs this_domain _setDomain initial] in *.
    assert (Hdomain : "EIP712Domain" ∉ types.*1).
    { intros Hin. by apply Hfresh, structs_read_initial in Hin as [? _]. }
    split_and!; [done|done| |done| | |].
    + apply Forall_forall. intros name Hin.
      by apply Hfresh, structs_read_initial in Hin as [_ ?].
    + rewrite lookup_union_r by (by apply not_elem_of_list_to_map_1).
      apply lookup_singleton_eq.
    + intros name struct Hin. apply lookup_union_Some_l.
      by apply elem_of_list_to_map_1.
    + intros name Hne Hnot. apply lookup_union_None_2.
      * by apply not_elem_of_list_to_map_1.
      * by apply lookup_singleton_ne.
  - intros (Hnd & Hdomain & Hplain & Hd & Hreserved & Hin & Hout).
    rewrite addTypes_ok; [|done|].
    + f_equal. destruct signer as [registry stored]. cbn in *. subst stored.
      f_equal. apply map_eq. intros name.
      destruct (decide (name ∈ types.*1)) as [Hname|Hname].
      * apply list_elem_of_fmap in Hname as ([name' struct] & -> & Hmem).
        cbn. rewrite (Hin _ _ Hmem). apply lookup_union_Some_l.
        by apply elem_of_list_to_map_1.
      * rewrite lookup_union_r by (by apply not_elem_of_list_to_map_1).
        destruct (decide (name = "EIP712Domain")) as [->|Hne].
        -- by rewrite lookup_singleton_eq.
        -- rewrite lookup_singleton_ne by done. symmetry. by apply Hout.
    + intros name Hname. apply structs_read_initial. split.
      * by intros ->.
      * by apply (proj1 (Forall_forall _ _) Hplain).
Qed.

(** [new EtherMail()] of the tests. *)
Lemma constructor_succeeds_iff_witness :
  constructor Fixture.domain Fixture.types = Ok Fixture.EtherMail ∧
  Fixture.EtherMail.(structs) !! "Person" = Some Fixture.Person ∧
  Forall (λ name, inherited name = false) ["Mail"; "Person"; "UselessType"].
Proof.
  pose proof (constructor_succeeds_iff Fixture.domain Fixture.types
                Fixture.EtherMail) as [Hok _].
  split; [reflexivity|].
  destruct (Hok eq_refl) as (_ & _ & Hplain & _ & _ & Hin & _).
  split; [|exact Hplain].
  apply Hin. set_solver.
Defined.

(** X2.  After names the constructor accepts, a name that was
    registered before it, the reserved name [EIP712Domain], or the
    name of a member of [Object.prototype] fails the construction with
    [DuplicateType] for that name, whatever comes after it. *)
Theorem constructor_duplicate (domain : any)
    (pre post : list (string * EIP712Struct)) (name : string)
    (struct : EIP712Struct) :
  NoDup pre.*1 → "EIP712Domain" ∉ pre.*1 →
  Forall (λ name, inherited name = false) pre.*1 →
  name ∈ pre.*1 ∨ name = "EIP712Domain" ∨ inherited name = true →
  constructor domain (pre ++ (name, struct) :: post) = Err (DuplicateType name).
Proof.
  intros Hnd Hdomain Hplain Hname. unfold constructor.
  rewrite addTypes_app, addTypes_ok; [|done|].
  - cbn [mbind outcome_bind addTypes fst snd]. unfold _addType.
    set (this := {| structs := list_to_map pre ∪ _; this_domain := _ |}).
    enough (H : structs_read this name ≠ Undefined)
      by (by destruct (structs_read this name)).
    rewrite structs_read_Undefined. intros [Hnone Hin]. subst this.
    cbn [structs _setDomain initial] in Hnone.
    apply lookup_union_None in Hnone as [Hpre Hinit].
    destruct Hname as [Hmem|[->|Hmember]].
    + by apply not_elem_of_list_to_map in Hpre.
    + by rewrite lookup_singleton_eq in Hinit.
    + congruence.
  - intros name' Hname'. apply structs_read_initial. split.
    + by intros ->.
    + by apply (proj1 (Forall_forall _ _) Hplain).
Qed.

(** [new UnbuildableEtherMail()] of the tests registers
    [EIP712Domain] itself; a type named [toString] is refused in the
    same way. *)
Lemma constructor_duplicate_witness :
  constructor Fixture.domain
    [("Mail", Fixture.Mail); ("Person", Fixture.Person);
     ("EIP712Domain", EIP712DomainType)]
  = Err (DuplicateType "EIP712Domain") ∧
  constructor Fixture.domain [("toString", [Field "text" "string"])]
  = Err (DuplicateType "toString").
Proof.
  split.
  - apply (constructor_duplicate Fixture.domain
             [("Mail", Fixture.Mail); ("Person", Fixture.Person)] []
             "EIP712Domain" EIP712DomainType).
    + cbn. repeat (apply NoDup_cons; split; [set_solver|]). constructor.
    + cbn. set_solver.
    + repeat constructor.
    + right. by left.
  - apply (constructor_duplicate Fixture.domain [] []
             "toString" [Field "text" "string"]).
    + constructor.
    + cbn. set_solver.
    + constructor.
    + right. right. reflexivity.
Defined.

(** ** The shape check *)

(** X3.  [_verifyMainPayloadField] accepts a payload exactly when its
    own keys are the four required keys, each once, in any order. *)
Theorem verifyMainPayloadField_iff (payload : EIP712Payload) :
  _verifyMainPayloadField payload = Ok () ↔
  REQUIRED_FIELDS ≡ₚ Object_keys payload.
Proof.
  split; [apply verifyMainPayloadField_Ok|].
  intros Hperm. unfold _verifyMainPayloadField.
  rewrite <- (Permutation_length Hperm), Nat.eqb_refl. cbn [negb].
  apply verifyRequired_Ok. intros req Hreq. by rewrite <- Hperm.
Qed.

Lemma verifyMainPayloadField_iff_witness :
  _verifyMainPayloadField Fixture_payload = Ok ().
Proof.
  apply (verifyMainPayloadField_iff Fixture_payload).
  cbn. unfold REQUIRED_FIELDS.
  apply (Permutation_cons_app ["types"; "primaryType"; "message"] []).
  rewrite app_nil_r.
  apply (Permutation_cons_app [] ["primaryType"; "message"]).
  apply (Permutation_cons_app ["primaryType"] []). reflexivity.
Defined.

(** ** [_padWithZeroes] *)

(** [k] characters ['0']. *)
Fixpoint zeroes (k : nat) : string :=
  match k with
  | O => ""
  | S k' => String "0" (zeroes k')
  end.

Lemma padWithZeroes_loop_zeroes (k : nat) (myString : string) :
  padWithZeroes_loop k myString = zeroes k +:+ myString.
Proof.
  induction k as [|k IH]; [done|]. cbn [padWithZeroes_loop zeroes].
  rewrite padWithZeroes_loop_cons, IH. done.
Qed.

Lemma zeroes_length (k : nat) : String.length (zeroes k) = k.
Proof. induction k as [|k IH]; cbn; [done|by rewrite IH]. Qed.

(** X4.  [_padWithZeroes(toPad, length)] only ever adds ['0']
    characters in front: the result is [toPad] after
    [length - toPad.length] zeros, its length is the larger of
    [length] and [toPad.length], and a string that is already long
    enough comes back unchanged, never cut. *)
Theorem padWithZeroes_spec (toPad : string) (length : nat) :
  _padWithZeroes toPad length
  = zeroes (length - String.length toPad) +:+ toPad ∧
  String.length (_padWithZeroes toPad length)
  = Nat.max length (String.length toPad) ∧
  (length ≤ String.length toPad → _padWithZeroes toPad length = toPad).
Proof.
  unfold _padWithZeroes. rewrite padWithZeroes_loop_zeroes. split_and!.
  - done.
  - rewrite string_length_app, zeroes_length. lia.
  - intros Hlen. by replace (length - String.length toPad) with 0 by lia.
Qed.

Lemma padWithZeroes_spec_witness :
  _padWithZeroes "0123456789" 4 = "0123456789".
Proof.
  destruct (padWithZeroes_spec "0123456789" 4) as (_ & _ & Hlong).
  apply Hlong. cbn. lia.
Defined.

(** ** The domain check *)

Section VerifyDomainFacts.

Variable this : EIP712Signer.

Lemma get_own (props : list (string * any)) (key : string) :
  get (VObj props) key = Ok (own props key).
Proof.
  unfold get. rewrite read_with_own by done. by destruct (own props key).
Qed.

Lemma verifyDomain_loop_app (props : list (string * any))
    (present rest : EIP712Struct) :
  Forall (λ field, is_set (own props (fname field)) = true) present →
  verifyDomain_loop (VObj props) (present ++ rest)
  = verifyDomain_loop (VObj props) rest.
Proof.
  induction 1 as [|field present Hset _ IH]; [done|].
  cbn [app verifyDomain_loop]. rewrite get_own. cbn.
  by destruct (own props (fname field)).
Qed.

Lemma verifyDomain_loop_Ok (props : list (string * any)) (fields : EIP712Struct) :
  verifyDomain_loop (VObj props) fields = Ok () →
  Forall (λ field, is_set (own props (fname field)) = true) fields.
Proof.
  induction fields as [|field rest IH]; [constructor|].
  cbn [verifyDomain_loop]. rewrite get_own. cbn [mbind outcome_bind].
  destruct (own props (fname field)) eqn:Hfield; [done|..];
    intros Hrest; (constructor; [by rewrite Hfield|by apply IH]).
Qed.

End VerifyDomainFacts.

(** X5.  On a domain record, [_verifyDomain] passes exactly when every
    field of the registered [EIP712Domain] schema is set, [null]
    counting as set; otherwise it raises [MissingDomainField] for the
    first field of the schema, in schema order, that is unset.  A
    domain that is [null] or absent is a [TypeError] as soon as the
    schema has a field. *)
Theorem verifyDomain_spec (this : EIP712Signer) (payload : EIP712Payload)
    (fields : EIP712Struct) :
  this.(structs) !! "EIP712Domain" = Some fields →
  (∀ props, payload.(domain) = Some (VObj props) →
     (_verifyDomain this payload = Ok () ↔
      Forall (λ field, is_set (own props (fname field)) = true) fields) ∧
     (∀ present field rest,
        fields = present ++ field :: rest →
        Forall (λ field, is_set (own props (fname field)) = true) present →
        own props (fname field) = VUndefined →
        _verifyDomain this payload = Err (MissingDomainField (fname field)))) ∧
  (fields ≠ [] →
   payload.(domain) = None ∨ payload.(domain) = Some VNull →
   _verifyDomain this payload = Err TypeError).
Proof.
  intros Hreg. unfold _verifyDomain. rewrite Hreg. split.
  - intros props ->. cbn [default from_option id]. split.
    + split.
      * apply verifyDomain_loop_Ok.
      * intros Hall. rewrite <- (app_nil_r fields).
        by rewrite verifyDomain_loop_app.
    + intros present field rest -> Hpresent Hunset.
      rewrite verifyDomain_loop_app by done.
      cbn [verifyDomain_loop]. rewrite get_own. cbn. by rewrite Hunset.
  - intros Hne Hdomain. destruct fields as [|field rest]; [done|].
    by destruct Hdomain as [-> | ->].
Qed.

(** The domain of the tests passes; without [chainId] the check
    raises [MissingDomainField] for [chainId]. *)
Lemma verifyDomain_spec_witness :
  _verifyDomain Fixture.EtherMail Fixture_payload = Ok () ∧
  _verifyDomain Fixture.EtherMail
    (four_keys Fixture_types "Mail" Fixture_message
       (VObj [("name", VStr "Ether Mail"); ("version", VNull)]))
  = Err (MissingDomainField "chainId").
Proof.
  split.
  - destruct (verifyDomain_spec Fixture.EtherMail Fixture_payload
                EIP712DomainType eq_refl) as [Hrecord _].
    destruct (Hrecord _ eq_refl) as [[_ Hall] _].
    apply Hall. repeat constructor.
  - destruct (verifyDomain_spec Fixture.EtherMail
                (four_keys Fixture_types "Mail" Fixture_message
                   (VObj [("name", VStr "Ether Mail"); ("version", VNull)]))
                EIP712DomainType eq_refl) as [Hrecord _].
    destruct (Hrecord _ eq_refl) as [_ Hfirst].
    apply (Hfirst (firstn 2 EIP712DomainType) (Field "chainId" "uint256")
             [Field "verifyingContract" "address"]); [reflexivity| |reflexivity].
    repeat constructor.
Defined.

(** ** [verifyPayload] and [encode] *)

(** X6.  [verifyPayload(payload)] fails exactly as
    [encode(payload, true)] fails, with the same error, and succeeds
    when it succeeds; and the checks do not change the pre-image: what
    [encode(payload, true)] returns, [encode(payload, false)] returns
    too. *)
Theorem verifyPayload_encode (this : EIP712Signer)
    (keccak : list byte → list byte)
    (abi_encode : list string → list any → outcome (list byte))
    (payload : EIP712Payload) :
  verifyPayload this keccak abi_encode payload
  = (_ ← encode this keccak abi_encode payload true; Ok ()) ∧
  (∀ encoded, encode this keccak abi_encode payload true = Ok encoded →
              encode this keccak abi_encode payload false = Ok encoded).
Proof.
  unfold verifyPayload, encode.
  destruct (_verifyMainPayloadField payload) as [[]|e]; [|done].
  cbn [mbind outcome_bind].
  destruct (_verifyTypes this payload) as [[]|e]; [|done].
  cbn [mbind outcome_bind].
  destruct (_verifyDomain this payload) as [[]|e]; [|done].
  cbn [mbind outcome_bind].
  destruct (_verifyPrimaryType this payload) as [[]|e]; [|done].
  cbn [mbind outcome_bind]. split; [|done].
  destruct (_hashData this keccak abi_encode "EIP712Domain" _); [|done].
  cbn [mbind outcome_bind]. destruct (primaryType payload); [|done].
  by destruct (mbind _ _).
Qed.

(** ** Unregistered names *)

(** X7.  For a name that is not registered, [_encodeType],
    [_hashType], [_encodeData] and [_hashData] all end in a
    [TypeError]: that of reading [this.structs[name].map], or that of
    the dependency walk.  So [encode(payload, false)] with an
    unregistered [primaryType] (and a domain that hashes) raises that
    [TypeError]; [_verifyPrimaryType] raises [UnknownPrimaryType] for
    such a name, unless it is the name of a member of
    [Object.prototype], which it accepts. *)
Theorem unregistered_type_TypeError (this : EIP712Signer)
    (keccak : list byte → list byte)
    (abi_encode : list string → list any → outcome (list byte))
    (name : string) :
  this.(structs) !! name = None →
  _encodeType this name = Err TypeError ∧
  _hashType this keccak name = Err TypeError ∧
  (∀ payload, _encodeData this keccak abi_encode name payload = Err TypeError ∧
              _hashData this keccak abi_encode name payload = Err TypeError) ∧
  (∀ payload_types payload_message payload_domain domain_hash,
     _hashData this keccak abi_encode "EIP712Domain" payload_domain = Ok domain_hash →
     encode this keccak abi_encode
       (four_keys payload_types name payload_message payload_domain) false
     = Err TypeError ∧
     _verifyPrimaryType this
       (four_keys payload_types name payload_message payload_domain)
     = if inherited name then Ok () else Err (UnknownPrimaryType name)).
Proof.
  intros Hreg.
  assert (Htype : _encodeType this name = Err TypeError).
  { unfold _encodeType.
    destruct (_getDependenciesOf this name) as [found|e] eqn:Hfound.
    - cbn [mbind outcome_bind encodeType_loop].
      destruct (structs_read this name) as [|fields|] eqn:Hread; [done| |done].
      apply structs_read_Struct in Hread. congruence.
    - by apply getDependenciesOf_TypeError in Hfound as ->. }
  assert (Hhash : _hashType this keccak name = Err TypeError)
    by (unfold _hashType; by rewrite Htype).
  assert (Hdata : ∀ payload,
            _encodeData this keccak abi_encode name payload = Err TypeError)
    by (intros payload; unfold _encodeData, encodeData_with; by rewrite Hhash).
  assert (Hstruct : ∀ payload,
            _hashData this keccak abi_encode name payload = Err TypeError).
  { intros payload. specialize (Hdata payload).
    unfold _hashData, hashData_with, _encodeData in *. by rewrite Hdata. }
  split_and!; [done..|by split|].
  intros payload_types payload_message payload_domain domain_hash Hdomain. split.
  - unfold encode. rewrite verifyMainPayloadField_four_keys.
    cbn [mbind outcome_bind four_keys domain primaryType message default
         from_option id].
    rewrite Hdomain. cbn [mbind outcome_bind].
    destruct (String.eqb_spec name "EIP712Domain") as [->|_].
    + unfold _hashData, hashData_with, encodeData_with in Hdomain.
      by rewrite Hhash in Hdomain.
    + cbn [negb]. by rewrite Hstruct.
  - unfold _verifyPrimaryType. cbn [four_keys primaryType default from_option id].
    unfold structs_read. rewrite Hreg. by destruct (inherited name).
Qed.

(** An unregistered primary type, and the name of an inherited
    member as primary type. *)
Lemma unregistered_type_TypeError_witness :
  encode Fixture.EtherMail Fixture.keccak Fixture.abi_encode
    (four_keys Fixture_types "Letter" Fixture_message Fixture.domain) false
  = Err TypeError ∧
  _verifyPrimaryType Fixture.EtherMail
    (four_keys Fixture_types "Letter" Fixture_message Fixture.domain)
  = Err (UnknownPrimaryType "Letter") ∧
  _verifyPrimaryType Fixture.EtherMail
    (four_keys Fixture_types "constructor" Fixture_message Fixture.domain)
  = Ok ().
Proof.
  destruct (unregistered_type_TypeError Fixture.EtherMail Fixture.keccak
              Fixture.abi_encode "Letter" eq_refl) as (_ & _ & _ & Hencode).
  destruct (unregistered_type_TypeError Fixture.EtherMail Fixture.keccak
              Fixture.abi_encode "constructor" eq_refl) as (_ & _ & _ & Hmember).
  destruct (_hashData Fixture.EtherMail Fixture.keccak Fixture.abi_encode
              "EIP712Domain" Fixture.domain) as [domain_hash|] eqn:Hdomain;
    [|by vm_compute in Hdomain].
  destruct (Hencode Fixture_types Fixture_message Fixture.domain
              domain_hash Hdomain) as [Hletter Hunknown].
  destruct (Hmember Fixture_types Fixture_message Fixture.domain
              domain_hash Hdomain) as [_ Haccepted].
  split_and!; [exact Hletter|exact Hunknown|exact Haccepted].
Defined.

(** ** Records that are not there *)

(** X8.  [_encodeData] reads the record once per declared field.  For
    a registered type without fields, whose type hash exists, the
    record is never read: any value, [null] and [undefined] included,
    encodes to the ABI encoding of the type hash alone.  For a type
    with at least one field, a record that is [null] or [undefined] is
    a [TypeError], and an empty record raises [MissingField] for the
    first declared field, unless that field has the name of a member
    of [Object.prototype]. *)
Theorem encodeData_absent_record (this : EIP712Signer)
    (keccak : list byte → list byte)
    (abi_encode : list string → list any → outcome (list byte))
    (name : string) (fields : EIP712Struct) (hashType : string) :
  this.(structs) !! name = Some fields →
  _hashType this keccak name = Ok hashType →
  (fields = [] →
   ∀ payload, _encodeData this keccak abi_encode name payload
              = abie_encode abi_encode ["bytes32"] [VStr hashType]) ∧
  (∀ field rest, fields = field :: rest →
     _encodeData this keccak abi_encode name VNull = Err TypeError ∧
     _encodeData this keccak abi_encode name VUndefined = Err TypeError ∧
     (inherited (fname field) = false →
      _encodeData this keccak abi_encode name (VObj [])
      = Err (MissingField name (fname field)))).
Proof.
  intros Hreg Hhash.
  unfold _encodeData, encodeData_with.
  rewrite Hhash, (proj2 (structs_read_Struct this name fields) Hreg).
  cbn [mbind outcome_bind]. split.
  - by intros ->.
  - intros field rest ->. split_and!; [done|done|].
    intros Hplain. cbn [encodeData_loop read_with lookup_with].
    by rewrite Hplain.
Qed.

(** [EIP712Domain] has fields; a registry with an empty [Marker] type
    encodes any value for it. *)
Lemma encodeData_absent_record_witness :
  _encodeData Fixture.EtherMail Fixture.keccak Fixture.abi_encode
    "EIP712Domain" VNull = Err TypeError ∧
  _encodeData Fixture.EtherMail Fixture.keccak Fixture.abi_encode
    "EIP712Domain" (VObj []) = Err (MissingField "EIP712Domain" "name") ∧
  (∃ encoded,
     _encodeData {| structs := <["Marker" := []]> initial.(structs);
                    this_domain := VNull |}
       Fixture.keccak Fixture.abi_encode "Marker" VUndefined = Ok encoded).
Proof.
  split_and!.
  - destruct (encodeData_absent_record Fixture.EtherMail Fixture.keccak
                Fixture.abi_encode "EIP712Domain" EIP712DomainType
                (keccak256 Fixture.keccak
                   (utf8 ("EIP712Domain(string name,string version," +:+
                          "uint256 chainId,address verifyingContract)"))))
      as (_ & Hfields); [reflexivity|vm_compute; reflexivity|].
    by destruct (Hfields _ _ eq_refl) as [Hnull _].
  - destruct (encodeData_absent_record Fixture.EtherMail Fixture.keccak
                Fixture.abi_encode "EIP712Domain" EIP712DomainType
                (keccak256 Fixture.keccak
                   (utf8 ("EIP712Domain(string name,string version," +:+
                          "uint256 chainId,address verifyingContract)"))))
      as (_ & Hfields); [reflexivity|vm_compute; reflexivity|].
    destruct (Hfields _ _ eq_refl) as (_ & _ & Hempty).
    apply Hempty. reflexivity.
  - destruct (encodeData_absent_record
                {| structs := <["Marker" := []]> initial.(structs);
                   this_domain := VNull |}
                Fixture.keccak Fixture.abi_encode "Marker" []
                (keccak256 Fixture.keccak (utf8 "Marker()")))
      as (Hempty & _); [reflexivity|vm_compute; reflexivity|].
    rewrite (Hempty eq_refl). by eexists.
Defined.

Lemma verifyPayload_encode_witness :
  ∃ encoded,
    encode Fixture.EtherMail Fixture.keccak Fixture.abi_encode Fixture_payload true
    = Ok encoded ∧
    encode Fixture.EtherMail Fixture.keccak Fixture.abi_encode Fixture_payload false
    = Ok encoded.
Proof.
  destruct (verifyPayload_encode Fixture.EtherMail Fixture.keccak
              Fixture.abi_encode Fixture_payload) as [_ Hsame].
  destruct (encode Fixture.EtherMail Fixture.keccak Fixture.abi_encode
              Fixture_payload true) as [encoded|] eqn:Hencode;
    [|by vm_compute in Hencode].
  exists encoded. split; [reflexivity|]. apply Hsame. reflexivity.
Defined.

(** ** Dependency resolution: closure *)

Section Closure.

Variable this : EIP712Signer.

(** A field is closed in a set of names when the registered struct
    its type resolves to, if any, is in the set. *)
Definition field_closed (inside : gset string) (field : EIP712StructField) : Prop :=
  is_Some (this.(structs) !! element_type (ftype field)) →
  element_type (ftype field) ∈ inside.

Definition closed (inside : gset string) (t : string) : Prop :=
  ∀ fields, this.(structs) !! t = Some fields → Forall (field_closed inside) fields.

Lemma closed_mono (inside inside' : gset string) (t : string) :
  inside ⊆ inside' → closed inside t → closed inside' t.
Proof.
  intros Hsub Hclosed fields Hfields.
  eapply Forall_impl; [by apply Hclosed|]. intros field Hfield Hreg.
  apply Hsub. by apply Hfield.
Qed.

Lemma dependencies_loop_prefix visit fields result met out :
  dependencies_loop visit fields result met = Some (Ok out) →
  ∃ tail, out.1 = result ++ tail.
Proof.
  revert result met. induction fields as [|field rest IH]; intros result met.
  - intros [= <-]. exists []. by rewrite app_nil_r.
  - cbn [dependencies_loop].
    destruct (visit (ftype field) met) as [[[r met']|e]|]; [|done|done].
    intros [tail Htail]%IH. exists (r ++ tail). by rewrite Htail, app_assoc.
Qed.

(** With a visit that never runs out of fuel, the loop does not
    either. *)
Lemma dependencies_loop_total
    (visit : string → gset string → outcome (list string * gset string))
    fields result met :
  is_Some (dependencies_loop (λ t m, Some (visit t m)) fields result met).
Proof.
  revert result met. induction fields as [|field rest IH]; intros result met; [done|].
  cbn [dependencies_loop]. destruct (visit (ftype field) met) as [[r met']|e]; [|done].
  apply IH.
Qed.

(** After a visit, the struct the type resolves to has been met. *)
Lemma getDependenciesOf_fuel_target fuel type met out :
  getDependenciesOf_fuel this fuel type met = Some (Ok out) →
  is_Some (this.(structs) !! element_type type) →
  element_type type ∈ out.2.
Proof.
  revert type met out. induction fuel as [|fuel IH]; intros type met out H Hreg;
    [done|].
  pose proof (getDependenciesOf_fuel_post this _ _ _ _ H) as (_ & _ & Hout).
  cbn [getDependenciesOf_fuel] in H. rewrite element_type_unfold in Hreg |- *.
  destruct (ends_by_brackets type); [by eapply IH|].
  case_bool_decide as Hmet; [by injection H as <-|].
  destruct Hreg as [fields Hs].
  rewrite (proj2 (structs_read_Struct this type fields) Hs) in H.
  apply dependencies_loop_prefix in H as [tail Htail].
  rewrite Hout, Htail. set_solver.
Qed.

Lemma dependencies_loop_closed fuel fields :
  (∀ type met out, getDependenciesOf_fuel this fuel type met = Some (Ok out) →
                   ∀ t, t ∈ out.1 → closed out.2 t) →
  ∀ result met out,
    dependencies_loop (getDependenciesOf_fuel this fuel) fields result met
    = Some (Ok out) →
    Forall (field_closed out.2) fields ∧
    (∀ t, t ∈ out.1 → t ∈ result ∨ closed out.2 t) ∧
    met ⊆ out.2.
Proof.
  intros IH. induction fields as [|field rest IHf]; intros result met out.
  - intros [= <-]. split_and!; [constructor|by left|done].
  - cbn [dependencies_loop].
    destruct (getDependenciesOf_fuel this fuel (ftype field) met)
      as [[[r met']|e]|] eqn:E; [|done|done].
    intros Hloop. destruct (IHf _ _ _ Hloop) as (Hrest & Hin & Hsub).
    pose proof (getDependenciesOf_fuel_post this _ _ _ _ E) as (_ & _ & Hmet').
    cbn in Hmet'. split_and!.
    + constructor; [|done]. intros Hreg. apply Hsub.
      by apply (getDependenciesOf_fuel_target _ _ _ _ E).
    + intros t Ht. destruct (Hin t Ht) as [[Hres|Hr]%elem_of_app|Hc]; auto.
      right. eapply closed_mono; [exact Hsub|]. by apply (IH _ _ _ E).
    + set_solver.
Qed.

(** Every name a visit returns has all its fields closed in the
    names met so far. *)
Lemma getDependenciesOf_fuel_closed fuel type met out :
  getDependenciesOf_fuel this fuel type met = Some (Ok out) →
  ∀ t, t ∈ out.1 → closed out.2 t.
Proof.
  revert type met out. induction fuel as [|fuel IH]; intros type met out; [done|].
  cbn [getDependenciesOf_fuel].
  destruct (ends_by_brackets type); [apply IH|].
  case_bool_decide as Hmet; [by intros [= <-] t ?%elem_of_nil|].
  destruct (structs_read this type) as [|fields|] eqn:Hs;
    [by intros [= <-] t ?%elem_of_nil| |done].
  apply structs_read_Struct in Hs.
  intros Hloop t Ht.
  destruct (dependencies_loop_closed fuel fields IH _ _ _ Hloop)
    as (Hfields & Hin & _).
  destruct (Hin t Ht) as [Hself|Hc]; [|done].
  apply list_elem_of_singleton in Hself. subst t.
  intros fields' Hfields'. by simplify_eq.
Qed.

End Closure.

(** Closure, first element and the empty case of the walk. *)
Lemma getDependenciesOf_closure (this : EIP712Signer) (type : string)
    (found : list string) :
  _getDependenciesOf this type = Ok found →
  (∀ t fields field,
     t ∈ found →
     this.(structs) !! t = Some fields → field ∈ fields →
     is_Some (this.(structs) !! element_type (ftype field)) →
     element_type (ftype field) ∈ found) ∧
  (is_Some (this.(structs) !! element_type type) →
   ∃ others, found = element_type type :: others) ∧
  (this.(structs) !! element_type type = None → found = []).
Proof.
  intros [met Hwalk]%getDependenciesOf_Ok.
  pose proof (getDependenciesOf_met_fuel this _ type ∅ (Nat.le_refl _)) as Hvisit.
  rewrite Hwalk in Hvisit.
  pose proof (getDependenciesOf_fuel_post this _ _ _ _ Hvisit) as (_ & _ & Hout).
  cbn [fst snd] in Hout.
  assert (Hmet : ∀ x, x ∈ met ↔ x ∈ found) by (intros x; rewrite Hout; set_solver).
  split_and!.
  - intros t fields field Ht Hfields Hfield Hreg. apply Hmet.
    pose proof (getDependenciesOf_fuel_closed this _ _ _ _ Hvisit t Ht fields Hfields)
      as Hclosed.
    rewrite Forall_forall in Hclosed. by apply Hclosed.
  - intros Hreg. clear Hvisit Hout Hmet.
    remember (String.length type) as n eqn:Hn.
    revert type Hn Hreg Hwalk. induction n as [n IH] using lt_wf_ind.
    intros type -> Hreg.
    rewrite getDependenciesOf_met_unfold. rewrite element_type_unfold in Hreg |- *.
    destruct (ends_by_brackets type) eqn:Harr.
    { eapply IH; [|done..]. by apply extract_type_shorter. }
    rewrite bool_decide_eq_false_2 by set_solver.
    destruct Hreg as [fields Hs].
    rewrite (proj2 (structs_read_Struct this type fields) Hs).
    destruct (dependencies_loop_total (getDependenciesOf_met this) fields [type]
                ({[type]} ∪ ∅)) as [res Hloop].
    rewrite Hloop. cbn [default from_option id]. intros ->.
    apply dependencies_loop_prefix in Hloop as [tail Htail].
    exists tail. exact Htail.
  - intros Hnone. clear Hvisit Hout Hmet.
    remember (String.length type) as n eqn:Hn.
    revert type Hn Hnone Hwalk. induction n as [n IH] using lt_wf_ind.
    intros type -> Hnone.
    rewrite getDependenciesOf_met_unfold. rewrite element_type_unfold in Hnone.
    destruct (ends_by_brackets type) eqn:Harr.
    { eapply IH; [|done..]. by apply extract_type_shorter. }
    rewrite bool_decide_eq_false_2 by set_solver.
    unfold structs_read. rewrite Hnone.
    destruct (inherited type); [done|]. by intros [= <- _].
Qed.


(** X9.  When the walk [_getDependenciesOf(type)] returns, its list is
    closed under "field of": for every name in it, every field whose
    declared type resolves (suffixes stripped as the walk strips them)
    to a registered struct has that struct in the list too.  When
    [type] itself resolves to a registered struct, that struct is the
    first element; otherwise the list is empty. *)
Theorem getDependenciesOf_closed (this : EIP712Signer) (type : string)
    (found : list string) :
  _getDependenciesOf this type = Ok found →
  (∀ t fields field,
     t ∈ found →
     this.(structs) !! t = Some fields → field ∈ fields →
     is_Some (this.(structs) !! element_type (ftype field)) →
     element_type (ftype field) ∈ found) ∧
  (is_Some (this.(structs) !! element_type type) →
   ∃ others, found = element_type type :: others) ∧
  (this.(structs) !! element_type type = None → found = []).
Proof. apply getDependenciesOf_closure. Qed.

(** In the cyclic registry: [Edge] is reached from [Node] through
    [Edge[][]], and [Node] is first. *)
Lemma getDependenciesOf_closed_witness :
  "Edge" ∈ ["Node"; "Edge"] ∧
  ∃ others, ["Node"; "Edge"] = "Node" :: others.
Proof.
  destruct (getDependenciesOf_closed Fixture.Cyclic "Node[]" ["Node"; "Edge"])
    as (Hclosed & Hfirst & _); [vm_compute; reflexivity|].
  split.
  - apply (Hclosed "Node" Fixture.Node (Field "edges" "Edge[][]")).
    + set_solver.
    + reflexivity.
    + set_solver.
    + vm_compute. eauto.
  - apply Hfirst. vm_compute. eauto.
Defined.

(** ** [generatePayload] *)

Section GeneratePayload.

Variable this : EIP712Signer.

Lemma types_get_set (key key' : string) (struct : EIP712Struct)
    (types : list (string * EIP712Struct)) :
  types_get (types_set key struct types) key'
  = if String.eqb key key' then Some struct else types_get types key'.
Proof.
  induction types as [|[k old] rest IH]; [done|]. cbn [types_set].
  destruct (String.eqb_spec k key) as [->|Hk]; cbn [types_get].
  - by destruct (String.eqb key key').
  - rewrite IH. destruct (String.eqb_spec k key') as [->|Hk']; [|done].
    by rewrite (proj2 (String.eqb_neq key key')).
Qed.

Lemma types_set_keys (key : string) (struct : EIP712Struct)
    (types : list (string * EIP712Struct)) :
  map fst (types_set key struct types)
  = if bool_decide (key ∈ map fst types) then map fst types
    else map fst types ++ [key].
Proof.
  induction types as [|[k old] rest IH]; [done|]. cbn [types_set map fst].
  destruct (String.eqb_spec k key) as [->|Hk]; cbn [map fst].
  - by rewrite bool_decide_eq_true_2 by left.
  - rewrite IH. case_bool_decide as Hin.
    + by rewrite bool_decide_eq_true_2 by (by right).
    + rewrite bool_decide_eq_false_2; [done|].
      by intros [?|?]%elem_of_cons.
Qed.

(** The [for (const dep of dependencies)] loop of [generatePayload]. *)
Definition generated_types (dependencies : list string)
    (types : list (string * EIP712Struct)) : list (string * EIP712Struct) :=
  fold_left (λ types dep, types_set dep (default [] (this.(structs) !! dep)) types)
            dependencies types.

Lemma generated_types_keys (dependencies : list string)
    (types : list (string * EIP712Struct)) :
  NoDup (map fst types ++ dependencies) →
  map fst (generated_types dependencies types) = map fst types ++ dependencies.
Proof.
  revert types. induction dependencies as [|dep rest IH]; intros types Hnd.
  - cbn. by rewrite app_nil_r.
  - cbn [generated_types fold_left]. fold (generated_types rest).
    apply NoDup_app in Hnd as (Hkeys & Hdisjoint & Hdeps).
    assert (Hdep : dep ∉ map fst types)
      by (intros Hin; apply (Hdisjoint dep Hin); by left).
    rewrite IH; rewrite types_set_keys, bool_decide_eq_false_2 by done.
    + by rewrite <- app_assoc.
    + rewrite <- app_assoc. apply NoDup_app. split_and!; [done| |done].
      intros x Hx. by apply Hdisjoint.
Qed.

Lemma generated_types_get (dependencies : list string)
    (types : list (string * EIP712Struct)) (key : string) :
  types_get (generated_types dependencies types) key
  = if bool_decide (key ∈ dependencies)
    then Some (default [] (this.(structs) !! key))
    else types_get types key.
Proof.
  revert types. induction dependencies as [|dep rest IH]; intros types.
  - by rewrite bool_decide_eq_false_2 by apply not_elem_of_nil.
  - cbn [generated_types fold_left]. fold (generated_types rest).
    rewrite IH, types_get_set. case_bool_decide as Hrest.
    + by rewrite bool_decide_eq_true_2 by (by right).
    + destruct (String.eqb_spec dep key) as [->|Hne].
      * by rewrite bool_decide_eq_true_2 by left.
      * rewrite bool_decide_eq_false_2; [done|].
        by intros [?|?]%elem_of_cons.
Qed.

(** With distinct field names, a schema agrees with itself. *)
Lemma find_field_self (registered : EIP712Struct) (field : EIP712StructField) :
  NoDup (map fname registered) → field ∈ registered →
  find_field registered (fname field) = Some field.
Proof.
  induction registered as [|first rest IH]; intros Hnd Hin.
  - by apply elem_of_nil in Hin.
  - cbn in Hnd. apply NoDup_cons in Hnd as [Hfirst Hnd]. cbn [find_field].
    apply elem_of_cons in Hin as [->|Hin]; [by rewrite String.eqb_refl|].
    destruct (String.eqb_spec (fname first) (fname field)) as [Heq|_];
      [|by apply IH].
    destruct Hfirst. rewrite Heq. apply list_elem_of_fmap. by exists field.
Qed.

Lemma field_agrees_self (registered : EIP712Struct) :
  NoDup (map fname registered) → Forall (field_agrees registered) registered.
Proof.
  intros Hnd. apply Forall_forall. intros field Hin.
  exists field. split; [by apply find_field_self|done].
Qed.

End GeneratePayload.

(** X10.  When [EIP712Domain] is registered, no registered schema
    declares a field name twice and the dependency walk of
    [primaryType] returns, [generatePayload(data, primaryType)]
    returns a payload that has exactly the four keys, carries the
    instance's domain and the given data, and passes [_verifyTypes]:
    it names [EIP712Domain] and the dependencies of [primaryType],
    each once and with the registered schema.  It passes
    [_verifyPrimaryType] when [primaryType] is registered.  When the
    walk ends in an exception, so does [generatePayload]. *)
Theorem generatePayload_verifies (this : EIP712Signer) (data : any)
    (primary : string) :
  is_Some (this.(structs) !! "EIP712Domain") →
  map_Forall (λ _ fields, NoDup (map fname fields)) this.(structs) →
  (∀ found, _getDependenciesOf this primary = Ok found →
     ∃ payload,
       generatePayload this data primary = Ok payload ∧
       _verifyMainPayloadField payload = Ok () ∧
       payload.(domain) = Some this.(this_domain) ∧
       payload.(message) = Some data ∧
       payload.(primaryType) = Some primary ∧
       (∃ payload_types,
          payload.(types) = Some payload_types ∧
          NoDup (map fst payload_types) ∧
          (∀ key, key ∈ map fst payload_types ↔
                  key = "EIP712Domain" ∨ key ∈ found) ∧
          (∀ key, key ∈ map fst payload_types →
                  types_get payload_types key = this.(structs) !! key)) ∧
       _verifyTypes this payload = Ok () ∧
       (is_Some (this.(structs) !! primary) →
        _verifyPrimaryType this payload = Ok ())) ∧
  (∀ e, _getDependenciesOf this primary = Err e →
     generatePayload this data primary = Err TypeError).
Proof.
  intros [domain_type Hdomain] Hfields. split.
  2:{ intros e He. pose proof (getDependenciesOf_TypeError _ _ _ He) as ->.
      unfold generatePayload. by rewrite He. }
  intros deps Hwalk.
  set (listed := generated_types this deps []).
  set (payload_types := types_set "EIP712Domain" domain_type listed).
  set (payload := {| domain := Some this.(this_domain);
                     primaryType := Some primary;
                     types := Some payload_types;
                     message := Some data;
                     other_keys := [] |}).
  assert (Hpayload : generatePayload this data primary = Ok payload).
  { unfold generatePayload. rewrite Hwalk. cbn [mbind outcome_bind].
    by rewrite Hdomain. }
  exists payload.
  assert (Hdeps : NoDup deps) by (by eapply getDependenciesOf_NoDup).
  assert (Hlisted : map fst listed = deps)
    by (unfold listed; by rewrite generated_types_keys).
  assert (Hkeys : map fst payload_types
                  = if bool_decide ("EIP712Domain" ∈ deps) then deps
                    else deps ++ ["EIP712Domain"])
    by (unfold payload_types; by rewrite types_set_keys, Hlisted).
  assert (Hnodup : NoDup (map fst payload_types)).
  { rewrite Hkeys. case_bool_decide as Hin; [done|].
    apply NoDup_app. split_and!; [done| |apply NoDup_singleton].
    intros x Hx ->%list_elem_of_singleton. done. }
  assert (Hmem : ∀ key, key ∈ map fst payload_types ↔
                        key = "EIP712Domain" ∨ key ∈ deps).
  { intros key. rewrite Hkeys. case_bool_decide as Hin; [|set_solver].
    split; [auto|]. by intros [->|?]. }
  assert (Hget : ∀ key, key ∈ map fst payload_types →
                        types_get payload_types key = this.(structs) !! key).
  { intros key Hkey. unfold payload_types, listed.
    rewrite types_get_set, generated_types_get.
    destruct (String.eqb_spec "EIP712Domain" key) as [<-|Hne]; [done|].
    apply Hmem in Hkey as [->|Hkey]; [done|].
    rewrite bool_decide_eq_true_2 by done.
    destruct (getDependenciesOf_registered this primary key deps Hwalk Hkey)
      as [s ->].
    done. }
  split_and!; [exact Hpayload|reflexivity|reflexivity|reflexivity|reflexivity| | |].
  - exists payload_types. by split_and!.
  - unfold _verifyTypes. cbn [primaryType types payload].
    rewrite Hwalk. cbn [mbind outcome_bind].
    assert (Hsize : length (map fst payload_types) = size (required_types deps)).
    { replace (required_types deps) with (list_to_set (map fst payload_types) : gset string).
      - by rewrite size_list_to_set.
      - apply set_eq. intros x.
        rewrite elem_of_list_to_set, Hmem, elem_of_required_types. done. }
    rewrite Hsize, Nat.eqb_refl. cbn [negb].
    apply verifyTypes_loop_Ok, Forall_forall. intros key Hkey.
    unfold check_type.
    assert (Hreg : is_Some (this.(structs) !! key)).
    { apply Hmem in Hkey as [->|Hkey]; [by eexists|].
      by eapply getDependenciesOf_registered. }
    destruct Hreg as [registered Hreg].
    rewrite (proj2 (structs_read_Struct this key registered) Hreg).
    rewrite (Hget key Hkey), Hreg.
    apply verifyFields_agree, field_agrees_self. by apply (Hfields key).
  - intros Hreg. unfold _verifyPrimaryType.
    cbn [primaryType payload default from_option id].
    by rewrite truthy_Struct.
Qed.

(** [generatePayload] for [Mail] in the registry of the tests. *)
Lemma generatePayload_verifies_witness :
  ∃ payload,
    generatePayload Fixture.EtherMail Fixture_message "Mail" = Ok payload ∧
    _verifyTypes Fixture.EtherMail payload = Ok () ∧
    _verifyPrimaryType Fixture.EtherMail payload = Ok ().
Proof.
  destruct (generatePayload_verifies Fixture.EtherMail Fixture_message "Mail")
    as [Hreturns _].
  - vm_compute. eauto.
  - unfold Fixture.EtherMail. cbn [structs initial].
    repeat (apply map_Forall_insert_2; [cbn; repeat (apply NoDup_cons; split; [set_solver|]); constructor|]).
    apply map_Forall_empty.
  - destruct (Hreturns ["Mail"; "Person"; "UselessType"])
      as (payload & Hpayload & _ & _ & _ & _ & _ & Htypes & Hprimary);
      [vm_compute; reflexivity|].
    exists payload. split_and!; [exact Hpayload|exact Htypes|].
    apply Hprimary. vm_compute. eauto.
Defined.

(** A schema that declares one field name with two types does not
    agree with itself: the generated payload is then rejected by
    [_verifyTypes]. *)
Example generatePayload_duplicate_field_name :
  let this := {| structs := <["Pair" := [Field "x" "uint256"; Field "x" "string"]]>
                              initial.(structs);
                 this_domain := Fixture.domain |} in
  (payload ← generatePayload this VNull "Pair"; _verifyTypes this payload)
  = Err (FieldMismatch_type "Pair" "string" "uint256").
Proof. vm_compute. reflexivity. Qed.

(** ** Field encoding: arrays and the shape of a word *)

Section FieldFacts.

Variable this : EIP712Signer.
Variable keccak : list byte → list byte.
Variable abi_encode : list string → list any → outcome (list byte).

Lemma brackets_not (type other : string) :
  ends_by_brackets other = false → String.eqb (type +:+ "[]") other = false.
Proof.
  intros Hother. apply String.eqb_neq. intros Heq.
  by rewrite <- Heq, ends_by_brackets_app in Hother.
Qed.

Lemma keccak256_any_is_keccak (value : any) (hash : string) :
  keccak256_any keccak value = Ok hash → ∃ bytes, hash = hexlify (keccak bytes).
Proof.
  destruct value as [| |b|n|n|data|elems|props|key]; try done.
  cbn. unfold keccak256_hex.
  destruct (arrayify data) as [bytes|]; [|done]. intros [= <-]. by exists bytes.
Qed.

Lemma inherited_app_brackets (t : string) : inherited (t +:+ "[]") = false.
Proof.
  destruct (inherited (t +:+ "[]")) eqn:Hin; [|done].
  apply inherited_brackets in Hin. by rewrite ends_by_brackets_app in Hin.
Qed.

End FieldFacts.

(** X11.  For an unregistered type [t[]], an array value is encoded
    element by element with the type [t], one level of brackets
    stripped, the first failing element aborting; the word is the
    keccak-256 of the ABI encoding of the element pairs, in order.
    A value that is not an array is a [TypeError]. *)
Theorem encodeField_array (this : EIP712Signer)
    (keccak : list byte → list byte)
    (abi_encode : list string → list any → outcome (list byte))
    (t : string) :
  this.(structs) !! (t +:+ "[]") = None →
  (∀ elems,
     _encodeDataTypeField this keccak abi_encode (t +:+ "[]") (VArr elems)
     = pairs ← mapM (_encodeDataTypeField this keccak abi_encode t) elems;
       bytes ← abi_encode (map fst pairs) (map snd pairs);
       Ok ("bytes32", VStr (hexlify (keccak bytes)))) ∧
  (∀ value, (∀ elems, value ≠ VArr elems) →
     _encodeDataTypeField this keccak abi_encode (t +:+ "[]") value
     = Err TypeError).
Proof.
  intros Hreg.
  assert (Hunfold : ∀ value,
    _encodeDataTypeField this keccak abi_encode (t +:+ "[]") value
    = match value with
      | VArr elems =>
          encoded_array ← mapM (_encodeDataTypeField this keccak abi_encode t) elems;
          encoded ← abie_encode abi_encode (map fst encoded_array)
                                           (map snd encoded_array);
          hash ← keccak256_hex keccak encoded;
          Ok ("bytes32", VStr hash)
      | _ => Err TypeError
      end).
  { intros value. rewrite encodeDataTypeField_unfold.
    rewrite (proj2 (truthy_false this (t +:+ "[]")))
      by (split; [done|apply inherited_app_brackets]).
    rewrite !brackets_not by done. cbn [andb].
    cbn [mbind outcome_bind]. by rewrite ends_by_brackets_app, extract_type_app. }
  split.
  - intros elems. rewrite Hunfold.
    destruct (mapM _ elems) as [pairs|]; [|done]. cbn [mbind outcome_bind].
    unfold abie_encode.
    destruct (abi_encode _ _) as [bytes|]; [|done]. cbn [mbind outcome_bind].
    by rewrite keccak256_hex_hexlify.
  - intros value Hvalue. rewrite Hunfold.
    destruct value as [| |b|n|n|data|elems|props|key]; try done.
    by destruct (Hvalue elems).
Qed.

(** The [usernames] of the tests, of type [bytes32[]], and the value
    [null] for the same type. *)
Lemma encodeField_array_witness :
  (∃ word,
     _encodeDataTypeField Fixture.EtherMail Fixture.keccak Fixture.abi_encode
       "bytes32[]"
       (VArr [VStr "0x0000000000000000000000000000000000000000000000000000000000000001"])
     = Ok ("bytes32", word)) ∧
  _encodeDataTypeField Fixture.EtherMail Fixture.keccak Fixture.abi_encode
    "bytes32[]" VNull = Err TypeError.
Proof.
  destruct (encodeField_array Fixture.EtherMail Fixture.keccak Fixture.abi_encode
              "bytes32" eq_refl) as [Harray Hother].
  split.
  - change ("bytes32[]") with ("bytes32" +:+ "[]"). rewrite Harray.
    vm_compute. eauto.
  - apply (Hother VNull). discriminate.
Defined.

(** X12.  Whatever [_encodeDataTypeField] returns is either a
    [bytes32] word, which is the all-zero constant or the rendering
    of a keccak output (66 characters for a 32-byte keccak), or the
    value passed through under its own type; the latter only for a
    type that is not a registered struct, not [bytes], not [string]
    and does not pass the array test, the value being unchanged unless
    the type is [uint256] and the value was turned into its string. *)
Theorem encodeField_word (this : EIP712Signer)
    (keccak : list byte → list byte)
    (abi_encode : list string → list any → outcome (list byte))
    (type : string) (value : any) (tag : string) (word : any) :
  (∀ data, length (keccak data) = 32) →
  _encodeDataTypeField this keccak abi_encode type value = Ok (tag, word) →
  (tag = "bytes32" ∧
   ∃ text, word = VStr text ∧ String.length text = 66 ∧
           (text = B32Z ∨ ∃ bytes, text = hexlify (keccak bytes))) ∨
  (tag = type ∧ this.(structs) !! type = None ∧
   type ≠ "bytes" ∧ type ≠ "string" ∧ ends_by_brackets type = false ∧
   (word = value ∨
    type = "uint256" ∧ ∃ text, toString value = Ok text ∧ word = VStr text)).
Proof.
  intros Hlen.
  assert (Hword : ∀ bytes, String.length (hexlify (keccak bytes)) = 66).
  { intros bytes. unfold hexlify. rewrite string_length_app, to_hex_length, Hlen.
    done. }
  rewrite encodeDataTypeField_unfold.
  destruct (truthy (structs_read this type)) eqn:Hreg.
  { intros Hres. left.
    assert (Hcase : (tag, word) = ("bytes32", VStr B32Z) ∨
                    ∃ hash, _hashData this keccak abi_encode type value = Ok hash ∧
                            (tag, word) = ("bytes32", VStr hash)).
    { destruct value; try (by left; injection Hres as <- <-);
        right; (destruct (_hashData _ _ _ _ _) as [hash|]; [|done]);
        exists hash; (split; [done|]); by injection Hres as <- <-. }
    destruct Hcase as [[= -> ->]|(hash & Hhash & [= -> ->])].
    - split; [done|]. exists B32Z. split_and!; [done|done|by left].
    - apply hashData_is_keccak in Hhash as [bytes ->].
      split; [done|]. eexists. split_and!; [done|apply Hword|right; by eexists]. }
  assert (Hnone : this.(structs) !! type = None)
    by (by apply truthy_false in Hreg as [? _]).
  destruct (String.eqb_spec type "bytes") as [->|Hbytes].
  { destruct (keccak256_any keccak value) as [hash|] eqn:Hhash; [|done].
    apply keccak256_any_is_keccak in Hhash as [bytes ->]. intros [= <- <-].
    left. split; [done|]. eexists. split_and!; [done|apply Hword|right; by eexists]. }
  destruct (String.eqb_spec type "string") as [->|Hstring].
  { destruct (buffer_of_utf8 value) as [bytes|]; [|done]. intros [= <- <-].
    left. split; [done|]. eexists.
    split_and!; [done|apply Hword|right; by eexists]. }
  destruct (ends_by_brackets type) eqn:Harr.
  - intros Hres. left.
    assert (Harray : ∃ elems pairs,
              value = VArr elems ∧
              mapM (_encodeDataTypeField this keccak abi_encode (extract_type type))
                   elems = Ok pairs ∧
              (encoded ← abie_encode abi_encode (map fst pairs) (map snd pairs);
               hash ← keccak256_hex keccak encoded;
               Ok ("bytes32", VStr hash)) = Ok (tag, word)).
    { destruct (_ && _) in Hres; [destruct (toString value) in Hres; [|done]|];
        cbn [mbind outcome_bind] in Hres;
        (destruct value as [| |b|n|n|data|elems|props|key]; try done);
        (destruct (mapM _ elems) as [pairs|] eqn:Hpairs; [|done]);
        by exists elems, pairs. }
    clear Hres. destruct Harray as (elems & pairs & -> & _ & Hres).
    unfold abie_encode in Hres.
    destruct (abi_encode _ _) as [bytes|]; [|done]. cbn [mbind outcome_bind] in Hres.
    rewrite keccak256_hex_hexlify in Hres. injection Hres as <- <-.
    split; [done|]. eexists. split_and!; [done|apply Hword|right; by eexists].
  - intros Hres. right. revert Hres.
    destruct (String.eqb type "uint256" && typeof_object value) eqn:Hobj.
    + destruct (toString value) as [text|] eqn:Htext; [|done].
      cbn [mbind outcome_bind]. intros [= <- <-].
      apply andb_true_iff in Hobj as [Htype%String.eqb_eq _].
      split_and!; [done..|]. right. split; [done|]. by exists text.
    + cbn [mbind outcome_bind]. intros [= <- <-].
      split_and!; [done..|]. by left.
Qed.

Lemma encodeField_word_witness :
  String.length
    (match _encodeDataTypeField Fixture.EtherMail Fixture.keccak Fixture.abi_encode
             "string" (VStr "Hello lele") with
     | Ok (_, VStr text) => text
     | _ => ""
     end) = 66.
Proof.
  destruct (_encodeDataTypeField Fixture.EtherMail Fixture.keccak Fixture.abi_encode
              "string" (VStr "Hello lele")) as [[tag word]|] eqn:Hres;
    [|by vm_compute in Hres].
  destruct (encodeField_word Fixture.EtherMail Fixture.keccak Fixture.abi_encode
              "string" (VStr "Hello lele") tag word) as [Hword|Hpass];
    [reflexivity|exact Hres| |].
  - destruct Hword as (_ & text & -> & Hlen & _). exact Hlen.
  - by destruct Hpass as (_ & _ & _ & Hstring & _).
Defined.

(** ** [sign] followed by [verify] *)

(** X13.  [verify] hands the recovery capability the same digest
    that [sign] hands the signer: the keccak-256 of the pre-image.
    So when the signer returns 32-byte [r] and [s] and a [v] for that
    digest, and recovery maps the digest and the wire form
    ["0x" + r + s + v] to an address, [verify] on the [hex] of the
    signature that [sign] returns gives that address. *)
Theorem sign_then_verify (this : EIP712Signer)
    (keccak : list byte → list byte)
    (abi_encode : list string → list any → outcome (list byte))
    (signDigest : string → list byte → outcome (string * string * Z))
    (recoverAddress : list byte → string → outcome string)
    (payload : EIP712Payload) (check_sign check_verify : bool)
    (privateKey address encoded_payload : string)
    (r_word s_word : list byte) (v_id : Z) :
  encode this keccak abi_encode payload check_sign = Ok encoded_payload →
  encode this keccak abi_encode payload check_verify = Ok encoded_payload →
  length r_word = 32 → length s_word = 32 →
  signDigest privateKey (keccak (buffer_of_hex encoded_payload))
  = Ok (hexlify r_word, hexlify s_word, v_id) →
  recoverAddress (keccak (buffer_of_hex encoded_payload))
    ("0x" +:+ to_hex r_word +:+ to_hex s_word +:+ BN.toString16 v_id)
  = Ok address →
  ∃ signature,
    sign this keccak abi_encode signDigest (PrivateKey privateKey) payload check_sign
    = Ok signature ∧
    verify this keccak abi_encode recoverAddress payload signature.(hex) check_verify
    = Ok address.
Proof.
  intros Hsign Hverify Hr Hs Hsigner Hrecover.
  eexists. split.
  - unfold sign. rewrite Hsign. cbn [mbind outcome_bind].
    unfold keccak256. rewrite buffer_of_hex_hexlify, Hsigner.
    cbn [mbind outcome_bind fst snd]. rewrite !padded_component by done.
    reflexivity.
  - unfold verify. rewrite Hverify. cbn [mbind outcome_bind hex].
    unfold keccak256. by rewrite buffer_of_hex_hexlify.
Qed.

Lemma sign_then_verify_witness :
  ∃ signature address,
    sign Fixture.EtherMail Fixture.keccak Fixture.abi_encode Fixture.signDigest
      (PrivateKey "0x01") Fixture_payload false = Ok signature ∧
    verify Fixture.EtherMail Fixture.keccak Fixture.abi_encode
      Fixture.recoverAddress Fixture_payload signature.(hex) true = Ok address.
Proof.
  destruct (encode Fixture.EtherMail Fixture.keccak Fixture.abi_encode
              Fixture_payload false) as [encoded_payload|] eqn:Hencode;
    [|by vm_compute in Hencode].
  assert (Hchecked : encode Fixture.EtherMail Fixture.keccak Fixture.abi_encode
                       Fixture_payload true = Ok encoded_payload).
  { revert Hencode. vm_compute. done. }
  destruct (sign_then_verify Fixture.EtherMail Fixture.keccak Fixture.abi_encode
              Fixture.signDigest Fixture.recoverAddress Fixture_payload false true
              "0x01"
              (hexlify (firstn 20 (Fixture.keccak (buffer_of_hex encoded_payload))))
              encoded_payload (repeat Byte.x00 31 ++ [Byte.x2a])
              (Fixture.keccak (buffer_of_hex encoded_payload)) 27%Z)
    as (signature & Hsign & Hverify); [done|done|reflexivity..|].
  exists signature, (hexlify (firstn 20 (Fixture.keccak
                                          (buffer_of_hex encoded_payload)))).
  split; [exact Hsign|exact Hverify].
Defined.

(** ** [_fromSigned] and [_toUnsigned] *)

Section SignedFacts.

Local Open Scope Z_scope.

Lemma testbit_top (x : Z) :
  0 ≤ x < 2 ^ 256 → Z.testbit x 255 = (2 ^ 255 <=? x).
Proof.
  intros Hx. destruct (Z.leb_spec (2 ^ 255) x) as [Hge|Hlt].
  - apply Z.testbit_true; [done|].
    assert (x / 2 ^ 255 = 1) as ->; [|done].
    symmetry. apply Z.div_unique with (x - 2 ^ 255); lia.
  - apply (testbit_above x 255 255); lia.
Qed.

Lemma of_bytes_range (word : list byte) :
  length word = 32%nat → 0 ≤ BN.of_bytes word < 2 ^ 256.
Proof.
  intros Hlen. unfold BN.of_bytes. pose proof (of_bytes_N_lt word) as Hlt.
  rewrite Hlen in Hlt.
  change (256 ^ N.of_nat 32)%N with (Z.to_N (2 ^ 256)) in Hlt. lia.
Qed.

End SignedFacts.

(** X14.  [_fromSigned] reads a 32-byte data hex string as a
    256-bit two's complement number: the unsigned value when it is
    below [2^255], that value minus [2^256] otherwise.
    [_toUnsigned] undoes it: applied to the result it gives the bytes
    of the word without their leading zero bytes (one zero byte for
    zero), which denote the unsigned value again. *)
Theorem fromSigned_toUnsigned (word : list byte) :
  length word = 32 →
  let unsigned := BN.of_bytes word in
  _fromSigned (hexlify word)
  = (if (unsigned <? 2 ^ 255)%Z then unsigned else unsigned - 2 ^ 256)%Z ∧
  (- 2 ^ 255 ≤ _fromSigned (hexlify word) < 2 ^ 255)%Z ∧
  _toUnsigned (_fromSigned (hexlify word))
  = match strip_zeros word with
    | [] => [Byte.x00]
    | _ => strip_zeros word
    end ∧
  BN.of_bytes (_toUnsigned (_fromSigned (hexlify word))) = unsigned.
Proof.
  intros Hlen unsigned. pose proof (of_bytes_range word Hlen) as Hrange.
  fold unsigned in Hrange.
  assert (Hsigned : _fromSigned (hexlify word)
                    = (if (unsigned <? 2 ^ 255)%Z then unsigned
                       else unsigned - 2 ^ 256)%Z).
  { unfold _fromSigned. rewrite buffer_of_hex_hexlify. fold unsigned.
    unfold BN.fromTwos. change (256 - 1)%Z with 255%Z.
    rewrite testbit_top by done.
    destruct (Z.leb_spec (2 ^ 255) unsigned), (Z.ltb_spec unsigned (2 ^ 255));
      try lia.
    rewrite notn_complement by lia. lia. }
  assert (Hbytes : _toUnsigned (_fromSigned (hexlify word))
                   = match strip_zeros word with
                     | [] => [Byte.x00]
                     | _ => strip_zeros word
                     end).
  { unfold _toUnsigned, _fromSigned. rewrite buffer_of_hex_hexlify.
    rewrite toTwos_fromTwos by done. apply toArray_of_bytes. }
  split; [done|]. split; [|split; [done|]].
  - rewrite Hsigned. destruct (Z.ltb_spec unsigned (2 ^ 255)); lia.
  - rewrite Hbytes. unfold unsigned, BN.of_bytes. f_equal.
    rewrite <- (of_bytes_N_strip word). by destruct (strip_zeros word).
Qed.

(** The word [0xff...ff] is read as [-1] and written back as itself. *)
Lemma fromSigned_toUnsigned_witness :
  _fromSigned (hexlify (repeat Byte.xff 32)) = (-1)%Z ∧
  _toUnsigned (_fromSigned (hexlify (repeat Byte.xff 32))) = repeat Byte.xff 32.
Proof.
  destruct (fromSigned_toUnsigned (repeat Byte.xff 32) eq_refl)
    as (Hsigned & _ & Hbytes & _).
  split; [rewrite Hsigned|rewrite Hbytes]; reflexivity.
Defined.

(** ** Numbers and big numbers in a record *)

(** A stand-in coder that looks at the values: under [uint256] a
    number is laid out as its decimal digits, and so is a decimal
    string; under any other type the two forms differ by a tag. *)
Definition Fixture_encode_pair (type : string) (value : any) : list byte :=
  if String.eqb type "uint256" then
    match value with
    | VNum n => utf8 (decimal n)
    | VStr digits => utf8 digits
    | _ => utf8 (toString_elem value)
    end
  else
    match value with
    | VNum n => Byte.x00 :: utf8 (decimal n)
    | VStr text => Byte.x01 :: utf8 text
    | _ => Byte.x02 :: utf8 (toString_elem value)
    end.

Fixpoint Fixture_lay_out (types : list string) (values : list any) : list byte :=
  match types, values with
  | type :: types', value :: values' =>
      utf8 type ++ Fixture_encode_pair type value ++ Fixture_lay_out types' values'
  | _, _ => []
  end.

Definition Fixture_value_coder (types : list string) (values : list any)
  : outcome (list byte) :=
  Ok (Fixture_lay_out types values).

Lemma Fixture_value_coder_uint256 (n : Z) (types_before types_after : list string)
    (before after : list any) :
  length types_before = length before →
  Fixture_value_coder (types_before ++ "uint256" :: types_after)
                      (before ++ VStr (decimal n) :: after)
  = Fixture_value_coder (types_before ++ "uint256" :: types_after)
                        (before ++ VNum n :: after).
Proof.
  unfold Fixture_value_coder. intros Hlen. f_equal.
  revert before Hlen.
  induction types_before as [|type types_before IH]; intros [|value before] Hlen;
    try done.
  cbn [app Fixture_lay_out]. rewrite IH; [done|]. by injection Hlen.
Qed.

(** X15.  A [uint256] field reaches the ABI coder as the number [n]
    when the record holds a native integer and as the decimal string
    of [n] when it holds a [BN].  If the ABI coder encodes the two
    alike in a [uint256] position, two records that differ only in
    that form of the field have the same [_encodeData], hence the
    same struct hash. *)
Theorem encodeData_number_forms (this : EIP712Signer)
    (keccak : list byte → list byte)
    (abi_encode : list string → list any → outcome (list byte))
    (typeName key : string) (pre post : EIP712Struct)
    (props props' : list (string * any)) (n : Z) :
  (∀ types_before types_after before after,
     length types_before = length before →
     abi_encode (types_before ++ "uint256" :: types_after)
                (before ++ VStr (decimal n) :: after)
     = abi_encode (types_before ++ "uint256" :: types_after)
                  (before ++ VNum n :: after)) →
  this.(structs) !! typeName = Some (pre ++ Field key "uint256" :: post) →
  this.(structs) !! "uint256" = None →
  Forall (λ field, fname field ≠ key) (pre ++ post) →
  (∀ k, k ≠ key → own props' k = own props k) →
  own props key = VNum n → own props' key = VBN n →
  _encodeData this keccak abi_encode typeName (VObj props')
  = _encodeData this keccak abi_encode typeName (VObj props) ∧
  _hashData this keccak abi_encode typeName (VObj props')
  = _hashData this keccak abi_encode typeName (VObj props).
Proof.
  intros Habi Hreg Huint Hother Hsame Hnum Hbn.
  enough (Hdata : _encodeData this keccak abi_encode typeName (VObj props')
                  = _encodeData this keccak abi_encode typeName (VObj props)).
  { split; [done|]. unfold _hashData, hashData_with.
    unfold _encodeData in Hdata. by rewrite Hdata. }
  destruct (_hashType this keccak typeName) as [hashType|e] eqn:Hhash.
  2:{ unfold _encodeData, encodeData_with. by rewrite Hhash. }
  rewrite !(encodeData_record this keccak abi_encode typeName _ _ hashType Hreg Hhash).
  apply Forall_app in Hother as [Hpre Hpost].
  set (step := λ (ps : list (string * any)) (field : EIP712StructField),
         if is_set (own ps (fname field))
         then _encodeDataTypeField this keccak abi_encode (ftype field)
                (own ps (fname field))
         else Err (MissingField typeName (fname field))).
  assert (Hstep : ∀ fields, Forall (λ field, fname field ≠ key) fields →
                            mapM (step props') fields = mapM (step props) fields).
  { intros fields Hfields. apply mapM_ext_Forall.
    eapply Forall_impl; [exact Hfields|]. intros field Hne.
    unfold step. by rewrite Hsame. }
  fold (step props') (step props).
  rewrite !mapM_app, (Hstep pre Hpre).
  destruct (mapM (step props) pre) as [pairs_pre|]; [|done].
  cbn [mbind outcome_bind mapM]. rewrite (Hstep post Hpost).
  assert (Hplain : truthy (structs_read this "uint256") = false)
    by (by apply truthy_false).
  assert (Hfield' : step props' (Field key "uint256")
                    = Ok ("uint256", VStr (decimal n))).
  { unfold step. cbn [fname ftype]. rewrite Hbn. cbn [is_set].
    by rewrite encodeDataTypeField_unfold, Hplain. }
  assert (Hfield : step props (Field key "uint256") = Ok ("uint256", VNum n)).
  { unfold step. cbn [fname ftype]. rewrite Hnum. cbn [is_set].
    by rewrite encodeDataTypeField_unfold, Hplain. }
  rewrite Hfield', Hfield. cbn [mbind outcome_bind].
  destruct (mapM (step props) post) as [pairs_post|]; [|done].
  cbn [mbind outcome_bind]. unfold abie_encode.
  rewrite !map_app. cbn [map fst snd]. rewrite !app_comm_cons.
  rewrite (Habi ("bytes32" :: map fst pairs_pre) (map fst pairs_post)
             (VStr hashType :: map snd pairs_pre) (map snd pairs_post)); [done|].
  cbn [length]. by rewrite !length_map.
Qed.

(** [integer_value] of a [Person] as [12] and as [new BN(12)], with
    the stand-in coder that looks at the values: the two records hash
    alike, although the coder tells the number from the string under
    the type [string]. *)
Lemma encodeData_number_forms_witness :
  _hashData Fixture.EtherMail Fixture.keccak Fixture_value_coder "Person"
    (VObj Fixture_from)
  = _hashData Fixture.EtherMail Fixture.keccak Fixture_value_coder "Person"
      (VObj (("integer_value", VNum 12) :: Fixture_from)) ∧
  (∃ hash, _hashData Fixture.EtherMail Fixture.keccak Fixture_value_coder "Person"
             (VObj Fixture_from) = Ok hash) ∧
  Fixture_value_coder ["string"] [VStr "12"]
  ≠ Fixture_value_coder ["string"] [VNum 12].
Proof.
  split_and!.
  - apply (encodeData_number_forms Fixture.EtherMail Fixture.keccak
             Fixture_value_coder "Person" "integer_value"
             (firstn 6 Fixture.Person) []
             (("integer_value", VNum 12) :: Fixture_from) Fixture_from 12).
    + intros types_before types_after before after Hlen.
      by apply (Fixture_value_coder_uint256 12).
    + reflexivity.
    + reflexivity.
    + repeat (constructor; [discriminate|]). constructor.
    + intros k Hk. unfold own. cbn [lookup_with].
      destruct (String.eqb_spec "integer_value" k) as [<-|_]; [done|reflexivity].
    + reflexivity.
    + reflexivity.
  - vm_compute. eauto.
  - vm_compute. discriminate.
Defined.

(** ** What a verified payload is *)

(** X16.  When [encode(payload, true)] returns, the payload has
    exactly the four keys; its [primaryType] is a registered name
    whose dependency walk returns; [payload.types] has as many keys as
    [EIP712Domain] together with the dependencies of [primaryType];
    every key is registered, with every field it claims agreeing with
    the registered schema, or is the name of a member of
    [Object.prototype] that claims no field; and a domain record has
    every field of the [EIP712Domain] schema set. *)
Theorem encode_verified (this : EIP712Signer)
    (keccak : list byte → list byte)
    (abi_encode : list string → list any → outcome (list byte))
    (payload : EIP712Payload) (encoded : string) :
  encode this keccak abi_encode payload true = Ok encoded →
  REQUIRED_FIELDS ≡ₚ Object_keys payload ∧
  ∃ primary payload_types found,
    payload.(primaryType) = Some primary ∧
    payload.(types) = Some payload_types ∧
    is_Some (this.(structs) !! primary) ∧
    _getDependenciesOf this primary = Ok found ∧
    length payload_types = size (required_types found) ∧
    Forall (λ key,
              (∃ registered current_type,
                 this.(structs) !! key = Some registered ∧
                 types_get payload_types key = Some current_type ∧
                 Forall (field_agrees registered) current_type) ∨
              (this.(structs) !! key = None ∧ inherited key = true ∧
               types_get payload_types key = Some []))
           (map fst payload_types) ∧
    (∀ props fields,
       payload.(domain) = Some (VObj props) →
       this.(structs) !! "EIP712Domain" = Some fields →
       Forall (λ field, is_set (own props (fname field)) = true) fields).
Proof.
  unfold encode.
  destruct (_verifyMainPayloadField payload) as [[]|] eqn:Hshape; [|done].
  cbn [mbind outcome_bind].
  destruct (_verifyTypes this payload) as [[]|] eqn:Htypes; [|done].
  cbn [mbind outcome_bind].
  destruct (_verifyDomain this payload) as [[]|] eqn:Hdomain; [|done].
  cbn [mbind outcome_bind].
  destruct (_verifyPrimaryType this payload) as [[]|] eqn:Hprimary; [|done].
  intros _. split; [by apply verifyMainPayloadField_Ok|].
  unfold _verifyTypes in Htypes. unfold _verifyPrimaryType in Hprimary.
  destruct (primaryType payload) as [primary|]; [|done].
  destruct (types payload) as [payload_types|]; [|done].
  destruct (_getDependenciesOf this primary) as [found|] eqn:Hfound; [|done].
  cbn [mbind outcome_bind] in Htypes.
  exists primary, payload_types, found. cbn [default from_option id] in Hprimary.
  destruct (Nat.eqb_spec (length (map fst payload_types))
              (size (required_types found)))
    as [Hcount|]; [|done].
  cbn [negb] in Htypes. apply verifyTypes_loop_Ok in Htypes.
  split_and!; [done|done| |done|by rewrite length_map in Hcount| |].
  - destruct (structs_read this primary) as [|fields|] eqn:Hread; [done| |].
    + apply structs_read_Struct in Hread. by eexists.
    + apply getDependenciesOf_Ok in Hfound as [met Hwalk].
      apply structs_read_Inherited in Hread as [Hnone Hmember].
      rewrite getDependenciesOf_met_unfold in Hwalk.
      rewrite (inherited_brackets _ Hmember) in Hwalk.
      rewrite bool_decide_eq_false_2 in Hwalk by set_solver.
      by rewrite (proj2 (structs_read_Inherited this primary)) in Hwalk.
  - eapply Forall_impl; [exact Htypes|]. intros key Hkey.
    unfold check_type in Hkey.
    destruct (structs_read this key) as [|registered|] eqn:Hread; [done| |].
    + apply structs_read_Struct in Hread. left.
      destruct (types_get payload_types key) as [current_type|]; [|done].
      exists registered, current_type. split_and!; [done..|].
      by apply verifyFields_Ok in Hkey.
    + apply structs_read_Inherited in Hread as [Hnone Hmember]. right.
      by destruct (types_get payload_types key) as [[|]|].
  - intros props fields Hprops Hfields. unfold _verifyDomain in Hdomain.
    rewrite Hfields, Hprops in Hdomain. by apply verifyDomain_loop_Ok.
Qed.

Lemma encode_verified_witness :
  ∃ primary, Fixture_payload.(primaryType) = Some primary ∧
             is_Some (Fixture.EtherMail.(structs) !! primary).
Proof.
  destruct (encode Fixture.EtherMail Fixture.keccak Fixture.abi_encode
              Fixture_payload true) as [encoded|] eqn:Hencode;
    [|by vm_compute in Hencode].
  destruct (encode_verified Fixture.EtherMail Fixture.keccak Fixture.abi_encode
              Fixture_payload encoded Hencode)
    as (_ & primary & payload_types & found & Hprimary & _ & Hreg & _).
  exists primary. split; [exact Hprimary|exact Hreg].
Defined.

(** A key of [payload.types] that is the name of a member of
    [Object.prototype] and claims no field is let through by
    [_verifyTypes]. *)
Example verifyTypes_inherited_key :
  _verifyTypes Fixture.EtherMail
    {| types := Some [("constructor", []); ("UselessType", [])];
       primaryType := Some "UselessType";
       message := Some VNull; domain := Some Fixture.domain;
       other_keys := [] |}
  = Ok ().
Proof. vm_compute. reflexivity. Qed.

(** ** Dependency resolution: exactly the reachable structs *)

(** [reach this a b]: the registered struct [b] is reached from [a]
    by following fields, each field type resolved as the walk
    resolves it, by [element_type]. *)
Inductive reach (this : EIP712Signer) (a : string) : string → Prop :=
| reach_refl : reach this a a
| reach_step (b : string) (fields : EIP712Struct) (field : EIP712StructField) :
    reach this a b →
    this.(structs) !! b = Some fields → field ∈ fields →
    is_Some (this.(structs) !! element_type (ftype field)) →
    reach this a (element_type (ftype field)).

Section Reachability.

Variable this : EIP712Signer.

Lemma reach_trans (a b c : string) :
  reach this a b → reach this b c → reach this a c.
Proof.
  intros Hab Hbc. induction Hbc as [|c fields field _ IH Hc Hfield Hreg]; [done|].
  by eapply reach_step.
Qed.

(** A visit that returns a name started from a registered struct. *)
Lemma getDependenciesOf_fuel_root fuel type met out t :
  getDependenciesOf_fuel this fuel type met = Some (Ok out) → t ∈ out.1 →
  is_Some (this.(structs) !! element_type type).
Proof.
  revert type met out. induction fuel as [|fuel IH]; intros type met out; [done|].
  cbn [getDependenciesOf_fuel]. rewrite (element_type_unfold type).
  destruct (ends_by_brackets type); [apply IH|].
  case_bool_decide; [by intros [= <-] ?%elem_of_nil|].
  destruct (structs_read this type) as [|fields|] eqn:Hread;
    [by intros [= <-] ?%elem_of_nil| |done].
  apply structs_read_Struct in Hread. by eexists.
Qed.

Lemma dependencies_loop_reach fuel root fields fields0 :
  (∀ type met out t, getDependenciesOf_fuel this fuel type met = Some (Ok out) →
                     t ∈ out.1 → reach this (element_type type) t) →
  this.(structs) !! root = Some fields0 → fields ⊆ fields0 →
  ∀ result met out,
    dependencies_loop (getDependenciesOf_fuel this fuel) fields result met
    = Some (Ok out) →
    (∀ t, t ∈ result → reach this root t) →
    ∀ t, t ∈ out.1 → reach this root t.
Proof.
  intros IH Hroot. induction fields as [|field rest IHf]; intros Hsub result met out.
  - by intros [= <-].
  - cbn [dependencies_loop].
    destruct (getDependenciesOf_fuel this fuel (ftype field) met)
      as [[[r met']|e]|] eqn:E; [|done|done].
    intros Hloop Hresult. apply (IHf ltac:(set_solver) _ _ _ Hloop).
    intros t [Ht|Ht]%elem_of_app; [by apply Hresult|].
    apply reach_trans with (element_type (ftype field)).
    + eapply reach_step; [apply reach_refl|exact Hroot|set_solver|].
      by eapply getDependenciesOf_fuel_root.
    + by eapply IH.
Qed.

Lemma getDependenciesOf_fuel_reach fuel type met out t :
  getDependenciesOf_fuel this fuel type met = Some (Ok out) → t ∈ out.1 →
  reach this (element_type type) t.
Proof.
  revert type met out t. induction fuel as [|fuel IH]; intros type met out t; [done|].
  cbn [getDependenciesOf_fuel]. rewrite (element_type_unfold type).
  destruct (ends_by_brackets type); [apply IH|].
  case_bool_decide; [by intros [= <-] ?%elem_of_nil|].
  destruct (structs_read this type) as [|fields|] eqn:Hs;
    [by intros [= <-] ?%elem_of_nil| |done].
  apply structs_read_Struct in Hs.
  intros Hloop. apply (dependencies_loop_reach fuel type fields fields IH Hs
                         ltac:(done) _ _ _ Hloop).
  intros x ->%list_elem_of_singleton. apply reach_refl.
Qed.

End Reachability.

(** X17.  When the walk [_getDependenciesOf(type)] returns, its list
    holds exactly the registered structs reachable from the struct
    that [type] resolves to, by following fields whose type resolves
    to a registered struct: nothing else, and nothing when [type] does
    not resolve to a registered struct.  A type resolves as the walk
    resolves it, by [element_type]: [[]] suffixes are stripped, and a
    one-character name is stripped to the empty string. *)
Theorem getDependenciesOf_reachable (this : EIP712Signer) (type t : string)
    (found : list string) :
  _getDependenciesOf this type = Ok found →
  (t ∈ found ↔
   is_Some (this.(structs) !! element_type type) ∧
   reach this (element_type type) t) ∧
  element_type (type +:+ "[]") = element_type type ∧
  (String.length type = 1 → element_type type = "").
Proof.
  intros Hfound.
  destruct (getDependenciesOf_closure this type found Hfound)
    as (Hclosed & Hfirst & _).
  destruct (getDependenciesOf_Ok this type found Hfound) as [met Hwalk].
  pose proof (getDependenciesOf_met_fuel this _ type ∅ (Nat.le_refl _)) as Hvisit.
  rewrite Hwalk in Hvisit.
  split_and!.
  - split.
    + intros Ht. split.
      * by eapply (getDependenciesOf_fuel_root this _ _ _ _ t Hvisit).
      * by eapply (getDependenciesOf_fuel_reach this _ _ _ _ t Hvisit).
    + intros [Hroot Hreach].
      induction Hreach as [|b fields field _ IH Hb Hfield Hreg].
      * destruct (Hfirst Hroot) as [others ->]. by left.
      * by eapply Hclosed.
  - rewrite (element_type_unfold (type +:+ "[]")).
    by rewrite ends_by_brackets_app, extract_type_app.
  - intros Hone. destruct type as [|c [|c' rest]]; [done| |done].
    reflexivity.
Qed.

(** In the cyclic registry [Edge] is reachable from [Node], so it is a
    dependency of [Node[]]; [EIP712Domain] is not in the list, so it
    is not reachable. *)
Lemma getDependenciesOf_reachable_witness :
  "Edge" ∈ ["Node"; "Edge"] ∧
  ¬ reach Fixture.Cyclic "Node" "EIP712Domain".
Proof.
  split.
  - apply (getDependenciesOf_reachable Fixture.Cyclic "Node[]" "Edge"
             ["Node"; "Edge"]); [vm_compute; reflexivity|].
    split; [vm_compute; eauto|].
    apply (reach_step Fixture.Cyclic "Node" "Node" Fixture.Node
             (Field "edges" "Edge[][]")); [apply reach_refl|reflexivity|set_solver|].
    vm_compute. eauto.
  - intros Hreach.
    assert (Hin : "EIP712Domain" ∈ ["Node"; "Edge"]).
    { apply (getDependenciesOf_reachable Fixture.Cyclic "Node" "EIP712Domain"
               ["Node"; "Edge"]); [vm_compute; reflexivity|].
      split; [vm_compute; eauto|exact Hreach]. }
    set_solver.
Defined.
